(** * RealTimeDataClient: the two WebSocket client drafts of poly-sdk

    The repository carries two drafts of the same class:
    - [WsClient]  embeds  src/clients/ws-client.ts  (no liveness monitor,
      a [reconnecting] flag and a [manuallyClosed] flag);
    - [Part001]   embeds  unnamed/part_001  (ping interval, pong timeout,
      stored timer handles, listener detachment).

    Both run on the same JavaScript runtime, modelled in [Runtime]: a
    logical clock in milliseconds, the sockets created so far, the pending
    timers and an ordered log of every effect the client has on the outside
    (owner callbacks, console calls, socket calls).  A method of the class
    is a function from the world before the call to the world after it.
    Owner callbacks are recorded as effects; the owner's own calls
    ([connect], [disconnect], [subscribe], [unsubscribe]) are events of
    their own, delivered between handler executions like every other event
    of the single-threaded event loop. *)

From stdpp Require Import base list strings pretty.
From Stdlib Require Import ZArith Lia Ascii.

Local Open Scope string_scope.
Local Open Scope Z_scope.
Local Open Scope list_scope.
Local Set Warnings "-register-all".

(** ** JSON values, [JSON.stringify] and [JSON.parse] *)

Module JSON.

(** Plain data as it travels on the wire.  A number is kept as its JSON
    literal, a string as its bytes, an object as its own properties in
    enumeration order. *)
Inductive JSValue :=
| JNull
| JBool (b : bool)
| JNum (lit : string)
| JStr (s : string)
| JArr (xs : list JSValue)
| JObj (fields : list (string * JSValue)).

Definition JSObject := list (string * JSValue).

Definition ch (n : nat) : ascii := ascii_of_nat n.
Definition ch_quote : ascii := ch 34.
Definition ch_backslash : ascii := ch 92.
Definition dq : string := String ch_quote EmptyString.

(** [quoted s] is [s] between two double quotes, without any escaping. *)
Definition quoted (s : string) : string := dq +:+ s +:+ dq.

(** *** Own properties of an object *)

Fixpoint obj_get (k : string) (o : JSObject) : option JSValue :=
  match o with
  | [] => None
  | (k', v) :: o' => if String.eqb k k' then Some v else obj_get k o'
  end.

Definition obj_has (k : string) (o : JSObject) : bool :=
  match obj_get k o with Some _ => true | None => false end.

Definition is_digit (c : ascii) : bool :=
  (48 <=? nat_of_ascii c)%nat && (nat_of_ascii c <=? 57)%nat.

Fixpoint digits_value (acc : N) (s : string) : option N :=
  match s with
  | EmptyString => Some acc
  | String c s' =>
      if is_digit c
      then digits_value (acc * 10 + (N.of_nat (nat_of_ascii c) - 48))%N s'
      else None
  end.

(** A property name is an array index when it is the canonical decimal
    form of an integer below 2^32 - 1; those names are enumerated first,
    in ascending numeric order. *)
Definition array_index (k : string) : option N :=
  match k with
  | EmptyString => None
  | String c rest =>
      if Ascii.eqb c "0" && negb (String.eqb rest EmptyString) then None
      else if (10 <? String.length k)%nat then None
      else match digits_value 0%N k with
           | Some n => if (n <? 4294967295)%N then Some n else None
           | None => None
           end
  end.

Fixpoint obj_replace (k : string) (v : JSValue) (o : JSObject) : JSObject :=
  match o with
  | [] => []
  | (k', v') :: o' =>
      if String.eqb k k' then (k', v) :: o' else (k', v') :: obj_replace k v o'
  end.

(** Position of a new index property: before the first property that is
    not an index or is a larger index. *)
Fixpoint obj_insert_index (n : N) (k : string) (v : JSValue) (o : JSObject)
  : JSObject :=
  match o with
  | [] => [(k, v)]
  | (k', v') :: o' =>
      match array_index k' with
      | Some n' =>
          if (n' <? n)%N then (k', v') :: obj_insert_index n k v o'
          else (k, v) :: o
      | None => (k, v) :: o
      end
  end.

(** Defining or assigning the own data property [k]: an existing property
    keeps its place, a new one goes where the enumeration order puts it. *)
Definition obj_set (k : string) (v : JSValue) (o : JSObject) : JSObject :=
  if obj_has k o then obj_replace k v o
  else match array_index k with
       | Some n => obj_insert_index n k v o
       | None => o ++ [(k, v)]
       end.

(** The object literal [{ ...src }] continued on [target]: every own
    property of [src], in order, is defined on the object under
    construction. *)
Definition spread (target src : JSObject) : JSObject :=
  fold_left (fun o kv => obj_set (fst kv) (snd kv) o) src target.

(** *** JSON.stringify *)

Definition hex_digit (n : nat) : ascii :=
  if (n <? 10)%nat then ch (48 + n) else ch (87 + n).

Definition escape_char (c : ascii) : string :=
  let n := nat_of_ascii c in
  if Ascii.eqb c ch_quote then String ch_backslash dq
  else if Ascii.eqb c ch_backslash then String ch_backslash (String ch_backslash EmptyString)
  else if (n =? 8)%nat then String ch_backslash "b"
  else if (n =? 12)%nat then String ch_backslash "f"
  else if (n =? 10)%nat then String ch_backslash "n"
  else if (n =? 13)%nat then String ch_backslash "r"
  else if (n =? 9)%nat then String ch_backslash "t"
  else if (n <? 32)%nat
       then String ch_backslash
              ("u00" +:+ String (hex_digit (n / 16)) (String (hex_digit (n mod 16)) EmptyString))
  else String c EmptyString.

Fixpoint escape (s : string) : string :=
  match s with
  | EmptyString => EmptyString
  | String c s' => escape_char c +:+ escape s'
  end.

Definition quote_string (s : string) : string := quoted (escape s).

Fixpoint sep_by (sep : string) (l : list string) : string :=
  match l with
  | [] => EmptyString
  | [x] => x
  | x :: l' => x +:+ sep +:+ sep_by sep l'
  end.

Fixpoint JSON_stringify (v : JSValue) : string :=
  match v with
  | JNull => "null"
  | JBool true => "true"
  | JBool false => "false"
  | JNum lit => lit
  | JStr s => quote_string s
  | JArr xs => "[" +:+ sep_by "," (map JSON_stringify xs) +:+ "]"
  | JObj fs =>
      "{" +:+ sep_by ","
                (map (fun kv => quote_string (fst kv) +:+ ":" +:+ JSON_stringify (snd kv)) fs)
          +:+ "}"
  end.

(** *** JSON.parse *)

Definition is_ws (c : ascii) : bool :=
  let n := nat_of_ascii c in
  (n =? 32)%nat || (n =? 9)%nat || (n =? 10)%nat || (n =? 13)%nat.

Fixpoint skip_ws (s : list ascii) : list ascii :=
  match s with
  | c :: s' => if is_ws c then skip_ws s' else s
  | [] => []
  end.

(** A piece of a token: the characters it takes and what is left. *)
Definition Lexer := list ascii -> option (list ascii * list ascii).

Definition then_ (p q : Lexer) : Lexer := fun s =>
  match p s with
  | Some (a, r) =>
      match q r with
      | Some (b, r') => Some (a ++ b, r')
      | None => None
      end
  | None => None
  end.

Fixpoint take_digits (s : list ascii) : list ascii * list ascii :=
  match s with
  | c :: s' =>
      if is_digit c then let (d, r) := take_digits s' in (c :: d, r) else ([], s)
  | [] => ([], [])
  end.

Definition digits1 : Lexer := fun s =>
  match take_digits s with
  | ([], _) => None
  | (d, r) => Some (d, r)
  end.

(** One character out of [cs], if the text starts with one. *)
Definition optional (cs : list ascii) : Lexer := fun s =>
  match s with
  | c :: r => if existsb (Ascii.eqb c) cs then Some ([c], r) else Some ([], s)
  | [] => Some ([], [])
  end.

(** The integer part: digits without a leading zero, or the digit 0. *)
Definition int_part : Lexer := fun s =>
  match take_digits s with
  | ([], _) => None
  | (d :: ds, r) =>
      if Ascii.eqb d "0" && negb (bool_decide (ds = [])) then None
      else Some (d :: ds, r)
  end.

Definition frac_part : Lexer := fun s =>
  match s with
  | c :: r =>
      if Ascii.eqb c "." then then_ (fun _ => Some ([c], r)) digits1 s
      else Some ([], s)
  | [] => Some ([], [])
  end.

Definition exp_part : Lexer := fun s =>
  match s with
  | c :: r =>
      if Ascii.eqb c "e" || Ascii.eqb c "E"
      then then_ (fun _ => Some ([c], r))
             (then_ (optional ["+"%char; "-"%char]) digits1) s
      else Some ([], s)
  | [] => Some ([], [])
  end.

(** A number literal: an optional minus, the integer part, an optional
    fraction, an optional exponent. *)
Definition parse_number : Lexer :=
  then_ (optional ["-"%char]) (then_ int_part (then_ frac_part exp_part)).

Definition hex_value (c : ascii) : option nat :=
  let n := nat_of_ascii c in
  if (48 <=? n)%nat && (n <=? 57)%nat then Some (n - 48)%nat
  else if (65 <=? n)%nat && (n <=? 70)%nat then Some (n - 55)%nat
  else if (97 <=? n)%nat && (n <=? 102)%nat then Some (n - 87)%nat
  else None.

(** A code unit written as a \u escape, as the bytes that stand for it. *)
Definition code_unit_bytes (u : nat) : list ascii :=
  if (u <? 128)%nat then [ch u]
  else if (u <? 2048)%nat then [ch (192 + u / 64); ch (128 + u mod 64)]
  else [ch (224 + u / 4096); ch (128 + (u / 64) mod 64); ch (128 + u mod 64)].

(** The character a one-letter escape stands for. *)
Definition unescape (e : ascii) : option ascii :=
  if Ascii.eqb e ch_quote then Some ch_quote
  else if Ascii.eqb e ch_backslash then Some ch_backslash
  else if Ascii.eqb e "/" then Some "/"%char
  else if Ascii.eqb e "b" then Some (ch 8)
  else if Ascii.eqb e "f" then Some (ch 12)
  else if Ascii.eqb e "n" then Some (ch 10)
  else if Ascii.eqb e "r" then Some (ch 13)
  else if Ascii.eqb e "t" then Some (ch 9)
  else None.

(** The characters of a string literal after its opening quote, up to and
    without the closing one. *)
Fixpoint parse_chars (s : list ascii) (acc : list ascii)
  : option (list ascii * list ascii) :=
  match s with
  | [] => None
  | c :: r =>
      if Ascii.eqb c ch_quote then Some (rev acc, r)
      else if Ascii.eqb c ch_backslash then
        match r with
        | e :: r' =>
            if Ascii.eqb e "u" then
              match r' with
              | h1 :: h2 :: h3 :: h4 :: r'' =>
                  match hex_value h1, hex_value h2, hex_value h3, hex_value h4 with
                  | Some a, Some b, Some c', Some d =>
                      parse_chars r''
                        (rev (code_unit_bytes (a * 4096 + b * 256 + c' * 16 + d)) ++ acc)
                  | _, _, _, _ => None
                  end
              | _ => None
              end
            else
              match unescape e with
              | Some x => parse_chars r' (x :: acc)
              | None => None
              end
        | [] => None
        end
      else if (nat_of_ascii c <? 32)%nat then None
      else parse_chars r (c :: acc)
  end.

Fixpoint strip_prefix (p s : list ascii) : option (list ascii) :=
  match p, s with
  | [], _ => Some s
  | a :: p', b :: s' => if Ascii.eqb a b then strip_prefix p' s' else None
  | _ :: _, [] => None
  end.

Definition parse_literal (word : string) (v : JSValue) (s : list ascii)
  : option (JSValue * list ascii) :=
  match strip_prefix (String.list_ascii_of_string word) s with
  | Some r => Some (v, r)
  | None => None
  end.

(** Does the text, after white space, start with [c]?  Then what follows
    [c]. *)
Definition after (c : ascii) (s : list ascii) : option (list ascii) :=
  match skip_ws s with
  | x :: r => if Ascii.eqb x c then Some r else None
  | [] => None
  end.

(** Recursive descent over value, array elements and object members.  The
    first argument bounds the nesting of calls; [JSON_parse] starts with
    more than any text of that length can use. *)
Fixpoint parse_value (n : nat) (s : list ascii) {struct n}
  : option (JSValue * list ascii) :=
  match n with
  | O => None
  | S n' =>
      match skip_ws s with
      | [] => None
      | c :: r =>
          if Ascii.eqb c ch_quote then
            match parse_chars r [] with
            | Some (cs, r') => Some (JStr (String.string_of_list_ascii cs), r')
            | None => None
            end
          else if Ascii.eqb c "[" then
            match after "]" r with
            | Some r' => Some (JArr [], r')
            | None => parse_elements n' r []
            end
          else if Ascii.eqb c "{" then
            match after "}" r with
            | Some r' => Some (JObj [], r')
            | None => parse_members n' r []
            end
          else if Ascii.eqb c "t" then parse_literal "true" (JBool true) (c :: r)
          else if Ascii.eqb c "f" then parse_literal "false" (JBool false) (c :: r)
          else if Ascii.eqb c "n" then parse_literal "null" JNull (c :: r)
          else
            match parse_number (c :: r) with
            | Some (lit, r') => Some (JNum (String.string_of_list_ascii lit), r')
            | None => None
            end
      end
  end
with parse_elements (n : nat) (s : list ascii) (acc : list JSValue) {struct n}
  : option (JSValue * list ascii) :=
  match n with
  | O => None
  | S n' =>
      match parse_value n' s with
      | Some (v, r) =>
          match after "," r with
          | Some r' => parse_elements n' r' (v :: acc)
          | None =>
              match after "]" r with
              | Some r' => Some (JArr (rev (v :: acc)), r')
              | None => None
              end
          end
      | None => None
      end
  end
with parse_members (n : nat) (s : list ascii) (acc : JSObject) {struct n}
  : option (JSValue * list ascii) :=
  match n with
  | O => None
  | S n' =>
      match after ch_quote s with
      | Some r =>
          match parse_chars r [] with
          | Some (k, r1) =>
              match after ":" r1 with
              | Some r2 =>
                  match parse_value n' r2 with
                  | Some (v, r3) =>
                      let acc' := obj_set (String.string_of_list_ascii k) v acc in
                      match after "," r3 with
                      | Some r4 => parse_members n' r4 acc'
                      | None =>
                          match after "}" r3 with
                          | Some r4 => Some (JObj acc', r4)
                          | None => None
                          end
                      end
                  | None => None
                  end
              | None => None
              end
          | None => None
          end
      | None => None
      end
  end.

(** [JSON.parse text]: [None] stands for the SyntaxError it throws. *)
Definition JSON_parse (text : string) : option JSValue :=
  let s := String.list_ascii_of_string text in
  match parse_value (2 * List.length s + 2) s with
  | Some (v, r) => match skip_ws r with [] => Some v | _ => None end
  | None => None
  end.

End JSON.

(** ** The JavaScript runtime around a client instance *)

Module Js.
Import JSON.

(** [WebSocket.readyState], values 0 to 3. *)
Inductive ReadyState := WS_CONNECTING | WS_OPEN | WS_CLOSING | WS_CLOSED.

(** [ConnectionStatus] of ./model. *)
Inductive ConnectionStatus := CONNECTING | CONNECTED | DISCONNECTED.

#[global] Instance ReadyState_eq_dec : EqDecision ReadyState.
Proof. solve_decision. Defined.
#[global] Instance ConnectionStatus_eq_dec : EqDecision ConnectionStatus.
Proof. solve_decision. Defined.

(** A [number] as far as the client looks at it: an integral value, the
    negative zero, NaN or an infinity. *)
Inductive Number := Finite (z : Z) | NegZero | NaN | Infinite (negative : bool).

(** ToBoolean on a number: 0, -0 and NaN are falsy. *)
Definition truthy (n : Number) : bool :=
  match n with
  | Finite z => negb (z =? 0)
  | NegZero => false
  | NaN => false
  | Infinite _ => true
  end.

(** ToBoolean on a string: only the empty string is falsy. *)
Definition truthy_string (s : string) : bool :=
  match s with EmptyString => false | String _ _ => true end.

(** The delay the timer functions use: a value outside 1 .. 2^31 - 1 is
    replaced by 1. *)
Definition timer_delay (n : Number) : Z :=
  match n with
  | Finite z => if (1 <=? z) && (z <=? 2147483647) then z else 1
  | _ => 1
  end.

(** A socket object: the four handler slots hold either a handler of the
    client instance or null. *)
Record Socket := {
  url : string;
  readyState : ReadyState;
  onopen : bool;
  onmessage : bool;
  onclose : bool;
  onerror : bool
}.

(** What a pending timer runs when it fires. *)
Inductive Callback := PingTick | PongExpired | Reconnect.

#[global] Instance Callback_eq_dec : EqDecision Callback.
Proof. solve_decision. Defined.

Record Timer := {
  tid : nat;
  callback : Callback;
  due : Z;
  every : option Z        (* the period of a setInterval timer *)
}.

Inductive Level := Log | Warn | Error.

(** Everything the client does to the outside, in order.  A console call
    is kept with its level and its leading text. *)
Inductive Effect :=
| StatusChange (s : ConnectionStatus)     (* onStatusChange(s) *)
| OnConnect                               (* onConnect(client) *)
| OnMessage (m : JSValue)                 (* onMessage(client, m) *)
| Console (l : Level) (text : string)
| NewSocket (sid : nat) (host : string)   (* new WebSocket(host) returned *)
| Send (sid : nat) (frame : string)       (* socket.send(frame) *)
| Close (sid : nat)                       (* socket.close() *)
| Terminate (sid : nat)                   (* socket.terminate() *)
| Throw (what : string).                  (* an exception reaches the caller *)

Record Runtime := {
  now : Z;
  sockets : list Socket;        (* socket [sid] is the one created [sid]-th *)
  timers : list Timer;          (* the pending timers *)
  next_timer : nat;
  effects : list Effect;        (* oldest first *)
  url_ok : string -> bool;      (* does [new WebSocket(url)] return? *)
  has_terminate : bool          (* do sockets have a [terminate] method? *)
}.

Definition set_now (t : Z) (rt : Runtime) : Runtime :=
  {| now := t; sockets := sockets rt; timers := timers rt;
     next_timer := next_timer rt; effects := effects rt;
     url_ok := url_ok rt; has_terminate := has_terminate rt |}.

Definition set_sockets (ss : list Socket) (rt : Runtime) : Runtime :=
  {| now := now rt; sockets := ss; timers := timers rt;
     next_timer := next_timer rt; effects := effects rt;
     url_ok := url_ok rt; has_terminate := has_terminate rt |}.

Definition set_timers (ts : list Timer) (n : nat) (rt : Runtime) : Runtime :=
  {| now := now rt; sockets := sockets rt; timers := ts;
     next_timer := n; effects := effects rt;
     url_ok := url_ok rt; has_terminate := has_terminate rt |}.

Definition emit (e : Effect) (rt : Runtime) : Runtime :=
  {| now := now rt; sockets := sockets rt; timers := timers rt;
     next_timer := next_timer rt; effects := effects rt ++ [e];
     url_ok := url_ok rt; has_terminate := has_terminate rt |}.

(** The runtime a process starts with: nothing created, nothing pending. *)
Definition boot (ok : string -> bool) (term : bool) : Runtime :=
  {| now := 0; sockets := []; timers := []; next_timer := 1; effects := [];
     url_ok := ok; has_terminate := term |}.

(** *** Sockets *)

Definition ready_state (sid : nat) (rt : Runtime) : option ReadyState :=
  readyState <$> sockets rt !! sid.

(** [ws.readyState === WebSocket.OPEN] on an existing socket. *)
Definition is_open (sid : nat) (rt : Runtime) : bool :=
  bool_decide (ready_state sid rt = Some WS_OPEN).

Definition with_ready (r : ReadyState) (s : Socket) : Socket :=
  {| url := url s; readyState := r; onopen := onopen s;
     onmessage := onmessage s; onclose := onclose s; onerror := onerror s |}.

(** Assignment of all four handler slots: the client always sets them
    together, to its own handlers or to null. *)
Definition with_handlers (b : bool) (s : Socket) : Socket :=
  {| url := url s; readyState := readyState s; onopen := b;
     onmessage := b; onclose := b; onerror := b |}.

Definition update_socket (sid : nat) (f : Socket -> Socket) (rt : Runtime)
  : Runtime :=
  set_sockets (alter f sid (sockets rt)) rt.

(** [new WebSocket(host)] when it returns: a fresh socket, connecting, no
    handler set. *)
Definition new_socket (h : string) (rt : Runtime) : nat * Runtime :=
  let sid := length (sockets rt) in
  (sid,
   emit (NewSocket sid h)
     (set_sockets
        (sockets rt ++
           [{| url := h; readyState := WS_CONNECTING; onopen := false;
               onmessage := false; onclose := false; onerror := false |}])
        rt)).

(** After [close()] or [terminate()] a socket that was not closed is
    closing; its close event comes later, from the event loop. *)
Definition closing (s : Socket) : Socket :=
  match readyState s with
  | WS_CLOSED => s
  | _ => with_ready WS_CLOSING s
  end.

Definition sock_close (sid : nat) (rt : Runtime) : Runtime :=
  emit (Close sid) (update_socket sid closing rt).

Definition sock_terminate (sid : nat) (rt : Runtime) : Runtime :=
  emit (Terminate sid) (update_socket sid closing rt).

Definition sock_send (sid : nat) (frame : string) (rt : Runtime) : Runtime :=
  emit (Send sid frame) rt.

(** *** Timers *)

Definition setTimeout (cb : Callback) (delay : Z) (rt : Runtime)
  : nat * Runtime :=
  let t := next_timer rt in
  (t, set_timers
        (timers rt ++ [{| tid := t; callback := cb; due := now rt + delay;
                          every := None |}])
        (S t) rt).

Definition setInterval (cb : Callback) (delay : Z) (rt : Runtime)
  : nat * Runtime :=
  let t := next_timer rt in
  (t, set_timers
        (timers rt ++ [{| tid := t; callback := cb; due := now rt + delay;
                          every := Some delay |}])
        (S t) rt).

(** [clearTimeout] and [clearInterval]: the timer of that handle, if it is
    still pending, is dropped. *)
Definition clearTimeout (t : nat) (rt : Runtime) : Runtime :=
  set_timers (filter (fun x => tid x ≠ t) (timers rt)) (next_timer rt) rt.

Definition find_timer (t : nat) (rt : Runtime) : option Timer :=
  List.find (fun x => Nat.eqb (tid x) t) (timers rt).

Definition rearm (x : Timer) : list Timer :=
  match every x with
  | Some p => [{| tid := tid x; callback := callback x; due := due x + p;
                  every := Some p |}]
  | None => []
  end.

(** The event loop runs timer [t]: only a pending timer that is due runs;
    a timeout is then gone, an interval is armed again. *)
Definition fire (t : nat) (rt : Runtime) : option (Callback * Runtime) :=
  match find_timer t rt with
  | Some x =>
      if due x <=? now rt then
        Some (callback x,
              set_timers (filter (fun y => tid y ≠ t) (timers rt) ++ rearm x)
                         (next_timer rt) rt)
      else None
  | None => None
  end.

(** *** Events of the event loop *)

Inductive Data := Text (s : string) | Binary (bytes : list Byte.byte).

Inductive Operation := OpSubscribe | OpUnsubscribe.

Inductive Event :=
(* calls of the owner *)
| CallConnect
| CallDisconnect
| CallSubscribe (msg : JSObject)
| CallUnsubscribe (msg : JSObject)
(* events of socket [sid] *)
| SockOpen (sid : nat)
| SockMessage (sid : nat) (data : Data)
| SockClose (sid : nat) (code : Z) (reason : string)
| SockError (sid : nat) (message : string)
(* the completion callback of a [send], with or without an error *)
| SendDone (op : Operation) (err : bool)
(* timer [t] runs; [dt] milliseconds pass *)
| Fire (t : nat)
| Wait (dt : Z).

(** A socket emits [open] once, while connecting; [message] while open or
    closing; [close] once; [error] before it is closed.  [None] when the
    socket cannot emit the event; otherwise the socket after the event and
    whether the handler slot for it is set. *)
Definition sock_open (sid : nat) (rt : Runtime) : option (Runtime * bool) :=
  match sockets rt !! sid with
  | Some s =>
      match readyState s with
      | WS_CONNECTING => Some (update_socket sid (with_ready WS_OPEN) rt, onopen s)
      | _ => None
      end
  | None => None
  end.

Definition sock_message (sid : nat) (rt : Runtime) : option (Runtime * bool) :=
  match sockets rt !! sid with
  | Some s =>
      match readyState s with
      | WS_OPEN | WS_CLOSING => Some (rt, onmessage s)
      | _ => None
      end
  | None => None
  end.

Definition sock_closed (sid : nat) (rt : Runtime) : option (Runtime * bool) :=
  match sockets rt !! sid with
  | Some s =>
      match readyState s with
      | WS_CLOSED => None
      | _ => Some (update_socket sid (with_ready WS_CLOSED) rt, onclose s)
      end
  | None => None
  end.

Definition sock_error (sid : nat) (rt : Runtime) : option (Runtime * bool) :=
  match sockets rt !! sid with
  | Some s =>
      match readyState s with
      | WS_CLOSED => None
      | _ => Some (rt, onerror s)
      end
  | None => None
  end.

Definition advance (dt : Z) (rt : Runtime) : Runtime :=
  if 0 <=? dt then set_now (now rt + dt) rt else rt.

(** What the owner has seen through its status callback. *)
Definition statuses (es : list Effect) : list ConnectionStatus :=
  omap (fun e => match e with StatusChange s => Some s | _ => None end) es.

(** The frames that went out. *)
Definition frames (es : list Effect) : list string :=
  omap (fun e => match e with Send _ f => Some f | _ => None end) es.

(** The messages handed to the owner. *)
Definition messages (es : list Effect) : list JSValue :=
  omap (fun e => match e with OnMessage m => Some m | _ => None end) es.

(** The pending timers that would run [cb]. *)
Definition pending (cb : Callback) (rt : Runtime) : list Timer :=
  filter (fun x => callback x = cb) (timers rt).

End Js.

(** ** unnamed/part_001: the client with a liveness monitor *)

Module Part001.
Import JSON Js.

Definition DEFAULT_HOST : string := "wss://ws-live-data.polymarket.com".
Definition DEFAULT_PING_INTERVAL : Number := Finite 5000.
Definition RECONNECT_DELAY : Z := 3000.
(** The literal delay of the pong timeout in [startPinging]. *)
Definition PONG_TIMEOUT : Z := 10000.

(** [RealTimeDataClientArgs]; a callback is either given or not. *)
Record Args := {
  arg_onConnect : bool;
  arg_onMessage : bool;
  arg_onStatusChange : bool;
  arg_host : option string;
  arg_pingInterval : option Number;
  arg_autoReconnect : option bool
}.

(** The private fields of the class. *)
Record Client := {
  host : string;
  pingInterval : Number;
  autoReconnect : bool;
  onConnect : bool;
  onCustomMessage : bool;
  onStatusChange : bool;
  ws : option nat;
  pingTimer : option nat;
  pongTimeout : option nat;
  reconnectTimer : option nat
}.

Record World := { this : Client; rt : Runtime }.

(** The default value [{}] of the constructor's parameter. *)
Definition no_args : Args :=
  {| arg_onConnect := false; arg_onMessage := false;
     arg_onStatusChange := false; arg_host := None;
     arg_pingInterval := None; arg_autoReconnect := None |}.

Definition constructor (given : option Args) : Client :=
  let args := default no_args given in
  {| host := match arg_host args with
             | Some h => if truthy_string h then h else DEFAULT_HOST
             | None => DEFAULT_HOST
             end;
     pingInterval := match arg_pingInterval args with
                     | Some n => if truthy n then n else DEFAULT_PING_INTERVAL
                     | None => DEFAULT_PING_INTERVAL
                     end;
     autoReconnect := match arg_autoReconnect args with
                      | Some b => b
                      | None => true
                      end;
     onCustomMessage := arg_onMessage args;
     onConnect := arg_onConnect args;
     onStatusChange := arg_onStatusChange args;
     ws := None; pingTimer := None; pongTimeout := None;
     reconnectTimer := None |}.

Definition set_autoReconnect (b : bool) (c : Client) : Client :=
  {| host := host c; pingInterval := pingInterval c; autoReconnect := b;
     onConnect := onConnect c; onCustomMessage := onCustomMessage c;
     onStatusChange := onStatusChange c; ws := ws c;
     pingTimer := pingTimer c; pongTimeout := pongTimeout c;
     reconnectTimer := reconnectTimer c |}.

Definition set_ws (s : option nat) (c : Client) : Client :=
  {| host := host c; pingInterval := pingInterval c;
     autoReconnect := autoReconnect c;
     onConnect := onConnect c; onCustomMessage := onCustomMessage c;
     onStatusChange := onStatusChange c; ws := s;
     pingTimer := pingTimer c; pongTimeout := pongTimeout c;
     reconnectTimer := reconnectTimer c |}.

Definition set_pingTimer (t : option nat) (c : Client) : Client :=
  {| host := host c; pingInterval := pingInterval c;
     autoReconnect := autoReconnect c;
     onConnect := onConnect c; onCustomMessage := onCustomMessage c;
     onStatusChange := onStatusChange c; ws := ws c;
     pingTimer := t; pongTimeout := pongTimeout c;
     reconnectTimer := reconnectTimer c |}.

Definition set_pongTimeout (t : option nat) (c : Client) : Client :=
  {| host := host c; pingInterval := pingInterval c;
     autoReconnect := autoReconnect c;
     onConnect := onConnect c; onCustomMessage := onCustomMessage c;
     onStatusChange := onStatusChange c; ws := ws c;
     pingTimer := pingTimer c; pongTimeout := t;
     reconnectTimer := reconnectTimer c |}.

Definition set_reconnectTimer (t : option nat) (c : Client) : Client :=
  {| host := host c; pingInterval := pingInterval c;
     autoReconnect := autoReconnect c;
     onConnect := onConnect c; onCustomMessage := onCustomMessage c;
     onStatusChange := onStatusChange c; ws := ws c;
     pingTimer := pingTimer c; pongTimeout := pongTimeout c;
     reconnectTimer := t |}.

(** The client field update and the runtime update of one statement. *)
Definition upd (f : Client -> Client) (g : Runtime -> Runtime) (w : World)
  : World :=
  {| this := f (this w); rt := g (rt w) |}.

Definition on_rt (g : Runtime -> Runtime) (w : World) : World := upd id g w.
Definition on_this (f : Client -> Client) (w : World) : World := upd f id w.

Definition console (l : Level) (text : string) (w : World) : World :=
  on_rt (emit (Console l text)) w.

(** [this.onStatusChange?.(status)] *)
Definition notifyStatusChange (status : ConnectionStatus) (w : World) : World :=
  if onStatusChange (this w) then on_rt (emit (StatusChange status)) w else w.

Definition clearPongTimeout (w : World) : World :=
  match pongTimeout (this w) with
  | Some t => upd (set_pongTimeout None) (clearTimeout t) w
  | None => w
  end.

Definition stopPinging (w : World) : World :=
  clearPongTimeout
    match pingTimer (this w) with
    | Some t => upd (set_pingTimer None) (clearTimeout t) w
    | None => w
    end.

Definition startPinging (w : World) : World :=
  let w := stopPinging w in
  let (t, r) := setInterval PingTick (timer_delay (pingInterval (this w))) (rt w) in
  {| this := set_pingTimer (Some t) (this w); rt := r |}.

(** [this.ws?.readyState === WebSocket.OPEN] *)
Definition ws_open (w : World) : bool :=
  match ws (this w) with
  | Some sid => is_open sid (rt w)
  | None => false
  end.

(** The body of the interval callback of [startPinging]. *)
Definition pingTick (w : World) : World :=
  match ws (this w) with
  | Some sid =>
      if is_open sid (rt w) then
        let w := on_rt (sock_send sid "ping") w in
        let (t, r) := setTimeout PongExpired PONG_TIMEOUT (rt w) in
        {| this := set_pongTimeout (Some t) (this w); rt := r |}
      else w
  | None => w
  end.

(** The body of the timeout callback armed by a ping:
    [(this.ws as any)?.terminate?.() || this.ws?.close()].  [terminate]
    returns undefined, so [close] is called after it as well. *)
Definition pongExpired (w : World) : World :=
  let w := console Warn "WebSocket Pong timeout. Terminating connection..." w in
  match ws (this w) with
  | Some sid =>
      let w := if has_terminate (rt w) then on_rt (sock_terminate sid) w else w in
      on_rt (sock_close sid) w
  | None => w
  end.

Definition scheduleReconnect (w : World) : World :=
  match reconnectTimer (this w) with
  | Some _ => w
  | None =>
      let (t, r) := setTimeout Reconnect RECONNECT_DELAY (rt w) in
      {| this := set_reconnectTimer (Some t) (this w); rt := r |}
  end.

Definition clearTimers (w : World) : World :=
  match reconnectTimer (this w) with
  | Some t => upd (set_reconnectTimer None) (clearTimeout t) w
  | None => w
  end.

Definition cleanupWS (w : World) : World :=
  match ws (this w) with
  | Some sid =>
      let w := on_rt (update_socket sid (with_handlers false)) w in
      let w :=
        match ready_state sid (rt w) with
        | Some WS_CLOSED => w
        | _ => on_rt (sock_close sid) w
        end in
      on_this (set_ws None) w
  | None => w
  end.

Definition connect (w : World) : World :=
  let w := clearTimers w in
  let w := cleanupWS w in
  let w := notifyStatusChange CONNECTING w in
  if url_ok (rt w) (host (this w)) then
    let (sid, r) := new_socket (host (this w)) (rt w) in
    let w := {| this := set_ws (Some sid) (this w); rt := r |} in
    let w := on_rt (update_socket sid (with_handlers true)) w in
    console Log "tmzhix" w
  else
    let w := console Error "Connection attempt failed:" w in
    scheduleReconnect w.

Definition handleOpen (w : World) : World :=
  let w := console Log "Connected to Polymarket WS" w in
  let w := notifyStatusChange CONNECTED w in
  let w := startPinging w in
  let w := console Log "1" w in
  if onConnect (this w) then on_rt (emit OnConnect) w else w.

Definition handleMessage (data : Data) (w : World) : World :=
  match data with
  | Text s =>
      if (0 <? String.length s)%nat then
        if String.eqb s "pong" then clearPongTimeout w
        else
          match JSON_parse s with
          | Some message =>
              if onCustomMessage (this w)
              then on_rt (emit (OnMessage message)) w
              else w
          | None => console Error "Failed to parse message:" w
          end
      else w
  | Binary _ => w
  end.

Definition handleError (w : World) : World :=
  console Error "WebSocket Error:" w.

Definition handleClose (w : World) : World :=
  let w := console Log "close" w in
  let w := notifyStatusChange DISCONNECTED w in
  let w := stopPinging w in
  if autoReconnect (this w) then
    let w := console Warn "Connection closed" w in
    scheduleReconnect w
  else w.

(** The body of the timeout callback of [scheduleReconnect]. *)
Definition reconnectFired (w : World) : World :=
  connect (on_this (set_reconnectTimer None) w).

Definition sendSafe (payload : JSValue) (w : World) : World :=
  if ws_open w then
    match ws (this w) with
    | Some sid => on_rt (sock_send sid (JSON_stringify payload)) w
    | None => w
    end
  else console Error "Cannot send message: WebSocket not open." w.

Definition subscribe (msg : JSObject) (w : World) : World :=
  sendSafe (JObj (spread [("action", JStr "subscribe")] msg)) w.

Definition unsubscribe (msg : JSObject) (w : World) : World :=
  sendSafe (JObj (spread [("action", JStr "unsubscribe")] msg)) w.

Definition disconnect (w : World) : World :=
  let w := on_this (set_autoReconnect false) w in
  let w := clearTimers w in
  let w := stopPinging w in
  let w := cleanupWS w in
  notifyStatusChange DISCONNECTED w.

Definition run_callback (cb : Callback) (w : World) : World :=
  match cb with
  | PingTick => pingTick w
  | PongExpired => pongExpired w
  | Reconnect => reconnectFired w
  end.

(** A socket event reaches the handler the slot holds, if any. *)
Definition dispatch (o : option (Runtime * bool)) (handler : World -> World)
  (w : World) : World :=
  match o with
  | Some (r, true) => handler {| this := this w; rt := r |}
  | Some (r, false) => {| this := this w; rt := r |}
  | None => w
  end.

(** One turn of the event loop. *)
Definition step (w : World) (e : Event) : World :=
  match e with
  | CallConnect => connect w
  | CallDisconnect => disconnect w
  | CallSubscribe msg => subscribe msg w
  | CallUnsubscribe msg => unsubscribe msg w
  | SockOpen sid => dispatch (sock_open sid (rt w)) handleOpen w
  | SockMessage sid data => dispatch (sock_message sid (rt w)) (handleMessage data) w
  | SockClose sid _ _ => dispatch (sock_closed sid (rt w)) handleClose w
  | SockError sid _ => dispatch (sock_error sid (rt w)) handleError w
  | SendDone _ _ => w
  | Fire t =>
      match fire t (rt w) with
      | Some (cb, r) => run_callback cb {| this := this w; rt := r |}
      | None => w
      end
  | Wait dt => on_rt (advance dt) w
  end.

Definition run (w : World) (es : list Event) : World := fold_left step es w.

(** A client right after [new RealTimeDataClient(args)]. *)
Definition init (args : option Args) (ok : string -> bool) (term : bool)
  : World :=
  {| this := constructor args; rt := boot ok term |}.

End Part001.

(** ** src/clients/ws-client.ts: the client without a liveness monitor *)

Module WsClient.
Import JSON Js.

Definition DEFAULT_HOST : string := "wss://ws-live-data.polymarket.com".
Definition RECONNECT_DELAY : Z := 3000.

Record Args := {
  arg_onConnect : bool;
  arg_onMessage : bool;
  arg_onStatusChange : bool;
  arg_host : option string;
  arg_autoReconnect : option bool
}.

Record Client := {
  host : string;
  autoReconnect : bool;
  onConnect : bool;
  onCustomMessage : bool;
  onStatusChange : bool;
  ws : option nat;
  reconnecting : bool;
  manuallyClosed : bool
}.

Record World := { this : Client; rt : Runtime }.

(** [args?.host ?? DEFAULT_HOST] and [args?.autoReconnect ?? true]: only a
    missing value is replaced. *)
Definition constructor (given : option Args) : Client :=
  {| host := default DEFAULT_HOST (given ≫= arg_host);
     autoReconnect := default true (given ≫= arg_autoReconnect);
     onCustomMessage := default false (arg_onMessage <$> given);
     onConnect := default false (arg_onConnect <$> given);
     onStatusChange := default false (arg_onStatusChange <$> given);
     ws := None; reconnecting := false; manuallyClosed := false |}.

Definition set_autoReconnect (b : bool) (c : Client) : Client :=
  {| host := host c; autoReconnect := b; onConnect := onConnect c;
     onCustomMessage := onCustomMessage c;
     onStatusChange := onStatusChange c; ws := ws c;
     reconnecting := reconnecting c; manuallyClosed := manuallyClosed c |}.

Definition set_ws (s : option nat) (c : Client) : Client :=
  {| host := host c; autoReconnect := autoReconnect c;
     onConnect := onConnect c; onCustomMessage := onCustomMessage c;
     onStatusChange := onStatusChange c; ws := s;
     reconnecting := reconnecting c; manuallyClosed := manuallyClosed c |}.

Definition set_reconnecting (b : bool) (c : Client) : Client :=
  {| host := host c; autoReconnect := autoReconnect c;
     onConnect := onConnect c; onCustomMessage := onCustomMessage c;
     onStatusChange := onStatusChange c; ws := ws c;
     reconnecting := b; manuallyClosed := manuallyClosed c |}.

Definition set_manuallyClosed (b : bool) (c : Client) : Client :=
  {| host := host c; autoReconnect := autoReconnect c;
     onConnect := onConnect c; onCustomMessage := onCustomMessage c;
     onStatusChange := onStatusChange c; ws := ws c;
     reconnecting := reconnecting c; manuallyClosed := b |}.

Definition upd (f : Client -> Client) (g : Runtime -> Runtime) (w : World)
  : World :=
  {| this := f (this w); rt := g (rt w) |}.

Definition on_rt (g : Runtime -> Runtime) (w : World) : World := upd id g w.
Definition on_this (f : Client -> Client) (w : World) : World := upd f id w.

Definition console (l : Level) (text : string) (w : World) : World :=
  on_rt (emit (Console l text)) w.

Definition notifyStatusChange (status : ConnectionStatus) (w : World) : World :=
  if onStatusChange (this w) then on_rt (emit (StatusChange status)) w else w.

(** [this.ws && this.ws.readyState === WebSocket.OPEN] *)
Definition ws_open (w : World) : bool :=
  match ws (this w) with
  | Some sid => is_open sid (rt w)
  | None => false
  end.

(** [connect]: when the constructor of the socket throws, the exception
    leaves the method. *)
Definition connect (w : World) : World :=
  let w := on_this (set_manuallyClosed false) w in
  if ws_open w then w
  else
    let w := notifyStatusChange CONNECTING w in
    if url_ok (rt w) (host (this w)) then
      let (sid, r) := new_socket (host (this w)) (rt w) in
      let w := {| this := set_ws (Some sid) (this w); rt := r |} in
      on_rt (update_socket sid (with_handlers true)) w
    else on_rt (emit (Throw "new WebSocket")) w.

Definition onOpen (w : World) : World :=
  let w := on_this (set_reconnecting false) w in
  let w := notifyStatusChange CONNECTED w in
  if onConnect (this w) then on_rt (emit OnConnect) w else w.

(** [hay.includes(needle)] *)
Fixpoint includes (needle hay : string) : bool :=
  String.prefix needle hay
  || match hay with
     | EmptyString => false
     | String _ hay' => includes needle hay'
     end.

Definition onMessage (data : Data) (w : World) : World :=
  match data with
  | Text s =>
      if negb (truthy_string s) then w
      else if onCustomMessage (this w) && includes "payload" s then
        match JSON_parse s with
        | Some msg => on_rt (emit (OnMessage msg)) w
        | None => console Error "message parse error" w
        end
      else w
  | Binary _ => w
  end.

Definition onError (w : World) : World :=
  let w := on_this (set_reconnecting false) w in
  console Error "ws error" w.

Definition scheduleReconnect (w : World) : World :=
  if reconnecting (this w) then w
  else
    let w := on_this (set_reconnecting true) w in
    on_rt (fun r => snd (setTimeout Reconnect RECONNECT_DELAY r)) w.

Definition onClose (w : World) : World :=
  let w := console Warn "ws closed" w in
  let w := notifyStatusChange DISCONNECTED w in
  let w := on_this (set_reconnecting false) w in
  if negb (autoReconnect (this w)) || manuallyClosed (this w) then w
  else scheduleReconnect w.

(** The body of the timeout callback of [scheduleReconnect]. *)
Definition reconnectFired (w : World) : World :=
  if manuallyClosed (this w) then w else connect w.

Definition disconnect (w : World) : World :=
  let w := on_this (set_autoReconnect false) w in
  let w := on_this (set_manuallyClosed true) w in
  if ws_open w then
    match ws (this w) with
    | Some sid => on_rt (sock_close sid) w
    | None => w
    end
  else w.

Definition subscribe (msg : JSObject) (w : World) : World :=
  if negb (ws_open w) then console Warn "subscribe failed: socket not open" w
  else
    match ws (this w) with
    | Some sid =>
        on_rt (sock_send sid
                 (JSON_stringify (JObj (spread [("action", JStr "subscribe")] msg)))) w
    | None => w
    end.

Definition unsubscribe (msg : JSObject) (w : World) : World :=
  if negb (ws_open w) then console Warn "unsubscribe failed: socket not open" w
  else
    match ws (this w) with
    | Some sid =>
        on_rt (sock_send sid
                 (JSON_stringify (JObj (spread [("action", JStr "unsubscribe")] msg)))) w
    | None => w
    end.

(** The callback handed to [send]: on an error it logs and closes
    whatever socket the instance holds by then. *)
Definition sendDone (op : Operation) (err : bool) (w : World) : World :=
  if err then
    let w := console Error
               match op with
               | OpSubscribe => "subscribe error"
               | OpUnsubscribe => "unsubscribe error"
               end w in
    match ws (this w) with
    | Some sid => on_rt (sock_close sid) w
    | None => w
    end
  else w.

Definition run_callback (cb : Callback) (w : World) : World :=
  match cb with
  | Reconnect => reconnectFired w
  | PingTick | PongExpired => w      (* this draft arms no such timer *)
  end.

Definition dispatch (o : option (Runtime * bool)) (handler : World -> World)
  (w : World) : World :=
  match o with
  | Some (r, true) => handler {| this := this w; rt := r |}
  | Some (r, false) => {| this := this w; rt := r |}
  | None => w
  end.

Definition step (w : World) (e : Event) : World :=
  match e with
  | CallConnect => connect w
  | CallDisconnect => disconnect w
  | CallSubscribe msg => subscribe msg w
  | CallUnsubscribe msg => unsubscribe msg w
  | SockOpen sid => dispatch (sock_open sid (rt w)) onOpen w
  | SockMessage sid data => dispatch (sock_message sid (rt w)) (onMessage data) w
  | SockClose sid _ _ => dispatch (sock_closed sid (rt w)) onClose w
  | SockError sid _ => dispatch (sock_error sid (rt w)) onError w
  | SendDone op err => sendDone op err w
  | Fire t =>
      match fire t (rt w) with
      | Some (cb, r) => run_callback cb {| this := this w; rt := r |}
      | None => w
      end
  | Wait dt => on_rt (advance dt) w
  end.

Definition run (w : World) (es : list Event) : World := fold_left step es w.

Definition init (args : option Args) (ok : string -> bool) (term : bool)
  : World :=
  {| this := constructor args; rt := boot ok term |}.

End WsClient.

(** ** unnamed/part_000: the proxy patch for [ws] and [fetch] *)

Module ProxyPatch.
Import JSON Js.

(** [process.env]: a variable is a string or undefined. *)
Definition Env := string -> option string.

(** ToBoolean on a value that is a string or undefined. *)
Definition truthy_opt (v : option string) : bool :=
  match v with
  | Some s => truthy_string s
  | None => false
  end.

(** [a || b] *)
Definition or_else (a b : option string) : option string :=
  if truthy_opt a then a else b.

(** [s.startsWith(p)] *)
Definition startsWith (s p : string) : bool := String.prefix p s.

(** The variables the proxy is read from, in the order of the chain. *)
Definition proxy_variables : list string :=
  ["POLY_WS_PROXY"; "WSS_PROXY"; "WS_PROXY"; "HTTPS_PROXY"; "HTTP_PROXY";
   "SOCKS_PROXY"].

Definition proxyUrl (env : Env) : option string :=
  or_else
    (or_else
       (or_else
          (or_else (or_else (env "POLY_WS_PROXY") (env "WSS_PROXY"))
                   (env "WS_PROXY"))
          (env "HTTPS_PROXY"))
       (env "HTTP_PROXY"))
    (env "SOCKS_PROXY").

(** What the script sees of its host: the environment, the value of
    [process.versions.node] and whether a global [window] exists. *)
Record Host := {
  env : Env;
  node : option string;
  window : bool
}.

Definition isNode (h : Host) : bool := truthy_opt (node h) && negb (window h).

(** The guard of the whole patch: [isNode && proxyUrl]. *)
Definition patches (h : Host) : bool := isNode h && truthy_opt (proxyUrl (env h)).

(** [fetchProxyUrl], for the proxy url [p] the guard has found. *)
Definition fetchProxyUrl (env : Env) (p : string) : option string :=
  or_else
    (or_else
       (or_else (env "POLY_HTTP_PROXY")
                (if startsWith p "http://" || startsWith p "https://"
                 then Some p else None))
       (env "HTTPS_PROXY"))
    (env "HTTP_PROXY").

(** The branch the script takes for [fetch]. *)
Inductive FetchBranch :=
| UseDispatcher (url : string)     (* the block that sets the undici dispatcher *)
| WarnSocks                        (* the SOCKS warning *)
| LeaveFetch.

Definition fetch_branch (env : Env) (p : string) : FetchBranch :=
  match fetchProxyUrl env p with
  | Some u =>
      if truthy_string u then UseDispatcher u
      else if startsWith p "socks" then WarnSocks else LeaveFetch
  | None => if startsWith p "socks" then WarnSocks else LeaveFetch
  end.

Inductive Agent :=
| SocksProxyAgent (url : string)
| HttpsProxyAgent (url : string)
| CallerAgent (name : string).      (* an agent the caller passed itself *)

(** The agent the patch builds for the proxy url [p]. *)
Definition agent_for (p : string) : Agent :=
  if startsWith p "socks5://" || startsWith p "socks://"
  then SocksProxyAgent p else HttpsProxyAgent p.

(** The first argument of the socket constructor: a string, or an object
    with its [href] and [protocol], where those are strings, and the text
    [String(address)] gives. *)
Inductive Address :=
| AddrString (s : string)
| AddrObject (href protocol : option string) (shown : string).

(** The third argument: the agent, if one is set, and the other options. *)
Record Options := {
  agent : option Agent;
  others : JSObject
}.

Definition no_options : Options := {| agent := None; others := [] |}.

(** ToBoolean on [opts.agent]. *)
Definition has_agent (opts : Options) : bool :=
  match agent opts with
  | Some _ => true
  | None => false
  end.

Definition urlStr (address : Address) : string :=
  match address with
  | AddrString s => s
  | AddrObject (Some h) _ _ => h
  | AddrObject None _ shown => shown
  end.

Definition isWss (address : Address) : bool :=
  startsWith (urlStr address) "wss://"
  || match address with
     | AddrObject _ (Some p) _ => String.eqb p "wss:"
     | _ => false
     end.

(** The constructor of [PatchedWebSocket]: the options it hands to the
    constructor of the original class. *)
Definition PatchedWebSocket (patch : Agent) (address : Address)
  (options : option Options) : Options :=
  let opts := default no_options options in
  if isWss address && negb (has_agent opts)
  then {| agent := Some patch; others := others opts |}
  else opts.

End ProxyPatch.

(** ** scripts/smart-money/auto-copy-trading.ts: the elapsed time of the
    statistics lines *)

Module CopyTrading.

(** [Math.floor((now - startTime) / 1000)], both times in milliseconds. *)
Definition elapsed (now startTime : Z) : Z := (now - startTime) / 1000.

(** [Math.floor(elapsed / 3600)] *)
Definition hours (elapsed : Z) : Z := elapsed / 3600.

(** [Math.floor((elapsed % 3600) / 60)]: the remainder has the sign of
    [elapsed]. *)
Definition minutes (elapsed : Z) : Z := Z.rem elapsed 3600 / 60.

(** [elapsed % 60] *)
Definition seconds (elapsed : Z) : Z := Z.rem elapsed 60.

(** An integer in a template literal. *)
Definition show (z : Z) : string := pretty z.

(** [timeStr] of the statistics interval. *)
Definition timeStr (elapsed : Z) : string :=
  if 0 <? hours elapsed then
    show (hours elapsed) +:+ "h " +:+ show (minutes elapsed) +:+ "m "
      +:+ show (seconds elapsed) +:+ "s"
  else if 0 <? minutes elapsed then
    show (minutes elapsed) +:+ "m " +:+ show (seconds elapsed) +:+ "s"
  else show (seconds elapsed) +:+ "s".

(** The running time [shutdown] prints. *)
Definition runTime (elapsed : Z) : string :=
  show (hours elapsed) +:+ "h " +:+ show (minutes elapsed) +:+ "m "
    +:+ show (seconds elapsed) +:+ "s".

End CopyTrading.

Import JSON Js.

(** * Properties of the two drafts *)

(** ** What the statements below talk about *)

(** A socket with a handler in one of its slots. *)
Definition attached (s : Socket) : bool :=
  onopen s || onmessage s || onclose s || onerror s.

(** No socket listed in [ss] can still deliver a close event to the
    client. *)
Definition settled (ss : list Socket) : Prop :=
  forall sid s, ss !! sid = Some s -> onclose s = true -> readyState s = WS_CLOSED.

(** How the handles of a part_001 instance relate to the runtime: the
    pending timers [ts] with the next timer id [n], the reconnect and ping
    handles [rT] and [pT], the sockets [ss] and the socket handle [h].
    Timer ids are distinct and below [n]; a pending reconnect timer is the
    one-shot timer [rT] names, a pending ping interval the one [pT] names;
    only the socket [h] names is attached; and while a reconnect is armed
    no attached socket is still open. *)
Record inv (ts : list Timer) (n : nat) (rT pT : option nat)
  (ss : list Socket) (h : option nat) : Prop := {
  inv_nodup : NoDup (tid <$> ts);
  inv_fresh : Forall (fun x => (tid x < n)%nat) ts;
  inv_reconnect :
    Forall (fun x => callback x = Reconnect -> rT = Some (tid x) /\ every x = None) ts;
  inv_ping : Forall (fun x => callback x = PingTick -> pT = Some (tid x)) ts;
  inv_socket : forall sid s, ss !! sid = Some s -> attached s = true -> h = Some sid;
  inv_armed : is_Some rT -> settled ss
}.

Definition Inv (w : Part001.World) : Prop :=
  inv (timers (Part001.rt w)) (next_timer (Part001.rt w))
      (Part001.reconnectTimer (Part001.this w)) (Part001.pingTimer (Part001.this w))
      (sockets (Part001.rt w)) (Part001.ws (Part001.this w)).

(** The worlds a part_001 instance can be in: those the event loop
    reaches from a freshly constructed instance. *)
Definition reachable (w : Part001.World) : Prop :=
  exists args ok term es, w = Part001.run (Part001.init args ok term) es.

(** A part_001 client that was disconnected and not connected again: it
    holds no socket, no socket is attached, and only pong timeouts may be
    pending. *)
Record Off (w : Part001.World) : Prop := {
  off_auto : Part001.autoReconnect (Part001.this w) = false;
  off_ws : Part001.ws (Part001.this w) = None;
  off_timers : Forall (fun x => callback x = PongExpired) (timers (Part001.rt w));
  off_sockets : Forall (fun s => attached s = false) (sockets (Part001.rt w))
}.

(** What the owner may still see from a disconnected part_001 client:
    console output and DISCONNECTED notifications. *)
Definition quiet (e : Effect) : Prop :=
  match e with
  | Console _ _ | StatusChange DISCONNECTED => True
  | _ => False
  end.

(** Effects other than the start of a connection attempt. *)
Definition no_attempt (e : Effect) : Prop :=
  match e with
  | NewSocket _ _ | StatusChange CONNECTING | Throw _ => False
  | _ => True
  end.

(** [w'] continues [w] with [es] as its new effects. *)
Definition extends (w w' : Part001.World) (es : list Effect) : Prop :=
  effects (Part001.rt w') = effects (Part001.rt w) ++ es.

Definition v_extends (w w' : WsClient.World) (es : list Effect) : Prop :=
  effects (WsClient.rt w') = effects (WsClient.rt w) ++ es.

(** *** Concrete runs *)

Definition accept_all (_ : string) : bool := true.

(** Owners that pass all three callbacks and leave the rest to the
    defaults. *)
Definition observed : Part001.Args :=
  {| Part001.arg_onConnect := true; Part001.arg_onMessage := true;
     Part001.arg_onStatusChange := true; Part001.arg_host := None;
     Part001.arg_pingInterval := None; Part001.arg_autoReconnect := None |}.

Definition observed_plain : WsClient.Args :=
  {| WsClient.arg_onConnect := true; WsClient.arg_onMessage := true;
     WsClient.arg_onStatusChange := true; WsClient.arg_host := None;
     WsClient.arg_autoReconnect := None |}.

Definition fresh : Part001.World := Part001.init (Some observed) accept_all true.
Definition fresh_plain : WsClient.World :=
  WsClient.init (Some observed_plain) accept_all true.

(** Connected, socket 0 open. *)
Definition online : Part001.World := Part001.run fresh [CallConnect; SockOpen 0].
Definition online_plain : WsClient.World :=
  WsClient.run fresh_plain [CallConnect; SockOpen 0].

(** A connection whose first pong is slow: the socket opens at 100 ms, the
    pings go out at 5100 and 10100, and one pong comes back at 10200. *)
Definition slow_pong : list Event :=
  [CallConnect; Wait 100; SockOpen 0; Wait 5000; Fire 1; Wait 5000; Fire 1;
   Wait 100; SockMessage 0 (Text "pong")].

(** The first connection fails, the owner connects by hand one second
    later, and that connection fails as well one second after. *)
Definition impatient_owner : list Event :=
  [CallConnect; SockClose 0 1006 "abnormal"; Wait 1000; CallConnect;
   Wait 1000; SockClose 1 1006 "abnormal"].

(** The text {"a":1}. *)
Definition frame_a1 : string := "{" +:+ quoted "a" +:+ ":1}".

(** The text {"action":"subscribe","topic":"X"}. *)
Definition frame_subscribe_X : string :=
  "{" +:+ quoted "action" +:+ ":" +:+ quoted "subscribe" +:+ ","
      +:+ quoted "topic" +:+ ":" +:+ quoted "X" +:+ "}".

(** *** Texts that read back *)

Abbreviation chars := String.list_ascii_of_string.

(** What may follow a value inside a JSON text: the end, a comma, or a
    closing bracket or brace. *)
Definition stop (rest : list ascii) : Prop :=
  match rest with
  | [] => True
  | c :: _ => c = ","%char \/ c = "]"%char \/ c = "}"%char
  end.

(** [lit] is a JSON number literal, all of it. *)
Definition number_literal (lit : string) : bool :=
  match parse_number (chars lit) with
  | Some (l, []) => bool_decide (l = chars lit)
  | _ => false
  end.

(** A lexer whose verdict at the end of the text is also its verdict in
    front of whatever may follow a value. *)
Definition extensible (p : Lexer) : Prop :=
  forall s l r rest,
    p s = Some (l, r) -> stop rest -> p (s ++ rest) = Some (l, r ++ rest).

(** The first character of a number literal: a minus or a digit. *)
Definition number_head (c : ascii) : bool := Ascii.eqb c "-" || is_digit c.

(** What [parse_value] and its callers test on the first character of a
    value. *)
Definition value_head (c : ascii) : Prop :=
  is_ws c = false /\ Ascii.eqb c "]" = false /\ Ascii.eqb c "}" = false
  /\ Ascii.eqb c "," = false.

(** Property names that are distinct and are not array indices, so that
    the order of definition is the order of enumeration. *)
Definition plain_keys (ks : list string) : bool :=
  bool_decide (NoDup ks) && forallb (fun k => bool_decide (array_index k = None)) ks.

(** The values [JSON.stringify] prints so that [JSON.parse] reads them
    back: every number is a number literal, and the property names of
    every object are distinct and none is an array index. *)
Fixpoint wf_value (v : JSValue) : bool :=
  match v with
  | JNum lit => number_literal lit
  | JArr xs => forallb wf_value xs
  | JObj fs => plain_keys (map fst fs) && forallb (fun kv => wf_value (snd kv)) fs
  | _ => true
  end.

(** The calls [parse_value] and its helpers spend on the text of [v], at
    most. *)
Fixpoint size (v : JSValue) : nat :=
  match v with
  | JArr xs => S (length xs + list_sum (map size xs))
  | JObj fs => S (length fs + list_sum (map (fun kv => size (snd kv)) fs))
  | _ => 1
  end.

(** One member of an object, as [JSON_stringify] prints it. *)
Definition member (kv : string * JSValue) : string :=
  quote_string (fst kv) +:+ ":" +:+ JSON_stringify (snd kv).

(** [parse_value] with [n] calls to spend reads back every well-formed
    value of size at most [n]. *)
Definition reads (n : nat) : Prop :=
  forall v rest, wf_value v = true -> (size v <= n)%nat -> stop rest ->
    parse_value n (chars (JSON_stringify v) ++ rest) = Some (v, rest).

(** [wf_value (JObj o)], as a proposition. *)
Definition plain_object (o : JSObject) : Prop :=
  NoDup o.*1
  /\ Forall (fun kv => array_index kv.1 = None /\ wf_value kv.2 = true) o.

(** * Further vocabulary *)

(** ** Logs and runtimes *)

(** [es'] is [es] followed by effects that all satisfy [P]. *)
Definition grows (P : Effect -> Prop) (es es' : list Effect) : Prop :=
  exists new, es' = es ++ new /\ Forall P new.

(** Two runtimes that differ in their pending timers at most. *)
Record calm (r r' : Runtime) : Prop := {
  calm_effects : effects r' = effects r;
  calm_sockets : sockets r' = sockets r;
  calm_now : now r' = now r;
  calm_url_ok : url_ok r' = url_ok r;
  calm_terminate : has_terminate r' = has_terminate r
}.


(** The exceptions a log shows reaching the caller. *)
Definition throws (es : list Effect) : list string :=
  omap (fun e => match e with Throw what => Some what | _ => None end) es.

(** How often the owner calls [connect] in a sequence of events. *)
Fixpoint connect_calls (es : list Event) : nat :=
  match es with
  | [] => 0
  | CallConnect :: es' => S (connect_calls es')
  | _ :: es' => connect_calls es'
  end.

(** A sequence of status notifications in which CONNECTED only ever comes
    directly after CONNECTING. *)
Definition announced (l : list ConnectionStatus) : Prop :=
  forall l1 l2, l = l1 ++ CONNECTED :: l2 -> last l1 = Some CONNECTING.

(** The frame [subscribe] or [unsubscribe] builds for some message. *)
Definition envelope (frame : string) : Prop :=
  exists op msg,
    (op = "subscribe" \/ op = "unsubscribe")
    /\ frame = JSON_stringify (JObj (spread [("action", JStr op)] msg)).

(** The sockets a log shows being created are all for [h]. *)
Definition created_for (h : string) (e : Effect) : Prop :=
  match e with
  | NewSocket _ h' => h' = h
  | _ => True
  end.

(** ** part_001 *)

(** The notification of [status], if the owner gave a status callback. *)
Definition notified (status : ConnectionStatus) (w : Part001.World) : list Effect :=
  if Part001.onStatusChange (Part001.this w) then [StatusChange status] else [].

(** The [close()] call of [cleanupWS]. *)
Definition closed_by_cleanup (w : Part001.World) : list Effect :=
  match Part001.ws (Part001.this w) with
  | Some sid =>
      match ready_state sid (Part001.rt w) with
      | Some WS_CLOSED => []
      | _ => [Close sid]
      end
  | None => []
  end.

(** What no method of part_001 changes: the configuration the constructor
    stored and the environment.  [autoReconnect], once off, stays off;
    and while it is off and the socket constructor accepts [host], no
    reconnect gets armed. *)
Record keeps (w w' : Part001.World) : Prop := {
  k_host : Part001.host (Part001.this w') = Part001.host (Part001.this w);
  k_ping : Part001.pingInterval (Part001.this w')
           = Part001.pingInterval (Part001.this w);
  k_onc : Part001.onConnect (Part001.this w') = Part001.onConnect (Part001.this w);
  k_onm : Part001.onCustomMessage (Part001.this w')
          = Part001.onCustomMessage (Part001.this w);
  k_ons : Part001.onStatusChange (Part001.this w')
          = Part001.onStatusChange (Part001.this w);
  k_ok : url_ok (Part001.rt w') = url_ok (Part001.rt w);
  k_term : has_terminate (Part001.rt w') = has_terminate (Part001.rt w);
  k_auto : Part001.autoReconnect (Part001.this w) = false ->
           Part001.autoReconnect (Part001.this w') = false;
  k_manual : Part001.autoReconnect (Part001.this w) = false ->
             url_ok (Part001.rt w) (Part001.host (Part001.this w)) = true ->
             Part001.reconnectTimer (Part001.this w) = None ->
             Part001.reconnectTimer (Part001.this w') = None
}.

(** The handlers that leave the socket handle and the sockets alone. *)
Definition same_socket (w w' : Part001.World) : Prop :=
  Part001.ws (Part001.this w') = Part001.ws (Part001.this w)
  /\ sockets (Part001.rt w') = sockets (Part001.rt w).

(** While the socket a part_001 instance holds is connecting, the last
    status the owner heard is CONNECTING. *)
Definition awaiting (w : Part001.World) : Prop :=
  Part001.onStatusChange (Part001.this w) = true ->
  forall sid, Part001.ws (Part001.this w) = Some sid ->
    ready_state sid (Part001.rt w) = Some WS_CONNECTING ->
    last (statuses (effects (Part001.rt w))) = Some CONNECTING.

(** What a turn of the event loop may do to the outside, seen from the
    world [w] it starts in: a frame goes to the socket the instance holds,
    which is open, and is a ping or an envelope; a socket is created for
    the configured host; only the held socket is closed or terminated; a
    callback is called only if the owner gave it; and no exception leaves
    the instance. *)
Definition footprint (w : Part001.World) (e : Effect) : Prop :=
  match e with
  | Send sid frame =>
      Part001.ws (Part001.this w) = Some sid
      /\ is_open sid (Part001.rt w) = true
      /\ (frame = "ping" \/ envelope frame)
  | NewSocket _ h => h = Part001.host (Part001.this w)
  | Close sid | Terminate sid => Part001.ws (Part001.this w) = Some sid
  | StatusChange _ => Part001.onStatusChange (Part001.this w) = true
  | OnConnect => Part001.onConnect (Part001.this w) = true
  | OnMessage _ => Part001.onCustomMessage (Part001.this w) = true
  | Throw _ => False
  | Console _ _ => True
  end.

(** [n] rounds of the reconnect timer: each time [RECONNECT_DELAY] ms
    pass and the timer armed last, [t], [t + 1], ..., runs. *)
Definition retries (t n : nat) : list Event :=
  flat_map (fun k => [Wait Part001.RECONNECT_DELAY; Fire (t + k)]) (seq 0 n).

(** What one failing [connect] of part_001 shows to the outside. *)
Definition failed_attempt (c : Part001.Client) : list Effect :=
  (if Part001.onStatusChange c then [StatusChange CONNECTING] else [])
  ++ [Console Error "Connection attempt failed:"].

(** The rounds of a connection on socket [sid] whose every ping is
    answered: the ping interval, timer [t] of period [p], runs when it is
    due, and [d] ms later the pong arrives, for each latency [d] of the
    list in turn; [prev] is the latency of the round before. *)
Fixpoint heartbeat (sid t : nat) (p prev : Z) (ds : list Z) : list Event :=
  match ds with
  | [] => []
  | d :: ds' =>
      [Wait (p - prev); Fire t; Wait d; SockMessage sid (Text "pong")]
        ++ heartbeat sid t p d ds'
  end.

(** What the first connection of part_001 shows to the outside, from
    [connect] to the end of [handleOpen]. *)
Definition first_connection (c : Part001.Client) : list Effect :=
  (if Part001.onStatusChange c then [StatusChange CONNECTING] else [])
  ++ [NewSocket 0 (Part001.host c); Console Log "tmzhix";
      Console Log "Connected to Polymarket WS"]
  ++ (if Part001.onStatusChange c then [StatusChange CONNECTED] else [])
  ++ [Console Log "1"]
  ++ (if Part001.onConnect c then [OnConnect] else []).

(** A part_001 client on its first socket, connected, the ping interval
    armed and no pong outstanding: [n] is the time, [prev] the time since
    the last tick of the interval was due, [m] the next timer id. *)
Definition beating (c : Part001.Client) (p n prev : Z) (m : nat)
  (log : list Effect) (ok : string -> bool) (term : bool) : Part001.World :=
  {| Part001.this := Part001.set_pingTimer (Some 1%nat) (Part001.set_ws (Some 0%nat) c);
     Part001.rt :=
       {| now := n;
          sockets := [{| url := Part001.host c; readyState := WS_OPEN;
                         onopen := true; onmessage := true; onclose := true;
                         onerror := true |}];
          timers := [{| tid := 1; callback := PingTick; due := n - prev + p;
                        every := Some p |}];
          next_timer := m; effects := log; url_ok := ok;
          has_terminate := term |} |}.

(** The first connection of an observed owner is lost, the client
    reconnects, and the second connection opens. *)
Definition reconnected : list Event :=
  [CallConnect; SockOpen 0; SockClose 0 1006 "abnormal"; Wait 3000; Fire 2;
   SockOpen 1].

(** ** ws-client.ts *)

(** The worlds a ws-client.ts instance can be in. *)
Definition reachable_plain (w : WsClient.World) : Prop :=
  exists args ok term es, w = WsClient.run (WsClient.init args ok term) es.

(** A socket whose four handler slots are all set. *)
Definition wired (s : Socket) : Prop :=
  onopen s = true /\ onmessage s = true /\ onclose s = true /\ onerror s = true.

(** What no method of ws-client.ts changes: the configuration the
    constructor stored and the environment.  [autoReconnect], once off,
    stays off, and while it is off no timer is created. *)
Record v_keeps (w w' : WsClient.World) : Prop := {
  vk_host : WsClient.host (WsClient.this w') = WsClient.host (WsClient.this w);
  vk_onc : WsClient.onConnect (WsClient.this w') = WsClient.onConnect (WsClient.this w);
  vk_onm : WsClient.onCustomMessage (WsClient.this w')
           = WsClient.onCustomMessage (WsClient.this w);
  vk_ons : WsClient.onStatusChange (WsClient.this w')
           = WsClient.onStatusChange (WsClient.this w);
  vk_ok : url_ok (WsClient.rt w') = url_ok (WsClient.rt w);
  vk_term : has_terminate (WsClient.rt w') = has_terminate (WsClient.rt w);
  vk_auto : WsClient.autoReconnect (WsClient.this w) = false ->
            WsClient.autoReconnect (WsClient.this w') = false;
  vk_timers : WsClient.autoReconnect (WsClient.this w) = false ->
              next_timer (WsClient.rt w') = next_timer (WsClient.rt w)
}.

(** What a turn of ws-client.ts may do to the outside, seen from the world
    [w] it starts in: a frame goes to the socket the instance holds, which
    is open, and is an envelope; a socket is created for the configured
    host; only the held socket is closed and none is terminated; and an
    exception leaves the instance only when the socket constructor
    rejects the host. *)
Definition plain_footprint (w : WsClient.World) (e : Effect) : Prop :=
  match e with
  | Send sid frame =>
      WsClient.ws (WsClient.this w) = Some sid
      /\ is_open sid (WsClient.rt w) = true
      /\ envelope frame
  | NewSocket _ h => h = WsClient.host (WsClient.this w)
  | Close sid => WsClient.ws (WsClient.this w) = Some sid
  | Terminate _ => False
  | StatusChange _ => WsClient.onStatusChange (WsClient.this w) = true
  | OnConnect => WsClient.onConnect (WsClient.this w) = true
  | OnMessage _ => WsClient.onCustomMessage (WsClient.this w) = true
  | Throw _ => url_ok (WsClient.rt w) (WsClient.host (WsClient.this w)) = false
  | Console _ _ => True
  end.

(** A ws-client.ts instance that has never got a socket, its host being
    one the socket constructor rejects. *)
Definition bare (w : WsClient.World) : Prop :=
  WsClient.ws (WsClient.this w) = None /\ sockets (WsClient.rt w) = []
  /\ timers (WsClient.rt w) = []
  /\ url_ok (WsClient.rt w) (WsClient.host (WsClient.this w)) = false.

(** ** Objects and the spread of a message *)

Lemma eqb_ne k k' : k <> k' -> String.eqb k k' = false.
Proof. apply String.eqb_neq. Qed.

Lemma obj_get_replace k v o k' :
  obj_get k' (obj_replace k v o) =
  if String.eqb k' k then (if obj_has k o then Some v else None) else obj_get k' o.
Proof.
  unfold obj_has.
  induction o as [|[k0 v0] o IH]; cbn.
  - by destruct (String.eqb k' k).
  - destruct (String.eqb k k0) eqn:E; cbn.
    + apply String.eqb_eq in E. subst k0. by destruct (String.eqb k' k).
    + rewrite IH. destruct (String.eqb k' k) eqn:E'; [|done].
      apply String.eqb_eq in E'. subst k'. by rewrite E.
Qed.

Lemma obj_get_insert_index n k v o k' :
  obj_get k o = None ->
  obj_get k' (obj_insert_index n k v o) =
  if String.eqb k' k then Some v else obj_get k' o.
Proof.
  induction o as [|[k0 v0] o IH]; cbn; [done|].
  destruct (String.eqb k k0) eqn:E; [done|]. intros Hn.
  destruct (array_index k0) as [n'|]; [destruct (n' <? n)%N|]; cbn; try done.
  rewrite IH by done.
  destruct (String.eqb k' k) eqn:E'; [|done].
  apply String.eqb_eq in E'. subst k'. by rewrite E.
Qed.

Lemma obj_get_snoc k v o k' :
  obj_get k o = None ->
  obj_get k' (o ++ [(k, v)]) = if String.eqb k' k then Some v else obj_get k' o.
Proof.
  induction o as [|[k0 v0] o IH]; cbn; [done|].
  destruct (String.eqb k k0) eqn:E; [done|]. intros Hn.
  rewrite IH by done.
  destruct (String.eqb k' k) eqn:E'; [|done].
  apply String.eqb_eq in E'. subst k'. by rewrite E.
Qed.

(** Reading [k'] after [k] was set. *)
Lemma obj_get_set k v o k' :
  obj_get k' (obj_set k v o) = if String.eqb k' k then Some v else obj_get k' o.
Proof.
  unfold obj_set. destruct (obj_has k o) eqn:E.
  - by rewrite obj_get_replace, E.
  - assert (obj_get k o = None) by (unfold obj_has in E; by destruct (obj_get k o)).
    destruct (array_index k); auto using obj_get_insert_index, obj_get_snoc.
Qed.

Lemma obj_get_None k (o : JSObject) : k ∉ o.*1 -> obj_get k o = None.
Proof.
  induction o as [|[k0 v0] o IH]; cbn; [done|].
  intros Hn. apply not_elem_of_cons in Hn as [Hne Hn].
  by rewrite eqb_ne, IH.
Qed.

(** The properties of [{ ...target, ...src }]: those of [src], then those
    of [target] that [src] does not have. *)
Lemma obj_get_spread src : forall target k,
  NoDup src.*1 ->
  obj_get k (spread target src) =
  match obj_get k src with Some v => Some v | None => obj_get k target end.
Proof.
  unfold spread.
  induction src as [|[k0 v0] src IH]; intros target k Hn; cbn; [done|].
  apply NoDup_cons in Hn as [Hk0 Hn].
  rewrite IH by done. rewrite obj_get_set.
  destruct (String.eqb k k0) eqn:E; [|done].
  apply String.eqb_eq in E. subst k0. by rewrite obj_get_None.
Qed.

(** ** [JSON.parse] reads back what [JSON.stringify] prints *)

Lemma chars_app (a b : string) : chars (a +:+ b) = chars a ++ chars b.
Proof. induction a as [|c a IH]; simpl; [done|]. by rewrite IH. Qed.

Ltac stop_cases H :=
  match type of H with
  | stop ?rest => destruct rest as [|? ?]; [|destruct H as [->|[->| ->]]]
  end.

Lemma take_digits_app s rest :
  stop rest ->
  take_digits (s ++ rest) = ((take_digits s).1, (take_digits s).2 ++ rest).
Proof.
  intros Hs. induction s as [|c s IH]; cbn.
  - by stop_cases Hs.
  - destruct (is_digit c); [|done]. rewrite IH. by destruct (take_digits s).
Qed.

Lemma extensible_then p q : extensible p -> extensible q -> extensible (then_ p q).
Proof.
  intros Hp Hq s l r rest H Hs. unfold then_ in *.
  destruct (p s) as [[a r1]|] eqn:E1; [|done].
  destruct (q r1) as [[b r2]|] eqn:E2; [|done].
  injection H as <- <-.
  by rewrite (Hp _ _ _ _ E1 Hs), (Hq _ _ _ _ E2 Hs).
Qed.

Lemma extensible_digits1 : extensible digits1.
Proof.
  intros s l r rest H Hs. unfold digits1 in *. rewrite take_digits_app by done.
  destruct (take_digits s) as [[|d ds] r']; [done|]. by injection H as <- <-.
Qed.

Lemma extensible_int_part : extensible int_part.
Proof.
  intros s l r rest H Hs. unfold int_part in *. rewrite take_digits_app by done.
  destruct (take_digits s) as [[|d ds] r']; [done|]. cbn.
  revert H. destruct (_ && _); [done|]. by intros [= <- <-].
Qed.

Lemma extensible_sign : extensible (optional ["-"%char]).
Proof.
  intros s l r rest H Hs. unfold optional in *. destruct s as [|c s]; cbn in *.
  - injection H as <- <-. by stop_cases Hs.
  - revert H. destruct (_ || _); by intros [= <- <-].
Qed.

Lemma extensible_exp_sign : extensible (optional ["+"%char; "-"%char]).
Proof.
  intros s l r rest H Hs. unfold optional in *. destruct s as [|c s]; cbn in *.
  - injection H as <- <-. by stop_cases Hs.
  - revert H. destruct (_ || _); by intros [= <- <-].
Qed.

Lemma then_const (a r0 : list ascii) (q : Lexer) (s : list ascii) :
  then_ (fun _ => Some (a, r0)) q s
  = match q r0 with Some (b, r') => Some (a ++ b, r') | None => None end.
Proof. reflexivity. Qed.

Lemma extensible_frac_part : extensible frac_part.
Proof.
  intros s l r rest H Hs. destruct s as [|c s].
  - injection H as <- <-. by stop_cases Hs.
  - change ((c :: s) ++ rest) with (c :: (s ++ rest)). unfold frac_part in *.
    revert H. destruct (Ascii.eqb c "."); [|by intros [= <- <-]].
    rewrite !then_const. destruct (digits1 s) as [[b r2]|] eqn:E; [|done].
    intros [= <- <-]. by rewrite (extensible_digits1 _ _ _ _ E Hs).
Qed.

Lemma extensible_exp_part : extensible exp_part.
Proof.
  intros s l r rest H Hs. destruct s as [|c s].
  - injection H as <- <-. by stop_cases Hs.
  - change ((c :: s) ++ rest) with (c :: (s ++ rest)). unfold exp_part in *.
    revert H. destruct (_ || _); [|by intros [= <- <-]].
    rewrite !then_const.
    destruct (then_ _ digits1 s) as [[b r2]|] eqn:E; [|done].
    intros [= <- <-].
    by rewrite (extensible_then _ _ extensible_exp_sign extensible_digits1 _ _ _ _ E Hs).
Qed.

Lemma extensible_parse_number : extensible parse_number.
Proof.
  unfold parse_number.
  auto using extensible_then, extensible_sign, extensible_int_part,
    extensible_frac_part, extensible_exp_part.
Qed.

Lemma number_literal_app lit rest :
  number_literal lit = true -> stop rest ->
  parse_number (chars lit ++ rest) = Some (chars lit, rest).
Proof.
  unfold number_literal. intros H Hs.
  destruct (parse_number (chars lit)) as [[l [|]]|] eqn:E; try done.
  apply bool_decide_eq_true in H. subst l.
  by rewrite (extensible_parse_number _ _ _ _ E Hs).
Qed.

(** *** Strings *)

Lemma parse_chars_escape_char c tail acc :
  parse_chars (chars (escape_char c) ++ tail) acc = parse_chars tail (c :: acc).
Proof. destruct c as [[] [] [] [] [] [] [] []]; reflexivity. Qed.

Lemma parse_chars_escape s tail acc :
  parse_chars (chars (escape s) ++ ch_quote :: tail) acc
  = Some (rev acc ++ chars s, tail).
Proof.
  revert acc. induction s as [|c s IH]; intros acc; simpl.
  - by rewrite app_nil_r.
  - rewrite chars_app, <- app_assoc, parse_chars_escape_char, IH.
    simpl. by rewrite <- app_assoc.
Qed.

Lemma chars_quote_string s :
  chars (quote_string s) = ch_quote :: chars (escape s) ++ [ch_quote].
Proof. unfold quote_string, quoted. by rewrite !chars_app. Qed.

Lemma string_of_chars s : String.string_of_list_ascii (chars s) = s.
Proof. apply String.string_of_list_ascii_of_string. Qed.

(** *** Heads of values *)

Lemma number_head_tests c :
  number_head c = true ->
  value_head c /\ Ascii.eqb c ch_quote = false /\ Ascii.eqb c "[" = false
  /\ Ascii.eqb c "{" = false /\ Ascii.eqb c "t" = false
  /\ Ascii.eqb c "f" = false /\ Ascii.eqb c "n" = false.
Proof.
  destruct c as [[] [] [] [] [] [] [] []]; cbn; intros H; try discriminate H;
    repeat split; reflexivity.
Qed.

Lemma number_literal_head lit :
  number_literal lit = true ->
  exists c r, chars lit = c :: r /\ number_head c = true.
Proof.
  unfold number_literal, parse_number, number_head.
  destruct (chars lit) as [|c r]; [done|]. intros H. exists c, r. split; [done|].
  unfold then_ at 1 in H. cbn [optional existsb] in H.
  destruct (Ascii.eqb c "-"); [done|]. cbn in H.
  unfold then_ at 1 in H. unfold int_part in H. cbn in H.
  by destruct (is_digit c).
Qed.

(** *** Values *)

Lemma after_here c r : is_ws c = false -> after c (c :: r) = Some r.
Proof. intros H. unfold after. cbn. by rewrite H, Ascii.eqb_refl. Qed.

Lemma after_other c c' r :
  is_ws c' = false -> Ascii.eqb c' c = false -> after c (c' :: r) = None.
Proof. intros H E. unfold after. cbn. by rewrite H, E. Qed.

Lemma skip_ws_head c r : is_ws c = false -> skip_ws (c :: r) = c :: r.
Proof. intros H. cbn. by rewrite H. Qed.

Lemma chars_sep_by_cons x y l :
  chars (sep_by "," (x :: y :: l)) = chars x ++ ","%char :: chars (sep_by "," (y :: l)).
Proof. change (sep_by "," (x :: y :: l)) with (x +:+ "," +:+ sep_by "," (y :: l)).
  by rewrite !chars_app. Qed.

Lemma stringify_head v :
  wf_value v = true ->
  exists c r, chars (JSON_stringify v) = c :: r /\ value_head c.
Proof.
  destruct v as [|[]|lit|s|xs|fs]; intros H; cbn in *;
    try (eexists _, _; split; [reflexivity|]; by repeat split).
  - destruct (number_literal_head _ H) as (c & r & E & Hc).
    exists c, r. split; [done|]. by apply number_head_tests.
Qed.

Lemma rev_snoc {A} (acc : list A) x l : rev (x :: acc) ++ l = rev acc ++ x :: l.
Proof. cbn. by rewrite <- app_assoc. Qed.

Lemma read_elements N :
  (forall m, (m < N)%nat -> reads m) ->
  forall xs n acc rest,
    (n < N)%nat -> xs <> [] -> forallb wf_value xs = true ->
    (length xs + list_sum (map size xs) <= n)%nat ->
    parse_elements n (chars (sep_by "," (map JSON_stringify xs)) ++ "]"%char :: rest) acc
    = Some (JArr (rev acc ++ xs), rest).
Proof.
  intros IH. induction xs as [|x xs IHxs]; [done|].
  intros n acc rest Hn _ Hwf Hsz. cbn in Hwf, Hsz.
  apply andb_true_iff in Hwf as [Hx Hxs].
  destruct n as [|n']; [lia|]. cbn [parse_elements].
  destruct xs as [|y xs'].
  - cbn [map sep_by].
    rewrite (IH n') by (done || lia || (cbn; auto) || cbn in *; lia).
    by rewrite after_other, after_here by done.
  - cbn [map]. rewrite chars_sep_by_cons, <- app_assoc, <- app_comm_cons.
    rewrite (IH n') by (done || lia || (cbn; auto) || cbn in *; lia).
    rewrite after_here by done.
    change (JSON_stringify y :: map JSON_stringify xs') with (map JSON_stringify (y :: xs')).
    rewrite IHxs by (done || lia || cbn in *; lia). by rewrite rev_snoc.
Qed.

Lemma obj_set_new k v (acc : JSObject) :
  k ∉ acc.*1 -> array_index k = None -> obj_set k v acc = acc ++ [(k, v)].
Proof.
  intros Hk Hi. unfold obj_set, obj_has. by rewrite obj_get_None, Hi.
Qed.

Lemma chars_member k v :
  chars (member (k, v))
  = ch_quote :: chars (escape k) ++ ch_quote :: ":"%char :: chars (JSON_stringify v).
Proof.
  unfold member. cbn [fst snd]. rewrite !chars_app, chars_quote_string.
  cbn. by rewrite <- app_assoc.
Qed.

Lemma read_members N :
  (forall m, (m < N)%nat -> reads m) ->
  forall (fs : JSObject) n (acc : JSObject) rest,
    (n < N)%nat -> fs <> [] ->
    forallb (fun kv => wf_value (snd kv)) fs = true ->
    NoDup (acc.*1 ++ fs.*1) ->
    Forall (fun k => array_index k = None) fs.*1 ->
    (length fs + list_sum (map (fun kv => size (snd kv)) fs) <= n)%nat ->
    parse_members n (chars (sep_by "," (map member fs)) ++ "}"%char :: rest) acc
    = Some (JObj (acc ++ fs), rest).
Proof.
  intros IH. induction fs as [|[k v] fs IHfs]; [done|].
  intros n acc rest Hn _ Hwf Hnd Hix Hsz. cbn in Hwf, Hsz, Hnd, Hix.
  apply andb_true_iff in Hwf as [Hv Hfs].
  apply Forall_cons in Hix as [Hk Hix].
  assert (Hfresh : k ∉ acc.*1).
  { apply NoDup_app in Hnd as (_ & Hd & _). intros Hin. apply (Hd k Hin). left. }
  assert (Hnd' : NoDup ((acc ++ [(k, v)]).*1 ++ fs.*1)).
  { rewrite fmap_app, <- app_assoc. exact Hnd. }
  destruct n as [|n']; [lia|]. cbn [parse_members].
  destruct fs as [|kv fs'].
  - cbn [map sep_by]. rewrite chars_member, <- app_comm_cons, <- app_assoc.
    rewrite after_here by done.
    rewrite <- !app_comm_cons, parse_chars_escape. cbn [rev app].
    rewrite after_here by done.
    rewrite (IH n') by (done || lia || (cbn; auto) || cbn in *; lia).
    rewrite after_other, after_here by done.
    by rewrite string_of_chars, obj_set_new.
  - cbn [map]. rewrite chars_sep_by_cons, chars_member.
    rewrite <- !app_comm_cons, <- !app_assoc.
    rewrite after_here by done.
    rewrite <- !app_comm_cons, parse_chars_escape. cbn [rev app].
    rewrite after_here by done.
    rewrite (IH n') by (done || lia || (cbn; auto) || cbn in *; lia).
    rewrite after_here by done.
    rewrite string_of_chars, obj_set_new by done.
    change (member kv :: map member fs') with (map member (kv :: fs')).
    rewrite IHfs by (done || lia || cbn in *; lia).
    by rewrite <- app_assoc.
Qed.

Lemma reads_all N : reads N.
Proof.
  induction N as [N IH] using lt_wf_ind.
  intros v rest Hwf Hsz Hs.
  destruct N as [|n]; [destruct v; cbn in Hsz; lia|].
  destruct v as [|[]|lit|s|xs|fs]; cbn [parse_value JSON_stringify].
  - reflexivity.
  - reflexivity.
  - reflexivity.
  - cbn in Hwf. destruct (number_literal_head _ Hwf) as (c & r & E & Hc).
    pose proof (number_literal_app _ _ Hwf Hs) as Hp.
    rewrite E in *. rewrite <- app_comm_cons in *.
    destruct (number_head_tests _ Hc) as ((Hw & _) & H1 & H2 & H3 & H4 & H5 & H6).
    rewrite skip_ws_head by done. rewrite H1, H2, H3, H4, H5, H6, Hp.
    by rewrite <- E, string_of_chars.
  - rewrite chars_quote_string, <- app_comm_cons, <- app_assoc.
    rewrite skip_ws_head by done. cbn [app].
    change (Ascii.eqb ch_quote ch_quote) with true. cbn iota.
    rewrite parse_chars_escape. cbn [rev app]. by rewrite string_of_chars.
  - destruct xs as [|x xs]; [reflexivity|].
    rewrite !chars_app, <- !app_assoc. cbn [chars app].
    rewrite skip_ws_head by done.
    change (Ascii.eqb "[" ch_quote) with false. change (Ascii.eqb "[" "[") with true.
    cbn iota.
    cbn in Hwf. apply andb_true_iff in Hwf as [Hx Hxs].
    destruct (stringify_head _ Hx) as (c & r & E & Hw & Hb & _).
    assert (after "]" (chars (sep_by "," (map JSON_stringify (x :: xs))) ++ "]"%char :: rest)
            = None) as ->.
    { destruct xs as [|y xs].
      - cbn [map sep_by]. rewrite E, <- app_comm_cons. by apply after_other.
      - cbn [map]. rewrite chars_sep_by_cons, E, <- app_comm_cons. by apply after_other. }
    rewrite (read_elements (S n)) by
      (done || lia || (cbn; by rewrite ?Hx, ?Hxs) || (cbn in *; lia)).
    reflexivity.
  - destruct fs as [|[k v] fs]; [reflexivity|].
    rewrite !chars_app, <- !app_assoc. cbn [chars app].
    rewrite skip_ws_head by done.
    change (Ascii.eqb "{" ch_quote) with false. change (Ascii.eqb "{" "[") with false.
    change (Ascii.eqb "{" "{") with true. cbn iota.
    cbn in Hwf. apply andb_true_iff in Hwf as [Hk Hfs].
    unfold plain_keys in Hk. apply andb_true_iff in Hk as [Hnd Hix].
    apply bool_decide_eq_true in Hnd.
    change (sep_by "," (map _ ((k, v) :: fs)))
      with (sep_by "," (map member ((k, v) :: fs))).
    assert (after "}" (chars (sep_by "," (map member ((k, v) :: fs))) ++ "}"%char :: rest)
            = None) as ->.
    { destruct fs as [|y fs].
      - cbn [map sep_by]. rewrite chars_member, <- app_comm_cons. by apply after_other.
      - cbn [map]. rewrite chars_sep_by_cons, chars_member, <- !app_comm_cons.
        by apply after_other. }
    assert (Hix' : Forall (fun k => array_index k = None) ((k, v) :: fs).*1).
    { apply Forall_forall. intros k' Hk'. apply list_elem_of_In in Hk'.
      rewrite forallb_forall in Hix. exact (bool_decide_eq_true_1 _ (Hix _ Hk')). }
    rewrite (read_members (S n) IH ((k, v) :: fs) n [] rest);
      [reflexivity|lia|done|exact Hfs|exact Hnd|exact Hix'|cbn in *; lia].
Qed.

(** *** The bound [JSON_parse] starts with *)

Lemma sized_list {A} (f : A -> nat) (g : A -> string) (l : list A) :
  Forall (fun x => (f x <= 2 * length (chars (g x)))%nat) l ->
  (length l + list_sum (map f l) <= 2 * length (chars (sep_by "," (map g l))) + 1)%nat.
Proof.
  induction l as [|x l IH]; [cbn; lia|].
  intros H. apply Forall_cons in H as [Hx Hl]. specialize (IH Hl).
  destruct l as [|y l]; [cbn in *; lia|].
  cbn [map]. rewrite chars_sep_by_cons. rewrite length_app. unfold list_sum in *. cbn [length map fold_right] in *. lia.
Qed.

Lemma size_bound_below n :
  forall v, (size v < n)%nat -> wf_value v = true ->
    (size v <= 2 * length (chars (JSON_stringify v)))%nat.
Proof.
  induction n as [|n IH]; [lia|]. intros v Hn Hwf.
  destruct v as [|[]|lit|s|xs|fs]; cbn [JSON_stringify size]; try (cbn; lia).
  - destruct (number_literal_head _ Hwf) as (c & r & -> & _). cbn. lia.
  - rewrite chars_quote_string. cbn. lia.
  - rewrite !chars_app, !length_app. cbn [chars length].
    pose proof (sized_list size JSON_stringify xs) as Hl.
    enough (Forall (fun x => (size x <= 2 * length (chars (JSON_stringify x)))%nat) xs)
      by (specialize (Hl H); lia).
    cbn in Hwf, Hn. clear Hl. induction xs as [|x xs IHxs]; [done|].
    cbn in Hwf, Hn. apply andb_true_iff in Hwf as [Hx Hxs].
    unfold list_sum in *.
    constructor; [apply IH; [lia|done]|apply IHxs; [lia|done]].
  - rewrite !chars_app, !length_app. cbn [chars length].
    pose proof (sized_list (fun kv => size kv.2) member fs) as Hl.
    change (sep_by "," (map _ fs)) with (sep_by "," (map member fs)).
    enough (Forall (fun kv => (size kv.2 <= 2 * length (chars (member kv)))%nat) fs)
      by (specialize (Hl H); lia).
    cbn in Hwf, Hn. apply andb_true_iff in Hwf as [_ Hwf]. clear Hl.
    induction fs as [|[k v] fs IHfs]; [done|].
    cbn in Hwf, Hn. apply andb_true_iff in Hwf as [Hx Hxs].
    unfold list_sum in *.
    constructor; [|apply IHfs; [lia|done]].
    rewrite chars_member. cbn [snd length]. rewrite length_app. cbn [length].
    assert (size v < n)%nat as Hv by lia. specialize (IH v Hv Hx). lia.
Qed.

(** Reading back what was printed. *)
Theorem JSON_parse_stringify (v : JSValue) :
  wf_value v = true -> JSON_parse (JSON_stringify v) = Some v.
Proof.
  intros Hwf. unfold JSON_parse.
  pose proof (size_bound_below (S (size v)) v (Nat.lt_succ_diag_r _) Hwf) as Hb.
  pose proof (reads_all (2 * length (chars (JSON_stringify v)) + 2) v [] Hwf) as Hr.
  rewrite app_nil_r in Hr. rewrite Hr; [done|lia|done].
Qed.

(** *** Objects built by assignment stay well formed *)

Lemma wf_plain_object (o : JSObject) : wf_value (JObj o) = true <-> plain_object o.
Proof.
  cbn. unfold plain_keys, plain_object.
  rewrite !andb_true_iff, bool_decide_eq_true.
  change (map fst o) with (o.*1).
  split.
  - intros [[Hn Hk] Hv]. split; [done|]. apply Forall_forall. intros kv Hkv.
    apply list_elem_of_In in Hkv. rewrite forallb_forall in Hk, Hv. split.
    + apply (bool_decide_eq_true_1 _). apply Hk. by apply in_map.
    + by apply Hv.
  - intros [Hn Hf]. rewrite Forall_forall in Hf. repeat split; [done|..].
    + apply forallb_forall. intros k Hk. apply in_map_iff in Hk as (kv & <- & Hkv).
      apply bool_decide_eq_true. by apply Hf, list_elem_of_In.
    + apply forallb_forall. intros kv Hkv. by apply Hf, list_elem_of_In.
Qed.

Lemma obj_get_Some_key k v (o : JSObject) : obj_get k o = Some v -> k ∈ o.*1.
Proof.
  induction o as [|[k0 v0] o IH]; cbn; [done|].
  destruct (String.eqb_spec k k0) as [->|]; [left|right; auto].
Qed.

Lemma obj_has_false k (o : JSObject) : obj_has k o = false -> k ∉ o.*1.
Proof.
  unfold obj_has. intros H Hin. induction o as [|[k0 v0] o IH]; cbn in *.
  - by apply elem_of_nil in Hin.
  - destruct (String.eqb_spec k k0) as [->|Hne]; [done|].
    apply elem_of_cons in Hin as [?|Hin]; [done|]. by apply IH.
Qed.

Lemma obj_replace_keys k v (o : JSObject) : (obj_replace k v o).*1 = o.*1.
Proof.
  induction o as [|[k0 v0] o IH]; cbn; [done|].
  destruct (String.eqb k k0); cbn; by rewrite ?IH.
Qed.

Lemma obj_replace_Forall (P : string * JSValue -> Prop) k v (o : JSObject) :
  (forall k0 v0, P (k0, v0) -> k = k0 -> P (k0, v)) ->
  Forall P o -> Forall P (obj_replace k v o).
Proof.
  intros HP. induction 1 as [|[k0 v0] o H0 Ho IH]; cbn; [done|].
  destruct (String.eqb_spec k k0) as [->|]; constructor; auto.
  by apply (HP k0 v0).
Qed.

Lemma plain_obj_set k v (o : JSObject) :
  array_index k = None -> wf_value v = true ->
  plain_object o -> plain_object (obj_set k v o).
Proof.
  intros Hk Hv [Hn Hf]. unfold obj_set. destruct (obj_has k o) eqn:E.
  - split; [by rewrite obj_replace_keys|].
    apply obj_replace_Forall; [|done]. cbn. by intros k0 v0 [? _] _.
  - rewrite Hk. split.
    + rewrite fmap_app. apply NoDup_app. split; [done|]. split; [|apply NoDup_singleton].
      intros x Hx Hx'. apply list_elem_of_singleton in Hx'. subst x.
      by apply (obj_has_false _ _ E).
    + apply Forall_app. split; [done|]. by apply Forall_singleton.
Qed.

Lemma plain_spread (src : JSObject) : forall target,
  plain_object src -> plain_object target -> plain_object (spread target src).
Proof.
  unfold spread. induction src as [|[k v] src IH]; intros target Hs Ht; cbn; [done|].
  destruct Hs as [Hn Hf]. apply NoDup_cons in Hn as [_ Hn].
  apply Forall_cons in Hf as [[Hk Hv] Hf].
  apply IH; [by split|]. by apply plain_obj_set.
Qed.

(** The object [subscribe] and [unsubscribe] send for a well-formed
    message is well formed. *)
Lemma wf_envelope (a : string) (msg : JSObject) :
  wf_value (JObj msg) = true ->
  wf_value (JObj (spread [("action", JStr a)] msg)) = true.
Proof.
  rewrite !wf_plain_object. intros H. apply plain_spread; [done|].
  split; [apply NoDup_singleton|]. by apply Forall_singleton.
Qed.

(** ** part_001: timers and sockets the instance owns *)

(** A part_001 world as its fields. *)
Ltac open_world w :=
  destruct w as [[hst pint arc onc onm ons wsh pT poT rT]
                 [nw ss ts nt es ok term]];
  unfold Inv in *; cbn in *.

Create HintDb inv.

(** The methods of part_001 down to the operations of the runtime. *)
Ltac unfold_methods :=
  unfold Part001.disconnect, Part001.unsubscribe, Part001.subscribe,
    Part001.sendSafe, Part001.reconnectFired, Part001.handleClose,
    Part001.handleError, Part001.handleMessage, Part001.handleOpen,
    Part001.connect, Part001.cleanupWS, Part001.clearTimers,
    Part001.scheduleReconnect, Part001.pongExpired, Part001.pingTick,
    Part001.startPinging, Part001.stopPinging, Part001.clearPongTimeout,
    Part001.notifyStatusChange, Part001.console, Part001.ws_open,
    Part001.on_this, Part001.on_rt, Part001.upd in *.

Section Part001Facts.

Import Part001.

(** *** Lists of timers *)

Lemma NoDup_tid_filter (P : Timer -> Prop) `{forall x, Decision (P x)} ts :
  NoDup (tid <$> ts) -> NoDup (tid <$> filter P ts).
Proof.
  induction ts as [|x ts IH]; simpl; [done|].
  rewrite NoDup_cons. intros [Hx Hn]. rewrite filter_cons.
  destruct (decide (P x)); [|auto].
  simpl. apply NoDup_cons. split; [|auto].
  intros Hin. apply Hx. apply list_elem_of_fmap in Hin as (y & -> & Hy).
  apply list_elem_of_fmap. exists y. split; [done|].
  apply list_elem_of_filter in Hy. tauto.
Qed.

Lemma Forall_filter_keep {A} (P Q : A -> Prop) `{forall x, Decision (P x)} (l : list A) :
  Forall Q l -> Forall Q (filter P l).
Proof.
  rewrite !Forall_forall. intros HQ x Hx. apply HQ.
  apply list_elem_of_filter in Hx. tauto.
Qed.

(** *** The invariant under the operations of the runtime *)

Lemma inv_filter ts n rT pT ss h t :
  inv ts n rT pT ss h -> inv (filter (fun x => tid x ≠ t) ts) n rT pT ss h.
Proof.
  intros [H1 H2 H3 H4 H5 H6]. split; auto using NoDup_tid_filter, Forall_filter_keep.
Qed.

Lemma inv_clear_reconnect ts n t pT ss h :
  inv ts n (Some t) pT ss h -> inv (filter (fun x => tid x ≠ t) ts) n None pT ss h.
Proof.
  intros [H1 H2 H3 H4 H5 H6].
  split; auto using NoDup_tid_filter, Forall_filter_keep.
  - rewrite Forall_forall in *. intros x Hx Hc.
    apply list_elem_of_filter in Hx as [Hne Hx].
    destruct (H3 x Hx Hc) as [Heq _]. congruence.
Qed.

Lemma inv_clear_ping ts n rT t ss h :
  inv ts n rT (Some t) ss h -> inv (filter (fun x => tid x ≠ t) ts) n rT None ss h.
Proof.
  intros [H1 H2 H3 H4 H5 H6].
  split; auto using NoDup_tid_filter, Forall_filter_keep.
  rewrite Forall_forall in *. intros x Hx Hc.
  apply list_elem_of_filter in Hx as [Hne Hx].
  specialize (H4 x Hx Hc). congruence.
Qed.

Lemma NoDup_tid_snoc ts n x :
  NoDup (tid <$> ts) -> Forall (fun y => (tid y < n)%nat) ts -> tid x = n ->
  NoDup (tid <$> (ts ++ [x])).
Proof.
  intros Hn Hf Hx. rewrite fmap_app. apply NoDup_app. split; [done|].
  split; [|apply NoDup_singleton].
  intros k Hk Hk'. simpl in Hk'. apply list_elem_of_singleton in Hk'. subst k.
  apply list_elem_of_fmap in Hk as (y & Hy & Hin).
  rewrite Forall_forall in Hf. specialize (Hf y Hin). lia.
Qed.

Lemma fresh_snoc ts n x :
  Forall (fun y => (tid y < n)%nat) ts -> tid x = n ->
  Forall (fun y => (tid y < S n)%nat) (ts ++ [x]).
Proof.
  intros Hf Hx. apply Forall_app. split.
  - eapply Forall_impl; [exact Hf|]. simpl. intros; lia.
  - apply Forall_singleton. lia.
Qed.

Lemma inv_add_pong ts n rT pT ss h d e :
  inv ts n rT pT ss h ->
  inv (ts ++ [{| tid := n; callback := PongExpired; due := d; every := e |}])
      (S n) rT pT ss h.
Proof.
  intros [H1 H2 H3 H4 H5 H6]. split; auto.
  - eapply NoDup_tid_snoc; eauto.
  - apply fresh_snoc; auto.
  - apply Forall_app. split; [done|]. apply Forall_singleton. simpl. discriminate.
  - apply Forall_app. split; [done|]. apply Forall_singleton. simpl. discriminate.
Qed.

Lemma inv_add_ping ts n rT ss h d e :
  inv ts n rT None ss h ->
  inv (ts ++ [{| tid := n; callback := PingTick; due := d; every := e |}])
      (S n) rT (Some n) ss h.
Proof.
  intros [H1 H2 H3 H4 H5 H6]. split; auto.
  - eapply NoDup_tid_snoc; eauto.
  - apply fresh_snoc; auto.
  - apply Forall_app. split; [done|]. apply Forall_singleton. simpl. discriminate.
  - apply Forall_app. split.
    + eapply Forall_impl; [exact H4|]. simpl. intros x Hx Hc. specialize (Hx Hc). discriminate.
    + apply Forall_singleton. simpl. done.
Qed.

Lemma inv_add_reconnect ts n pT ss h d :
  inv ts n None pT ss h -> settled ss ->
  inv (ts ++ [{| tid := n; callback := Reconnect; due := d; every := None |}])
      (S n) (Some n) pT ss h.
Proof.
  intros [H1 H2 H3 H4 H5 H6] Hq. split; auto.
  - eapply NoDup_tid_snoc; eauto.
  - apply fresh_snoc; auto.
  - apply Forall_app. split.
    + eapply Forall_impl; [exact H3|]. simpl. intros x Hx Hc.
      destruct (Hx Hc); discriminate.
    + apply Forall_singleton. simpl. done.
  - apply Forall_app. split; [done|]. apply Forall_singleton. simpl. discriminate.
Qed.

(** A change of one socket that keeps its handler slots and does not
    reopen a closed socket. *)
Lemma inv_alter ts n rT pT ss h sid (f : Socket -> Socket) :
  (forall s, ss !! sid = Some s ->
     attached (f s) = attached s /\ onclose (f s) = onclose s /\
     (readyState s = WS_CLOSED -> readyState (f s) = WS_CLOSED)) ->
  inv ts n rT pT ss h -> inv ts n rT pT (alter f sid ss) h.
Proof.
  intros Hf [H1 H2 H3 H4 H5 H6]. split; try done.
  - intros k s Hk Ha. destruct (decide (sid = k)) as [->|Hne].
    + rewrite list_lookup_alter_eq in Hk.
      destruct (ss !! k) as [s0|] eqn:E; [|done]. simpl in Hk.
      injection Hk as <-. destruct (Hf s0 eq_refl) as (Ha' & _).
      apply (H5 k s0 E). congruence.
    + rewrite list_lookup_alter_ne in Hk by done. eauto.
  - intros Hr k s Hk Ha. destruct (decide (sid = k)) as [->|Hne].
    + rewrite list_lookup_alter_eq in Hk.
      destruct (ss !! k) as [s0|] eqn:E; [|done]. simpl in Hk.
      injection Hk as <-. destruct (Hf s0 eq_refl) as (_ & Hc & Hs).
      apply Hs. apply (H6 Hr k s0 E). congruence.
    + rewrite list_lookup_alter_ne in Hk by done. by apply (H6 Hr k s).
Qed.

Lemma inv_detach ts n rT pT ss sid :
  inv ts n rT pT ss (Some sid) ->
  inv ts n rT pT (alter (with_handlers false) sid ss) None.
Proof.
  intros [H1 H2 H3 H4 H5 H6]. split; try done.
  - intros k s Hk Ha. exfalso. destruct (decide (sid = k)) as [->|Hne].
    + rewrite list_lookup_alter_eq in Hk.
      destruct (ss !! k) as [s0|]; [|done]. simpl in Hk. injection Hk as <-.
      discriminate.
    + rewrite list_lookup_alter_ne in Hk by done.
      specialize (H5 k s Hk Ha). congruence.
  - intros Hr k s Hk Ha. destruct (decide (sid = k)) as [->|Hne].
    + rewrite list_lookup_alter_eq in Hk.
      destruct (ss !! k) as [s0|]; [|done]. simpl in Hk. injection Hk as <-.
      discriminate.
    + rewrite list_lookup_alter_ne in Hk by done. by apply (H6 Hr k s).
Qed.

Lemma attached_onclose s : onclose s = true -> attached s = true.
Proof. unfold attached. intros ->. by rewrite !orb_true_r. Qed.

Lemma inv_new ts n pT ss s0 :
  inv ts n None pT ss None ->
  inv ts n None pT (alter (with_handlers true) (length ss) (ss ++ [s0]))
      (Some (length ss)).
Proof.
  intros [H1 H2 H3 H4 H5 H6]. split; auto.
  - intros k s Hk Ha. destruct (decide (length ss = k)) as [<-|Hne]; [done|].
    rewrite list_lookup_alter_ne in Hk by done.
    apply lookup_app_Some in Hk as [Hk|[Hge Hk]].
    + specialize (H5 k s Hk Ha). discriminate.
    + apply list_lookup_singleton_Some in Hk as [Hk _]. lia.
  - intros [? ?]; discriminate.
Qed.

Lemma inv_fire ts n rT pT ss h x t :
  inv ts n rT pT ss h -> x ∈ ts -> tid x = t ->
  inv (filter (fun y => tid y ≠ t) ts ++ rearm x) n rT pT ss h.
Proof.
  intros Hi Hx Ht. pose proof (inv_filter _ _ _ _ _ _ t Hi) as [H1 H2 H3 H4 H5 H6].
  destruct Hi as [G1 G2 G3 G4 _ _].
  rewrite Forall_forall in G2, G3, G4.
  unfold rearm. destruct (every x) as [p|] eqn:E; [|by rewrite app_nil_r].
  split; auto.
  - rewrite fmap_app. apply NoDup_app. split; [done|]. split; [|apply NoDup_singleton].
    intros k Hk Hk'. simpl in Hk'. apply list_elem_of_singleton in Hk'. subst k.
    apply list_elem_of_fmap in Hk as (y & Hy & Hin).
    apply list_elem_of_filter in Hin as [Hne _]. congruence.
  - apply Forall_app. split; [done|]. apply Forall_singleton. simpl. auto.
  - apply Forall_app. split; [done|]. apply Forall_singleton. simpl.
    intros Hc. destruct (G3 x Hx Hc). congruence.
  - apply Forall_app. split; [done|]. apply Forall_singleton. simpl. auto.
Qed.

#[local] Hint Resolve inv_filter inv_clear_reconnect inv_clear_ping inv_add_pong
  inv_add_ping inv_add_reconnect inv_detach inv_new : inv.

(** *** Every method keeps the invariant *)

Lemma Inv_clearPongTimeout w : Inv w -> Inv (clearPongTimeout w).
Proof.
  open_world w. intros H. unfold clearPongTimeout; cbn.
  destruct poT; cbn; eauto with inv.
Qed.

Lemma Inv_stopPinging w : Inv w -> Inv (stopPinging w).
Proof.
  open_world w. intros H. unfold stopPinging, clearPongTimeout; cbn.
  destruct pT, poT; cbn; eauto with inv.
Qed.

Lemma Inv_handleClose w :
  Inv w -> settled (sockets (rt w)) -> Inv (handleClose w).
Proof.
  open_world w. intros H Hs.
  unfold handleClose, stopPinging, clearPongTimeout, scheduleReconnect,
    notifyStatusChange, console; cbn.
  destruct ons, pT, poT, arc, rT; cbn; eauto 6 with inv.
Qed.

Lemma closing_keeps s :
  attached (closing s) = attached s /\ onclose (closing s) = onclose s /\
  (readyState s = WS_CLOSED -> readyState (closing s) = WS_CLOSED).
Proof. unfold closing. destruct s as [u []]; cbn; repeat split; auto; discriminate. Qed.

Lemma inv_closing ts n rT pT ss h sid :
  inv ts n rT pT ss h -> inv ts n rT pT (alter closing sid ss) h.
Proof. apply inv_alter. intros s _. apply closing_keeps. Qed.

#[local] Hint Resolve inv_closing : inv.

Lemma Inv_startPinging w : Inv w -> Inv (startPinging w).
Proof.
  open_world w. intros H. unfold_methods; cbn.
  destruct pT, poT; cbn; eauto with inv.
Qed.

Lemma Inv_pingTick w : Inv w -> Inv (pingTick w).
Proof.
  open_world w. intros H. unfold_methods; cbn.
  destruct wsh; cbn; [|done]. destruct (is_open _ _); cbn; eauto with inv.
Qed.

Lemma Inv_pongExpired w : Inv w -> Inv (pongExpired w).
Proof.
  open_world w. intros H. unfold_methods; cbn.
  destruct wsh; cbn; [|done]. destruct term; cbn; eauto with inv.
Qed.

Lemma Inv_notify st w : Inv w -> Inv (notifyStatusChange st w).
Proof. open_world w. intros H. unfold_methods; cbn. destruct ons; cbn; done. Qed.

Lemma Inv_console l t w : Inv w -> Inv (console l t w).
Proof. open_world w. done. Qed.

Lemma Inv_clearTimers w :
  Inv w ->
  Inv (clearTimers w) /\ reconnectTimer (this (clearTimers w)) = None.
Proof.
  open_world w. intros H. unfold_methods; cbn.
  destruct rT; cbn; eauto with inv.
Qed.

Lemma Inv_cleanupWS w :
  Inv w ->
  Inv (cleanupWS w) /\ ws (this (cleanupWS w)) = None
  /\ reconnectTimer (this (cleanupWS w)) = reconnectTimer (this w).
Proof.
  open_world w. intros H. unfold_methods; cbn.
  destruct wsh as [sid|]; cbn; [|eauto].
  destruct (ready_state _ _) as [[]|]; cbn; eauto 6 with inv.
Qed.

(** With no socket held, no socket is attached. *)
Lemma inv_settled ts n rT pT ss : inv ts n rT pT ss None -> settled ss.
Proof.
  intros H sid s Hs Hc. pose proof (inv_socket _ _ _ _ _ _ H sid s Hs (attached_onclose _ Hc)).
  discriminate.
Qed.

Lemma Inv_scheduleReconnect w :
  Inv w -> settled (sockets (rt w)) -> Inv (scheduleReconnect w).
Proof.
  open_world w. intros H Hs. unfold_methods; cbn.
  destruct rT; cbn; eauto with inv.
Qed.

Lemma Inv_idle_connect w :
  Inv w -> ws (this w) = None -> reconnectTimer (this w) = None ->
  Inv (if url_ok (rt w) (host (this w)) then
         let (sid, r) := new_socket (host (this w)) (rt w) in
         let w := {| this := set_ws (Some sid) (this w); rt := r |} in
         let w := on_rt (update_socket sid (with_handlers true)) w in
         console Log "tmzhix" w
       else
         let w := console Error "Connection attempt failed:" w in
         scheduleReconnect w).
Proof.
  open_world w. intros H -> ->. unfold_methods; cbn.
  destruct (ok hst); cbn; eauto with inv.
  apply inv_add_reconnect; [done|]. eapply inv_settled; eauto.
Qed.

Lemma notify_this st w : this (notifyStatusChange st w) = this w.
Proof. unfold notifyStatusChange. by destruct (onStatusChange _). Qed.

Lemma Inv_connect w : Inv w -> Inv (connect w).
Proof.
  intros H. unfold connect.
  destruct (Inv_clearTimers w H) as [H1 E1].
  destruct (Inv_cleanupWS _ H1) as (H2 & E2 & E3). rewrite E1 in E3.
  pose proof (Inv_notify CONNECTING _ H2) as H3.
  apply Inv_idle_connect; rewrite ?notify_this; auto.
Qed.

Lemma Inv_handleOpen w : Inv w -> Inv (handleOpen w).
Proof.
  intros H. unfold handleOpen.
  pose proof (Inv_startPinging _
                (Inv_notify CONNECTED _
                   (Inv_console Log "Connected to Polymarket WS" _ H))) as H1.
  pose proof (Inv_console Log "1" _ H1) as H2.
  match goal with |- Inv (if ?b then _ else _) => destruct b end; [|done].
  match goal with H : Inv ?w |- Inv (on_rt _ ?w) => destruct w as [c r]; exact H end.
Qed.

Lemma Inv_handleMessage d w : Inv w -> Inv (handleMessage d w).
Proof.
  intros H. unfold handleMessage. destruct d as [s|]; [|done].
  destruct (0 <? String.length s)%nat; [|done].
  destruct (String.eqb s "pong"); [by apply Inv_clearPongTimeout|].
  destruct (JSON_parse s); [|by apply Inv_console].
  destruct (onCustomMessage _); [|done]. by destruct w.
Qed.

Lemma Inv_sendSafe p w : Inv w -> Inv (sendSafe p w).
Proof.
  intros H. unfold sendSafe. destruct (ws_open w); [|by apply Inv_console].
  destruct (ws _); [|done]. by destruct w.
Qed.

Lemma Inv_disconnect w : Inv w -> Inv (disconnect w).
Proof.
  intros H. unfold disconnect. apply Inv_notify.
  apply Inv_cleanupWS, Inv_stopPinging, Inv_clearTimers. by destruct w.
Qed.

Lemma Inv_reconnectFired w t x :
  Inv w -> find_timer t (rt w) = Some x -> callback x = Reconnect ->
  Inv (reconnectFired
         {| this := this w;
            rt := set_timers (filter (fun y => tid y ≠ t) (timers (rt w)) ++ rearm x)
                      (next_timer (rt w)) (rt w) |}).
Proof.
  intros H Hf Hc. unfold reconnectFired. apply Inv_connect.
  unfold find_timer in Hf. apply find_some in Hf as [Hin Ht].
  apply Nat.eqb_eq in Ht. apply list_elem_of_In in Hin.
  open_world w.
  pose proof (inv_reconnect _ _ _ _ _ _ H) as Hr. rewrite Forall_forall in Hr.
  destruct (Hr x Hin Hc) as [-> Hev]. unfold rearm. rewrite Hev, app_nil_r.
  rewrite Ht in H. eauto with inv.
Qed.

(** *** Every event keeps the invariant *)

Lemma with_ready_keeps r s :
  attached (with_ready r s) = attached s /\ onclose (with_ready r s) = onclose s.
Proof. by destruct s. Qed.

Lemma Inv_sock_open w sid r b :
  Inv w -> sock_open sid (rt w) = Some (r, b) ->
  Inv {| this := this w; rt := r |}.
Proof.
  open_world w. unfold sock_open; cbn. intros H Hs.
  destruct (ss !! sid) as [s|] eqn:E; [|done].
  destruct (readyState s) eqn:Er; try done. injection Hs as <- <-. cbn.
  apply inv_alter; [|done]. intros s' Hs'. rewrite E in Hs'. injection Hs' as <-.
  destruct (with_ready_keeps WS_OPEN s). repeat split; auto. congruence.
Qed.

Lemma Inv_sock_closed w sid r b :
  Inv w -> sock_closed sid (rt w) = Some (r, b) ->
  Inv {| this := this w; rt := r |}
  /\ (b = true -> settled (sockets r)).
Proof.
  open_world w. unfold sock_closed; cbn. intros H Hs.
  destruct (ss !! sid) as [s|] eqn:E; [|done].
  assert (Hr : r = update_socket sid (with_ready WS_CLOSED)
                 {| now := nw; sockets := ss; timers := ts; next_timer := nt;
                    effects := es; url_ok := ok; has_terminate := term |}
               /\ b = onclose s).
  { destruct (readyState s); try done; by injection Hs as <- <-. }
  destruct Hr as [-> ->]. cbn. split.
  - apply inv_alter; [|done]. intros s' Hs'.
    destruct (with_ready_keeps WS_CLOSED s'). repeat split; auto.
  - intros Hc k s' Hk Hc'.
    assert (wsh = Some sid) as ->
      by (eapply (inv_socket _ _ _ _ _ _ H); eauto using attached_onclose).
    destruct (decide (sid = k)) as [<-|Hne].
    + rewrite list_lookup_alter_eq, E in Hk. by injection Hk as <-.
    + rewrite list_lookup_alter_ne in Hk by done.
      pose proof (inv_socket _ _ _ _ _ _ H k s' Hk (attached_onclose _ Hc')). congruence.
Qed.

Lemma Inv_dispatch_same w (handler : World -> World) b :
  Inv w -> (forall w', Inv w' -> Inv (handler w')) ->
  Inv (dispatch (Some (rt w, b)) handler w).
Proof. intros H Hh. destruct b; cbn; [apply Hh|]; by destruct w. Qed.

Lemma Inv_step w e : Inv w -> Inv (step w e).
Proof.
  intros H. destruct e as [| |msg|msg|sid|sid d|sid c rs|sid m|op err|t|dt]; cbn [step].
  - by apply Inv_connect.
  - by apply Inv_disconnect.
  - by apply Inv_sendSafe.
  - by apply Inv_sendSafe.
  - destruct (sock_open sid (rt w)) as [[r b]|] eqn:E; [|done].
    pose proof (Inv_sock_open _ _ _ _ H E). destruct b; cbn; [by apply Inv_handleOpen|done].
  - unfold sock_message. destruct (sockets (rt w) !! sid) as [s|]; [|done].
    destruct (readyState s); try done; by apply Inv_dispatch_same, Inv_handleMessage.
  - destruct (sock_closed sid (rt w)) as [[r b]|] eqn:E; [|done].
    destruct (Inv_sock_closed _ _ _ _ H E) as [H1 H2].
    destruct b; cbn; [|done]. apply Inv_handleClose; auto.
  - unfold sock_error. destruct (sockets (rt w) !! sid) as [s|]; [|done].
    destruct (readyState s); try done;
      apply Inv_dispatch_same; auto; intros; by apply Inv_console.
  - done.
  - unfold fire. destruct (find_timer t (rt w)) as [x|] eqn:E; [|done].
    destruct (due x <=? now (rt w)); [|done].
    destruct (callback x) eqn:Ec; cbn [run_callback].
    + apply Inv_pingTick. unfold find_timer in E. apply find_some in E as [Hin Ht].
      apply Nat.eqb_eq in Ht. apply list_elem_of_In in Hin.
      open_world w. by apply inv_fire.
    + apply Inv_pongExpired. unfold find_timer in E. apply find_some in E as [Hin Ht].
      apply Nat.eqb_eq in Ht. apply list_elem_of_In in Hin.
      open_world w. by apply inv_fire.
    + by apply Inv_reconnectFired.
  - open_world w. unfold advance; cbn. by destruct (0 <=? dt).
Qed.

Lemma Inv_init args ok term : Inv (init args ok term).
Proof.
  unfold Inv; cbn. split; cbn; auto using NoDup_nil_2.
  - intros sid s Hs. by rewrite lookup_nil in Hs.
  - intros [? ?]; discriminate.
Qed.

Lemma Inv_run es : forall w, Inv w -> Inv (run w es).
Proof.
  induction es as [|e es IH]; intros w H; cbn; [done|].
  apply IH, Inv_step, H.
Qed.

(** *** At most one reconnect is pending *)

Lemma same_tid_short (l : list Timer) (t : nat) :
  NoDup (tid <$> l) -> Forall (fun x => tid x = t) l -> (length l <= 1)%nat.
Proof.
  destruct l as [|x [|y l]]; cbn; try lia.
  intros Hn Hf. exfalso.
  apply NoDup_cons in Hn as [Hx _]. apply Hx.
  apply Forall_cons in Hf as [Hx' Hf]. apply Forall_cons in Hf as [Hy' _].
  rewrite Hx', <- Hy'. apply list_elem_of_here.
Qed.

Lemma filter_none {A} (P : A -> Prop) `{forall x, Decision (P x)} (l : list A) :
  Forall (fun x => ~ P x) l -> filter P l = [].
Proof.
  induction 1 as [|x l Hx _ IH]; [done|].
  rewrite filter_cons. by destruct (decide (P x)).
Qed.

Lemma unarmed_none_pending ts n pT ss h :
  inv ts n None pT ss h -> filter (fun x => callback x = Reconnect) ts = [].
Proof.
  intros H. apply filter_none. eapply Forall_impl; [exact (inv_reconnect _ _ _ _ _ _ H)|].
  cbn. intros x Hx Hc. destruct (Hx Hc). discriminate.
Qed.

Lemma reconnect_pending_le_1 w : Inv w -> (length (pending Reconnect (rt w)) <= 1)%nat.
Proof.
  unfold Inv, pending. destruct (reconnectTimer (this w)) as [t|] eqn:E; intros H.
  - apply (same_tid_short _ t).
    + apply NoDup_tid_filter, H.
    + pose proof (inv_reconnect _ _ _ _ _ _ H) as H3.
      rewrite Forall_forall in *. intros x Hx.
      apply list_elem_of_filter in Hx as [Hc Hx]. destruct (H3 x Hx Hc). congruence.
  - erewrite unarmed_none_pending by eauto. cbn. lia.
Qed.

Lemma live_socket_unarmed w sid r :
  Inv w -> sock_closed sid (rt w) = Some (r, true) -> reconnectTimer (this w) = None.
Proof.
  intros H Hs. destruct (reconnectTimer (this w)) as [t|] eqn:E; [|done]. exfalso.
  unfold sock_closed in Hs. destruct (sockets (rt w) !! sid) as [s|] eqn:Es; [|done].
  unfold Inv in H. rewrite E in H.
  assert (onclose s = true) as Hc by (destruct (readyState s); congruence).
  pose proof (inv_armed _ _ _ _ _ _ H (mk_is_Some _ _ eq_refl) sid s Es Hc) as Hr.
  rewrite Hr in Hs. done.
Qed.

Lemma close_arms_one w sid code reason r :
  Inv w -> sock_closed sid (rt w) = Some (r, true) ->
  autoReconnect (this w) = true ->
  pending Reconnect (rt w) = []
  /\ exists x, pending Reconnect (rt (step w (SockClose sid code reason))) = [x]
              /\ due x = now (rt w) + RECONNECT_DELAY.
Proof.
  intros H Hs Ha. pose proof (live_socket_unarmed _ _ _ H Hs) as Hr.
  cbn [step]. rewrite Hs. cbn [dispatch].
  assert (Hn : now r = now (rt w) /\ timers r = timers (rt w)).
  { unfold sock_closed in Hs. destruct (sockets (rt w) !! sid) as [s|]; [|done].
    destruct (readyState s); try done; by injection Hs as <- _. }
  destruct Hn as [Hn Ht]. clear Hs.
  open_world w. subst arc rT.
  destruct r as [nw' ss' ts' nt' es' ok' term']. cbn in *. subst nw' ts'.
  pose proof (unarmed_none_pending _ _ _ _ _ H) as Hp.
  split; [exact Hp|].
  assert (Hno : Forall (fun x => ~ callback x = Reconnect) ts).
  { apply Forall_forall. intros x Hx Hc. exact (filter_nil_not_elem_of _ _ _ Hp Hc Hx). }
  unfold_methods; cbn. unfold pending.
  destruct ons, pT, poT; cbn; eexists;
    (split;
     [rewrite filter_app, filter_none by (repeat apply Forall_filter_keep; exact Hno);
      reflexivity
     |reflexivity]).
Qed.

(** *** What [disconnect] leaves behind *)

Lemma clearTimers_this w :
  this (clearTimers w) = set_reconnectTimer None (this w).
Proof. open_world w. unfold_methods; cbn. by destruct rT. Qed.

Lemma stopPinging_this w :
  this (stopPinging w) = set_pongTimeout None (set_pingTimer None (this w)).
Proof. open_world w. unfold_methods; cbn. by destruct pT, poT. Qed.

Lemma cleanupWS_this w : this (cleanupWS w) = set_ws None (this w).
Proof.
  open_world w. unfold_methods; cbn. destruct wsh; [|done].
  by destruct (ready_state _ _) as [[]|].
Qed.

Lemma disconnect_this w :
  this (disconnect w)
  = set_ws None (set_pongTimeout None (set_pingTimer None
      (set_reconnectTimer None (set_autoReconnect false (this w))))).
Proof.
  unfold disconnect.
  by rewrite notify_this, cleanupWS_this, stopPinging_this, clearTimers_this.
Qed.

Lemma Off_disconnect w : Inv w -> Off (disconnect w).
Proof.
  intros H. apply Inv_disconnect in H. unfold Inv in H.
  pose proof (disconnect_this w) as E. rewrite E in H. cbn in H.
  split; rewrite ?E; cbn; auto.
  - pose proof (inv_reconnect _ _ _ _ _ _ H) as H3.
    pose proof (inv_ping _ _ _ _ _ _ H) as H4.
    rewrite Forall_forall in *. intros x Hx.
    specialize (H3 x Hx). specialize (H4 x Hx).
    destruct (callback x); auto.
    + by specialize (H4 eq_refl).
    + by destruct (H3 eq_refl).
  - apply Forall_lookup. intros sid s Hs.
    destruct (attached s) eqn:Ea; [|done].
    by pose proof (inv_socket _ _ _ _ _ _ H sid s Hs Ea).
Qed.

(** *** A disconnected client stays silent *)

Lemma detached_slots s :
  attached s = false ->
  onopen s = false /\ onmessage s = false /\ onclose s = false /\ onerror s = false.
Proof. unfold attached. destruct (onopen s), (onmessage s), (onclose s), (onerror s); cbn; auto. Qed.

Lemma Forall_alter_ready r sid (ss : list Socket) :
  Forall (fun s => attached s = false) ss ->
  Forall (fun s => attached s = false) (alter (with_ready r) sid ss).
Proof.
  intros H. apply Forall_lookup. intros k s Hk.
  rewrite Forall_lookup in H.
  destruct (decide (sid = k)) as [->|Hne].
  - rewrite list_lookup_alter_eq in Hk. destruct (ss !! k) as [s0|] eqn:E; [|done].
    injection Hk as <-. destruct (with_ready_keeps r s0) as [-> _]. eauto.
  - rewrite list_lookup_alter_ne in Hk by done. eauto.
Qed.

Lemma Off_ready w r sid :
  Off w -> Off {| this := this w; rt := update_socket sid (with_ready r) (rt w) |}.
Proof. intros [Ha Hw Ht Hs]. split; cbn; auto using Forall_alter_ready. Qed.

Lemma Off_eta w : Off w -> Off {| this := this w; rt := rt w |}.
Proof. by destruct w. Qed.

Lemma extends_nil w w' :
  effects (rt w') = effects (rt w) -> exists es, extends w w' es /\ Forall quiet es.
Proof. intros E. exists []. unfold extends. by rewrite app_nil_r. Qed.

Lemma Off_slots w sid s :
  Off w -> sockets (rt w) !! sid = Some s ->
  onopen s = false /\ onmessage s = false /\ onclose s = false /\ onerror s = false.
Proof.
  intros H E. apply detached_slots.
  pose proof (off_sockets _ H) as Hs. rewrite Forall_lookup in Hs. eauto.
Qed.

Lemma Off_step w e :
  Off w -> e <> CallConnect ->
  Off (step w e) /\ exists es, extends w (step w e) es /\ Forall quiet es.
Proof.
  intros H He. pose proof H as [Ha Hw Ht Hs].
  destruct e as [| |msg|msg|sid|sid d|sid c rs|sid m|op err|t|dt]; cbn [step]; [done|..].
  - (* disconnect again *)
    clear H. unfold extends.
    destruct w as [[hst pint arc onc onm ons wsh pT poT rT] [nw ss ts nt es ok term]].
    cbn in *. subst. unfold_methods; cbn.
    destruct rT, pT, poT, ons; cbn;
      (split;
       [split; cbn; auto; unfold clearTimeout; cbn;
        repeat apply Forall_filter_keep; assumption
       |eexists; split; [reflexivity || (symmetry; apply app_nil_r)|];
        repeat constructor]).
  - unfold subscribe, sendSafe, ws_open, extends. rewrite Hw.
    destruct w as [c r]. split; [by split|]. eexists; split; [reflexivity|]. repeat constructor.
  - unfold unsubscribe, sendSafe, ws_open, extends. rewrite Hw.
    destruct w as [c r]. split; [by split|]. eexists; split; [reflexivity|]. repeat constructor.
  - unfold sock_open. destruct (sockets (rt w) !! sid) as [s|] eqn:E;
      [|split; [done|by apply extends_nil]].
    destruct (Off_slots _ _ _ H E) as (-> & _).
    destruct (readyState s); cbn; (split; [by auto using Off_ready|by apply extends_nil]).
  - unfold sock_message. destruct (sockets (rt w) !! sid) as [s|] eqn:E;
      [|split; [done|by apply extends_nil]].
    destruct (Off_slots _ _ _ H E) as (_ & -> & _).
    destruct (readyState s); cbn; (split; [by auto using Off_eta|by apply extends_nil]).
  - unfold sock_closed. destruct (sockets (rt w) !! sid) as [s|] eqn:E;
      [|split; [done|by apply extends_nil]].
    destruct (Off_slots _ _ _ H E) as (_ & _ & -> & _).
    destruct (readyState s); cbn; (split; [by auto using Off_ready|by apply extends_nil]).
  - unfold sock_error. destruct (sockets (rt w) !! sid) as [s|] eqn:E;
      [|split; [done|by apply extends_nil]].
    destruct (Off_slots _ _ _ H E) as (_ & _ & _ & ->).
    destruct (readyState s); cbn; (split; [by auto using Off_eta|by apply extends_nil]).
  - split; [done|by apply extends_nil].
  - unfold fire. destruct (find_timer t (rt w)) as [x|] eqn:E;
      [|split; [done|by apply extends_nil]].
    destruct (due x <=? now (rt w)); [|split; [done|by apply extends_nil]].
    unfold find_timer in E. apply find_some in E as [Hin _]. apply list_elem_of_In in Hin.
    pose proof Ht as Ht'. rewrite Forall_forall in Ht'. rewrite (Ht' x Hin).
    cbn [run_callback]. unfold pongExpired, console, on_rt, upd, extends. cbn.
    rewrite Hw.
    split.
    + split; cbn; auto. apply Forall_app. split; [by apply Forall_filter_keep|].
      unfold rearm. destruct (every x); [|done]. apply Forall_singleton. cbn. auto.
    + eexists; split; [reflexivity|]. repeat constructor.
  - destruct w as [c r]. unfold on_rt, upd, advance. cbn in *.
    destruct (0 <=? dt); (split; [by split|by apply extends_nil]).
Qed.

Lemma Off_run es : forall w,
  Off w -> CallConnect ∉ es ->
  Off (run w es) /\ exists new, extends w (run w es) new /\ Forall quiet new.
Proof.
  induction es as [|e es IH]; intros w H Hn.
  - split; [done|]. exists []. split; [|done]. unfold extends. cbn. by rewrite app_nil_r.
  - change (run w (e :: es)) with (run (step w e) es).
    apply not_elem_of_cons in Hn as [Hne Hn].
    destruct (Off_step w e H) as (H1 & es1 & E1 & Q1); [congruence|].
    destruct (IH _ H1 Hn) as (H2 & es2 & E2 & Q2).
    split; [done|]. exists (es1 ++ es2). split; [|by apply Forall_app].
    unfold extends in *. by rewrite E2, E1, app_assoc.
Qed.

(** Every reachable world satisfies the invariant. *)
Lemma reachable_Inv (w : World) : reachable w -> Inv w.
Proof. intros (args & ok & term & es & ->). apply Inv_run, Inv_init. Qed.

End Part001Facts.

(** ** ws-client.ts: after [disconnect] *)

(** The methods of ws-client.ts down to the operations of the runtime. *)
Ltac unfold_v :=
  unfold WsClient.sendDone, WsClient.unsubscribe, WsClient.subscribe,
    WsClient.disconnect, WsClient.reconnectFired, WsClient.onClose,
    WsClient.scheduleReconnect, WsClient.onError, WsClient.onMessage,
    WsClient.onOpen, WsClient.connect, WsClient.ws_open,
    WsClient.notifyStatusChange, WsClient.console, WsClient.on_this,
    WsClient.on_rt, WsClient.upd in *.

Ltac v_world w :=
  destruct w as [[hst arc onc onm ons wsh rc mc] [nw ss ts nt es ok term]]; cbn in *.

Section WsClientFacts.

Import WsClient.

Lemma v_extends_nil w w' :
  effects (rt w') = effects (rt w) ->
  exists es, v_extends w w' es /\ Forall no_attempt es.
Proof. intros E. exists []. split; [|done]. unfold v_extends. by rewrite app_nil_r. Qed.

(** The effects a method has added, each of them no connection attempt. *)
Ltac new_effects :=
  first [ by apply v_extends_nil
        | unfold v_extends; cbn; rewrite <- ?app_assoc; cbn;
          eexists; split; [reflexivity|]; repeat constructor ].


Lemma closed_onOpen w :
  manuallyClosed (this w) = true ->
  manuallyClosed (this (onOpen w)) = true
  /\ exists es, v_extends w (onOpen w) es /\ Forall no_attempt es.
Proof.
  v_world w. intros ->. unfold_v; cbn. destruct ons, onc; cbn; (split; [done|new_effects]).
Qed.

Lemma closed_onMessage d w :
  manuallyClosed (this w) = true ->
  manuallyClosed (this (onMessage d w)) = true
  /\ exists es, v_extends w (onMessage d w) es /\ Forall no_attempt es.
Proof.
  v_world w. intros ->. unfold_v; cbn. destruct d as [s|]; [|split; [done|new_effects]].
  destruct (truthy_string s); cbn; [|split; [done|new_effects]].
  destruct (onm && _); cbn; [|split; [done|new_effects]].
  destruct (JSON_parse s); cbn; (split; [done|new_effects]).
Qed.

Lemma closed_onClose w :
  manuallyClosed (this w) = true ->
  manuallyClosed (this (onClose w)) = true
  /\ exists es, v_extends w (onClose w) es /\ Forall no_attempt es.
Proof.
  v_world w. intros ->. unfold_v; cbn.
  destruct ons; cbn; rewrite orb_true_r; cbn; (split; [done|new_effects]).
Qed.

Lemma closed_onError w :
  manuallyClosed (this w) = true ->
  manuallyClosed (this (onError w)) = true
  /\ exists es, v_extends w (onError w) es /\ Forall no_attempt es.
Proof. v_world w. intros ->. unfold_v; cbn. split; [done|new_effects]. Qed.

Lemma closed_dispatch o (handler : World -> World) w :
  manuallyClosed (this w) = true ->
  (forall r b, o = Some (r, b) -> effects r = effects (rt w)) ->
  (forall w', manuallyClosed (this w') = true ->
     manuallyClosed (this (handler w')) = true
     /\ exists es, v_extends w' (handler w') es /\ Forall no_attempt es) ->
  manuallyClosed (this (dispatch o handler w)) = true
  /\ exists es, v_extends w (dispatch o handler w) es /\ Forall no_attempt es.
Proof.
  intros Hc Hr Hh. destruct o as [[r []]|]; cbn.
  - destruct (Hh {| this := this w; rt := r |} Hc) as (H1 & es & E & Q).
    split; [done|]. exists es. split; [|done].
    unfold v_extends in *. cbn in E. by rewrite E, (Hr r true).
  - split; [done|]. apply v_extends_nil. cbn. by apply (Hr r false).
  - split; [done|]. by apply v_extends_nil.
Qed.

Lemma sock_event_effects sid rt r b :
  sock_open sid rt = Some (r, b) \/ sock_message sid rt = Some (r, b)
  \/ sock_closed sid rt = Some (r, b) \/ sock_error sid rt = Some (r, b) ->
  effects r = effects rt /\ timers r = timers rt /\ now r = now rt
  /\ next_timer r = next_timer rt.
Proof.
  unfold sock_open, sock_message, sock_closed, sock_error.
  destruct (sockets rt !! sid) as [s|]; [|by intros [H|[H|[H|H]]]].
  destruct (readyState s); intros [H|[H|[H|H]]]; try done; by injection H as <- _.
Qed.

Lemma closed_step w e :
  manuallyClosed (this w) = true -> e <> CallConnect ->
  manuallyClosed (this (step w e)) = true
  /\ exists es, v_extends w (step w e) es /\ Forall no_attempt es.
Proof.
  intros Hc He.
  destruct e as [| |msg|msg|sid|sid d|sid c rs|sid m|op err|t|dt]; cbn [step]; [done|..].
  - v_world w. subst. unfold_v; cbn. destruct wsh as [sid|]; cbn; [|split; [done|new_effects]].
    destruct (is_open sid _); cbn; (split; [done|new_effects]).
  - v_world w. subst. unfold_v; cbn. destruct wsh as [sid|]; cbn; [|split; [done|new_effects]].
    destruct (is_open sid _); cbn; (split; [done|new_effects]).
  - v_world w. subst. unfold_v; cbn. destruct wsh as [sid|]; cbn; [|split; [done|new_effects]].
    destruct (is_open sid _); cbn; (split; [done|new_effects]).
  - apply closed_dispatch; auto using closed_onOpen.
    intros r b E. eapply sock_event_effects; eauto.
  - apply closed_dispatch; auto using closed_onMessage.
    intros r b E. eapply sock_event_effects; eauto.
  - apply closed_dispatch; auto using closed_onClose.
    intros r b E. eapply sock_event_effects; eauto 6.
  - apply closed_dispatch; auto using closed_onError.
    intros r b E. eapply sock_event_effects; eauto 6.
  - v_world w. subst. unfold_v; cbn. destruct err; cbn; [|split; [done|new_effects]].
    destruct wsh; cbn; (split; [done|new_effects]).
  - unfold fire. destruct (find_timer t (rt w)); [|split; [done|by apply v_extends_nil]].
    destruct (due _ <=? _); [|split; [done|by apply v_extends_nil]].
    destruct (callback _); cbn [run_callback]; try (split; [done|by apply v_extends_nil]).
    unfold reconnectFired. cbn. rewrite Hc. split; [done|by apply v_extends_nil].
  - v_world w. unfold_v. unfold advance. cbn.
    destruct (0 <=? dt); (split; [done|by apply v_extends_nil]).
Qed.

Lemma closed_run es : forall w,
  manuallyClosed (this w) = true -> CallConnect ∉ es ->
  exists new, v_extends w (run w es) new /\ Forall no_attempt new.
Proof.
  induction es as [|e es IH]; intros w H Hn.
  - by apply v_extends_nil.
  - change (run w (e :: es)) with (run (step w e) es).
    apply not_elem_of_cons in Hn as [Hne Hn].
    destruct (closed_step w e H) as (H1 & es1 & E1 & Q1); [congruence|].
    destruct (IH _ H1 Hn) as (es2 & E2 & Q2).
    exists (es1 ++ es2). split; [|by apply Forall_app].
    unfold v_extends in *. by rewrite E2, E1, app_assoc.
Qed.

End WsClientFacts.

(** ** The constructor and the first connection *)

(** C9.  In part_001 a [pingInterval] argument that is falsy (0, -0, NaN
    or left undefined) is replaced by the default of 5000 ms, and that is
    the period the ping interval is armed with. *)
Theorem falsy_pingInterval_falls_back (args : Part001.Args) :
  match Part001.arg_pingInterval args with
  | Some n => truthy n = false
  | None => True
  end ->
  Part001.pingInterval (Part001.constructor (Some args)) = Finite 5000
  /\ timer_delay (Part001.pingInterval (Part001.constructor (Some args))) = 5000.
Proof.
  intros Hf. unfold Part001.constructor. cbn.
  destruct (Part001.arg_pingInterval args) as [n|]; [rewrite Hf|]; by split.
Qed.

Lemma falsy_pingInterval_falls_back_zero :
  let args :=
    {| Part001.arg_onConnect := false; Part001.arg_onMessage := false;
       Part001.arg_onStatusChange := false; Part001.arg_host := None;
       Part001.arg_pingInterval := Some (Finite 0);
       Part001.arg_autoReconnect := None |} in
  Part001.pingInterval (Part001.constructor (Some args)) = Finite 5000
  /\ timer_delay (Part001.pingInterval (Part001.constructor (Some args))) = 5000.
Proof.
  intros args. apply (falsy_pingInterval_falls_back args). reflexivity.
Defined.

(** The falsy numbers are exactly 0, -0 and NaN. *)
Lemma falsy_number (n : Number) :
  truthy n = false <-> n = Finite 0 \/ n = NegZero \/ n = NaN.
Proof.
  split.
  - destruct n as [z| | |b]; cbn; intros H; auto; try discriminate.
    left. f_equal. apply negb_false_iff in H. lia.
  - by intros [->|[->| ->]].
Qed.

(** C10.  In ws-client.ts [connect] on an instance whose socket is open
    only resets [manuallyClosed]: the other fields and the whole runtime
    (sockets with their handlers, timers, effects) stay as they are. *)
Theorem connect_while_open_is_idle (w : WsClient.World) :
  WsClient.ws_open w = true ->
  WsClient.this (WsClient.connect w)
    = WsClient.set_manuallyClosed false (WsClient.this w)
  /\ WsClient.rt (WsClient.connect w) = WsClient.rt w.
Proof.
  intros H. unfold WsClient.connect.
  replace (WsClient.ws_open (WsClient.on_this (WsClient.set_manuallyClosed false) w))
    with true by done.
  by split.
Qed.

Lemma connect_while_open_is_idle_online :
  WsClient.this (WsClient.connect online_plain)
    = WsClient.set_manuallyClosed false (WsClient.this online_plain)
  /\ WsClient.rt (WsClient.connect online_plain) = WsClient.rt online_plain.
Proof. apply (connect_while_open_is_idle online_plain). reflexivity. Defined.

(** C8.  On a fresh instance of either draft whose owner passed a status
    callback, [connect] followed by the open event of the socket it
    created notifies CONNECTING and then CONNECTED, each once, and nothing
    else. *)
Theorem first_connection_statuses
  (a1 : option WsClient.Args) (a2 : option Part001.Args)
  (ok : string -> bool) (term : bool) :
  WsClient.onStatusChange (WsClient.constructor a1) = true ->
  Part001.onStatusChange (Part001.constructor a2) = true ->
  ok (WsClient.host (WsClient.constructor a1)) = true ->
  ok (Part001.host (Part001.constructor a2)) = true ->
  statuses (effects (WsClient.rt
    (WsClient.run (WsClient.init a1 ok term) [CallConnect; SockOpen 0])))
    = [CONNECTING; CONNECTED]
  /\ statuses (effects (Part001.rt
    (Part001.run (Part001.init a2 ok term) [CallConnect; SockOpen 0])))
    = [CONNECTING; CONNECTED].
Proof.
  intros H1 H2 O1 O2. split.
  - unfold WsClient.init.
    assert (Hws : WsClient.ws (WsClient.constructor a1) = None) by reflexivity.
    destruct (WsClient.constructor a1) as [h ar oc om os ws rc mc].
    cbn in *. subst.
    unfold WsClient.connect. cbn. rewrite O1. cbn. destruct oc; reflexivity.
  - unfold Part001.init.
    assert (Hws : Part001.ws (Part001.constructor a2) = None) by reflexivity.
    assert (Hrt : Part001.reconnectTimer (Part001.constructor a2) = None) by reflexivity.
    assert (Hpt : Part001.pingTimer (Part001.constructor a2) = None) by reflexivity.
    assert (Hpo : Part001.pongTimeout (Part001.constructor a2) = None) by reflexivity.
    destruct (Part001.constructor a2) as [h pi ar oc om os ws pt po rt].
    cbn in *. subst.
    unfold Part001.connect. cbn. rewrite O2. cbn.
    unfold Part001.handleOpen. cbn. destruct oc; reflexivity.
Qed.

Lemma first_connection_statuses_observed :
  statuses (effects (WsClient.rt online_plain)) = [CONNECTING; CONNECTED]
  /\ statuses (effects (Part001.rt online)) = [CONNECTING; CONNECTED].
Proof.
  apply (first_connection_statuses (Some observed_plain) (Some observed) accept_all true);
    reflexivity.
Defined.

(** ** Sending *)

(** C7.  [subscribe] and [unsubscribe] on an instance whose socket is not
    open leave the fields of the instance alone and do one thing to the
    runtime: a console call (warn in ws-client.ts, error in part_001).  No
    frame goes out, nothing is thrown, and nothing of the message is kept
    anywhere: the world after the call is the same for every message, so
    nothing later can depend on it. *)
Theorem send_while_not_open (msg msg' : JSObject) (w1 : WsClient.World)
  (w2 : Part001.World) :
  WsClient.ws_open w1 = false ->
  Part001.ws_open w2 = false ->
  (WsClient.this (WsClient.subscribe msg w1) = WsClient.this w1
   /\ WsClient.rt (WsClient.subscribe msg w1)
      = emit (Console Warn "subscribe failed: socket not open") (WsClient.rt w1))
  /\ (WsClient.this (WsClient.unsubscribe msg w1) = WsClient.this w1
      /\ WsClient.rt (WsClient.unsubscribe msg w1)
         = emit (Console Warn "unsubscribe failed: socket not open") (WsClient.rt w1))
  /\ (Part001.this (Part001.subscribe msg w2) = Part001.this w2
      /\ Part001.rt (Part001.subscribe msg w2)
         = emit (Console Error "Cannot send message: WebSocket not open.") (Part001.rt w2))
  /\ (Part001.this (Part001.unsubscribe msg w2) = Part001.this w2
      /\ Part001.rt (Part001.unsubscribe msg w2)
         = emit (Console Error "Cannot send message: WebSocket not open.") (Part001.rt w2))
  /\ (WsClient.subscribe msg w1 = WsClient.subscribe msg' w1
      /\ WsClient.unsubscribe msg w1 = WsClient.unsubscribe msg' w1
      /\ Part001.subscribe msg w2 = Part001.subscribe msg' w2
      /\ Part001.unsubscribe msg w2 = Part001.unsubscribe msg' w2).
Proof.
  intros H1 H2.
  unfold WsClient.subscribe, WsClient.unsubscribe, Part001.subscribe,
    Part001.unsubscribe, Part001.sendSafe.
  rewrite H1, H2. cbn. by destruct w1, w2.
Qed.

Lemma send_while_not_open_fresh :
  let msg := [("topic", JStr "X")] in
  frames (effects (WsClient.rt (WsClient.subscribe msg fresh_plain))) = []
  /\ frames (effects (Part001.rt (Part001.subscribe msg fresh))) = []
  /\ WsClient.this (WsClient.unsubscribe msg fresh_plain) = WsClient.this fresh_plain
  /\ Part001.this (Part001.unsubscribe msg fresh) = Part001.this fresh.
Proof.
  intros msg.
  destruct (send_while_not_open msg [] fresh_plain fresh eq_refl eq_refl)
    as ((_ & E1) & (T2 & _) & (_ & E3) & (T4 & _) & _).
  rewrite E1, E3. repeat split; assumption.
Defined.

(** C6, as the code has it.  On an instance of either draft whose socket
    is open, [subscribe] and [unsubscribe] send one frame, the JSON text
    of the object [{ action: ..., ...msg }].  Every field of [msg] is in
    that object with its value, the object has no other field than
    [action] and those of [msg], and [action] is the injected word
    whenever [msg] has no [action] field of its own.  When [msg] is well
    formed, parsing the frame gives that object back.  For [{topic:"X"}]
    the frame is {"action":"subscribe","topic":"X"}. *)
Theorem subscription_frame (msg : JSObject) (w1 : WsClient.World)
  (w2 : Part001.World) (s1 s2 : nat) :
  NoDup msg.*1 ->
  WsClient.ws (WsClient.this w1) = Some s1 -> is_open s1 (WsClient.rt w1) = true ->
  Part001.ws (Part001.this w2) = Some s2 -> is_open s2 (Part001.rt w2) = true ->
  let sub := spread [("action", JStr "subscribe")] msg in
  let unsub := spread [("action", JStr "unsubscribe")] msg in
  (WsClient.rt (WsClient.subscribe msg w1)
     = emit (Send s1 (JSON_stringify (JObj sub))) (WsClient.rt w1)
   /\ WsClient.rt (WsClient.unsubscribe msg w1)
     = emit (Send s1 (JSON_stringify (JObj unsub))) (WsClient.rt w1)
   /\ Part001.rt (Part001.subscribe msg w2)
     = emit (Send s2 (JSON_stringify (JObj sub))) (Part001.rt w2)
   /\ Part001.rt (Part001.unsubscribe msg w2)
     = emit (Send s2 (JSON_stringify (JObj unsub))) (Part001.rt w2))
  /\ (forall k v, obj_get k msg = Some v ->
        obj_get k sub = Some v /\ obj_get k unsub = Some v)
  /\ (forall k, k <> "action" -> obj_get k msg = None ->
        obj_get k sub = None /\ obj_get k unsub = None)
  /\ (obj_get "action" msg = None ->
        obj_get "action" sub = Some (JStr "subscribe")
        /\ obj_get "action" unsub = Some (JStr "unsubscribe"))
  /\ (wf_value (JObj msg) = true ->
        JSON_parse (JSON_stringify (JObj sub)) = Some (JObj sub)
        /\ JSON_parse (JSON_stringify (JObj unsub)) = Some (JObj unsub))
  /\ JSON_stringify (JObj (spread [("action", JStr "subscribe")] [("topic", JStr "X")]))
     = frame_subscribe_X.
Proof.
  intros Hn W1 O1 W2 O2 sub unsub. repeat split.
  - unfold WsClient.subscribe, WsClient.ws_open. rewrite W1, O1. cbn. by rewrite ?W1.
  - unfold WsClient.unsubscribe, WsClient.ws_open. rewrite W1, O1. cbn. by rewrite ?W1.
  - unfold Part001.subscribe, Part001.sendSafe, Part001.ws_open. rewrite W2, O2. done.
  - unfold Part001.unsubscribe, Part001.sendSafe, Part001.ws_open. rewrite W2, O2. done.
  - unfold sub. rewrite obj_get_spread by done. by rewrite H.
  - unfold unsub. rewrite obj_get_spread by done. by rewrite H.
  - unfold sub. rewrite obj_get_spread by done. rewrite H0. cbn. by rewrite eqb_ne.
  - unfold unsub. rewrite obj_get_spread by done. rewrite H0. cbn. by rewrite eqb_ne.
  - unfold sub. rewrite obj_get_spread by done. by rewrite H.
  - unfold unsub. rewrite obj_get_spread by done. by rewrite H.
  - by apply JSON_parse_stringify, wf_envelope.
  - by apply JSON_parse_stringify, wf_envelope.
Qed.

Lemma subscription_frame_topic_X :
  frames (effects (WsClient.rt (WsClient.subscribe [("topic", JStr "X")] online_plain)))
    = [frame_subscribe_X]
  /\ frames (effects (Part001.rt (Part001.subscribe [("topic", JStr "X")] online)))
    = [frame_subscribe_X]
  /\ JSON_parse frame_subscribe_X
    = Some (JObj [("action", JStr "subscribe"); ("topic", JStr "X")]).
Proof.
  assert (Hn : NoDup [("topic", JStr "X")].*1) by (cbn; apply NoDup_singleton).
  destruct (subscription_frame [("topic", JStr "X")] online_plain online 0%nat 0%nat
              Hn eq_refl eq_refl eq_refl eq_refl)
    as ((E1 & _ & E3 & _) & _ & _ & _ & _ & E).
  rewrite E1, E3, E. repeat split; vm_compute; reflexivity.
Defined.

(** C6, as the claim has it, fails on a message with an [action] field of
    its own: the spread comes after the injected field and overrides it,
    in both drafts. *)
Lemma own_action_field_wins :
  let msg := [("action", JStr "leave"); ("topic", JStr "X")] in
  let sent := "{" +:+ quoted "action" +:+ ":" +:+ quoted "leave" +:+ ","
                  +:+ quoted "topic" +:+ ":" +:+ quoted "X" +:+ "}" in
  frames (effects (WsClient.rt (WsClient.subscribe msg online_plain))) = [sent]
  /\ frames (effects (Part001.rt (Part001.subscribe msg online))) = [sent]
  /\ obj_get "action" (spread [("action", JStr "subscribe")] msg) = Some (JStr "leave").
Proof. vm_compute. repeat split. Qed.

(** ** Received frames *)

(** Neither the empty text nor the pong token is a JSON text. *)
Lemma parsed_is_payload (frame : string) (v : JSValue) :
  JSON_parse frame = Some v ->
  (0 <? String.length frame)%nat = true /\ String.eqb frame "pong" = false.
Proof.
  intros H. split.
  - destruct frame; [discriminate H|reflexivity].
  - destruct (String.eqb_spec frame "pong") as [->|]; [discriminate H|reflexivity].
Qed.

(** C2, as the code has it.  part_001: the pong token is never handed to
    the message callback; a frame that parses is handed to the callback
    once, as the parsed value, and nothing else happens; a non-empty frame
    other than the pong token that does not parse is reported on the
    console and nothing else happens, so no socket is closed; the empty
    frame is ignored without a report.  ws-client.ts: a frame without the
    substring "payload" is ignored, whatever it is; one with it is parsed
    and handed over or reported in the same way.  Both hand a frame over
    only when the owner passed a message callback.  The frame {"a":1}
    parses to [{a:1}]. *)
Theorem message_dispatch (frame : string) (w1 : WsClient.World)
  (w2 : Part001.World) :
  messages (effects (Part001.rt (Part001.handleMessage (Text "pong") w2)))
    = messages (effects (Part001.rt w2))
  /\ (forall v, JSON_parse frame = Some v ->
        Part001.onCustomMessage (Part001.this w2) = true ->
        Part001.this (Part001.handleMessage (Text frame) w2) = Part001.this w2
        /\ Part001.rt (Part001.handleMessage (Text frame) w2)
           = emit (OnMessage v) (Part001.rt w2))
  /\ (frame <> EmptyString -> frame <> "pong" -> JSON_parse frame = None ->
        Part001.this (Part001.handleMessage (Text frame) w2) = Part001.this w2
        /\ Part001.rt (Part001.handleMessage (Text frame) w2)
           = emit (Console Error "Failed to parse message:") (Part001.rt w2))
  /\ Part001.handleMessage (Text EmptyString) w2 = w2
  /\ (WsClient.includes "payload" frame = false ->
        WsClient.onMessage (Text frame) w1 = w1)
  /\ (forall v, WsClient.includes "payload" frame = true ->
        JSON_parse frame = Some v ->
        WsClient.onCustomMessage (WsClient.this w1) = true ->
        WsClient.this (WsClient.onMessage (Text frame) w1) = WsClient.this w1
        /\ WsClient.rt (WsClient.onMessage (Text frame) w1)
           = emit (OnMessage v) (WsClient.rt w1))
  /\ (WsClient.includes "payload" frame = true ->
        JSON_parse frame = None ->
        WsClient.onCustomMessage (WsClient.this w1) = true ->
        WsClient.this (WsClient.onMessage (Text frame) w1) = WsClient.this w1
        /\ WsClient.rt (WsClient.onMessage (Text frame) w1)
           = emit (Console Error "message parse error") (WsClient.rt w1))
  /\ JSON_parse frame_a1 = Some (JObj [("a", JNum "1")]).
Proof.
  split; [|split; [|split; [|split; [|split; [|split; [|split]]]]]].
  - cbn. unfold Part001.clearPongTimeout.
    by destruct (Part001.pongTimeout (Part001.this w2)).
  - intros v Hv Hc. destruct (parsed_is_payload _ _ Hv) as [Hl Hp].
    unfold Part001.handleMessage. rewrite Hl, Hp, Hv, Hc. by destruct w2.
  - intros He Hp Hv. unfold Part001.handleMessage.
    destruct frame as [|c s]; [done|]. cbn [String.length Nat.ltb Nat.leb].
    replace (String.eqb (String c s) "pong") with false
      by (symmetry; by apply String.eqb_neq).
    rewrite Hv. by destruct w2.
  - reflexivity.
  - intros Hi. unfold WsClient.onMessage. rewrite Hi, andb_false_r.
    by destruct (negb _).
  - intros v Hi Hv Hc. destruct (parsed_is_payload _ _ Hv) as [Hl _].
    unfold WsClient.onMessage. rewrite Hi, Hv, Hc.
    destruct frame; [discriminate Hl|]. by destruct w1.
  - intros Hi Hv Hc. unfold WsClient.onMessage. rewrite Hi, Hv, Hc.
    destruct frame; [discriminate Hi|]. by destruct w1.
  - vm_compute. reflexivity.
Qed.

Lemma message_dispatch_a1 :
  messages (effects (Part001.rt (Part001.handleMessage (Text frame_a1) online)))
    = [JObj [("a", JNum "1")]]
  /\ WsClient.onMessage (Text frame_a1) online_plain = online_plain
  /\ effects (Part001.rt (Part001.handleMessage (Text "{") online))
     = effects (Part001.rt online) ++ [Console Error "Failed to parse message:"].
Proof.
  destruct (message_dispatch frame_a1 online_plain online)
    as (_ & Hv & _ & _ & Hi & _).
  destruct (message_dispatch "{" online_plain online) as (_ & _ & He & _).
  destruct (Hv (JObj [("a", JNum "1")]) eq_refl eq_refl) as [_ ->].
  destruct He as [_ ->]; [discriminate|discriminate|reflexivity|].
  split; [reflexivity|]. split; [|reflexivity].
  apply Hi. reflexivity.
Defined.

(** C2, as the claim has it, fails in ws-client.ts on the frame {"a":1},
    which parses and is not handed to the message callback, and in
    part_001 on the empty frame, which does not parse and is not
    reported. *)
Lemma json_frame_without_payload_is_dropped :
  JSON_parse frame_a1 = Some (JObj [("a", JNum "1")])
  /\ WsClient.onCustomMessage (WsClient.this online_plain) = true
  /\ messages (effects (WsClient.rt
       (WsClient.run online_plain [SockMessage 0 (Text frame_a1)]))) = []
  /\ JSON_parse EmptyString = None
  /\ effects (Part001.rt (Part001.run online [SockMessage 0 (Text EmptyString)]))
     = effects (Part001.rt online).
Proof. vm_compute. repeat split. Qed.

(** ** The liveness monitor of part_001 *)

(** A tick of the ping interval on an open socket sends one ping and arms
    a pong timeout [PONG_TIMEOUT] ms ahead, whose handle replaces the
    stored one. *)
Lemma ping_arms_timeout (w : Part001.World) (sid : nat) :
  Part001.ws (Part001.this w) = Some sid -> is_open sid (Part001.rt w) = true ->
  let w' := Part001.pingTick w in
  effects (Part001.rt w') = effects (Part001.rt w) ++ [Send sid "ping"]
  /\ timers (Part001.rt w')
     = timers (Part001.rt w) ++
       [{| tid := next_timer (Part001.rt w); callback := PongExpired;
           due := now (Part001.rt w) + 10000; every := None |}]
  /\ Part001.pongTimeout (Part001.this w') = Some (next_timer (Part001.rt w)).
Proof.
  intros Hw Ho. unfold Part001.pingTick. rewrite Hw, Ho. by destruct w.
Qed.

Lemma find_filtered (t : nat) (ts : list Timer) :
  List.find (fun x => Nat.eqb (tid x) t) (filter (fun x => tid x ≠ t) ts) = None.
Proof.
  induction ts as [|x ts IH]; [done|].
  rewrite filter_cons. destruct (decide (tid x ≠ t)) as [Hne|]; [|done].
  cbn. by apply Nat.eqb_neq in Hne as ->.
Qed.

(** A pong cancels the timeout whose handle the instance holds. *)
Lemma pong_cancels_stored_timeout (w : Part001.World) (t : nat) :
  Part001.pongTimeout (Part001.this w) = Some t ->
  let w' := Part001.handleMessage (Text "pong") w in
  find_timer t (Part001.rt w') = None
  /\ Part001.pongTimeout (Part001.this w') = None
  /\ timers (Part001.rt w') = filter (fun x => tid x ≠ t) (timers (Part001.rt w)).
Proof.
  intros Hp. cbn. unfold Part001.clearPongTimeout. rewrite Hp.
  unfold find_timer. cbn. split; [apply find_filtered|done].
Qed.

(** A pong timeout that fires while the instance holds a socket calls
    [terminate], where sockets have it, and [close] on that socket. *)
Lemma pong_timeout_forces_close (w : Part001.World) (sid : nat) :
  Part001.ws (Part001.this w) = Some sid ->
  effects (Part001.rt (Part001.pongExpired w))
  = effects (Part001.rt w)
    ++ [Console Warn "WebSocket Pong timeout. Terminating connection..."]
    ++ (if has_terminate (Part001.rt w) then [Terminate sid] else [])
    ++ [Close sid].
Proof.
  intros Hw. unfold Part001.pongExpired. cbn. rewrite Hw.
  destruct w as [c r]. cbn. destruct (has_terminate r); cbn;
    by rewrite <- ?app_assoc.
Qed.

Lemma find_fresh (t : nat) (ts : list Timer) (x : Timer) :
  tid x = t -> Forall (fun y => (tid y < t)%nat) ts ->
  List.find (fun y => Nat.eqb (tid y) t) (ts ++ [x]) = Some x.
Proof.
  intros <-. induction 1 as [|y ts Hy _ IH]; cbn.
  - by rewrite Nat.eqb_refl.
  - replace (tid y =? tid x)%nat with false; [done|].
    symmetry. apply Nat.eqb_neq. lia.
Qed.

(** A ping that stays unanswered: [PONG_TIMEOUT] ms after the tick that
    sent it, its timeout runs and the socket is terminated and closed. *)
Lemma unanswered_ping_closes (w : Part001.World) (sid : nat) :
  reachable w ->
  Part001.ws (Part001.this w) = Some sid -> is_open sid (Part001.rt w) = true ->
  let w' := Part001.run (Part001.pingTick w)
              [Wait Part001.PONG_TIMEOUT; Fire (next_timer (Part001.rt w))] in
  now (Part001.rt w') = now (Part001.rt w) + 10000
  /\ effects (Part001.rt w')
     = effects (Part001.rt w)
       ++ [Send sid "ping";
           Console Warn "WebSocket Pong timeout. Terminating connection..."]
       ++ (if has_terminate (Part001.rt w) then [Terminate sid] else [])
       ++ [Close sid].
Proof.
  intros Hr Hw Ho. apply reachable_Inv in Hr.
  pose proof (inv_fresh _ _ _ _ _ _ Hr) as Hf.
  unfold Part001.pingTick. rewrite Hw, Ho.
  destruct w as [c r]. cbn in Hw, Hf |- *.
  unfold fire, find_timer. cbn.
  erewrite find_fresh by (reflexivity || exact Hf).
  cbn. rewrite Z.leb_refl. cbn.
  unfold Part001.pongExpired. cbn. rewrite Hw.
  destruct (has_terminate r); cbn; split; try done; by rewrite <- !app_assoc.
Qed.

(** C1 fails on [slow_pong].  Both pings are out, the pong arrives 5100 ms
    after the first and 100 ms after the second, within the 10000 ms of
    either.  The second tick overwrote the handle of the first timeout
    without clearing it, so the pong cancels only the second: the first
    is still pending, fires at 15100 and terminates the socket that has
    just answered. *)
Theorem late_pong_leaves_first_timeout :
  let w := Part001.run fresh slow_pong in
  frames (effects (Part001.rt w)) = ["ping"; "ping"]
  /\ now (Part001.rt w) = 10200
  /\ Part001.pongTimeout (Part001.this w) = None
  /\ pending PongExpired (Part001.rt w)
     = [{| tid := 2; callback := PongExpired; due := 15100; every := None |}]
  /\ ready_state 0 (Part001.rt w) = Some WS_OPEN
  /\ let w' := Part001.run w [Wait 4900; Fire 2] in
     effects (Part001.rt w')
     = effects (Part001.rt w)
       ++ [Console Warn "WebSocket Pong timeout. Terminating connection...";
           Terminate 0; Close 0]
     /\ ready_state 0 (Part001.rt w') = Some WS_CLOSING.
Proof. vm_compute. repeat split. Qed.

(** ** Reconnecting *)

(** part_001 keeps the reconnect single-flight: in every reachable world
    at most one reconnect is pending, an arm request while one is pending
    changes nothing, and a close event that reaches the instance while
    [autoReconnect] is on finds none pending and arms exactly one,
    [RECONNECT_DELAY] ms ahead. *)
Theorem part001_reconnect_single_flight (w : Part001.World) :
  reachable w ->
  (length (pending Reconnect (Part001.rt w)) <= 1)%nat
  /\ (is_Some (Part001.reconnectTimer (Part001.this w)) ->
      Part001.scheduleReconnect w = w)
  /\ (forall sid code reason r,
        sock_closed sid (Part001.rt w) = Some (r, true) ->
        Part001.autoReconnect (Part001.this w) = true ->
        pending Reconnect (Part001.rt w) = []
        /\ exists x,
             pending Reconnect (Part001.rt (Part001.step w (SockClose sid code reason)))
               = [x]
             /\ due x = now (Part001.rt w) + 3000).
Proof.
  intros Hr. apply reachable_Inv in Hr. split; [by apply reconnect_pending_le_1|]. split.
  - intros [t Ht]. unfold Part001.scheduleReconnect. by rewrite Ht.
  - intros sid code reason r Hs Ha. by eapply close_arms_one.
Qed.

Lemma part001_reconnect_single_flight_online :
  pending Reconnect (Part001.rt online) = []
  /\ exists x,
       pending Reconnect
         (Part001.rt (Part001.step online (SockClose 0 1006 "abnormal"))) = [x]
       /\ due x = now (Part001.rt online) + 3000.
Proof.
  assert (Hr : reachable online).
  { exists (Some observed), accept_all, true, [CallConnect; SockOpen 0]. reflexivity. }
  destruct (part001_reconnect_single_flight online Hr) as (_ & _ & H).
  apply (H 0%nat 1006 "abnormal"
           (update_socket 0 (with_ready WS_CLOSED) (Part001.rt online)));
    vm_compute; reflexivity.
Defined.

(** C3 fails in ws-client.ts on [impatient_owner].  [onClose] resets
    [reconnecting] before it calls [scheduleReconnect], so the guard of
    [scheduleReconnect] never holds there and every close arms a timer of
    its own: with [autoReconnect] on and no [disconnect], two reconnects
    are pending after the second close. *)
Theorem manual_connect_doubles_reconnect :
  let w := WsClient.run fresh_plain impatient_owner in
  WsClient.autoReconnect (WsClient.this w) = true
  /\ WsClient.manuallyClosed (WsClient.this w) = false
  /\ pending Reconnect (WsClient.rt w)
     = [{| tid := 1; callback := Reconnect; due := 3000; every := None |};
        {| tid := 2; callback := Reconnect; due := 5000; every := None |}].
Proof. vm_compute. repeat split. Qed.

(** ** Disconnecting *)

(** C5 fails in ws-client.ts: [disconnect] closes the socket only when it
    is open, so a socket that is still connecting stays attached, and
    when it opens the owner is told CONNECTED after [disconnect] has
    returned. *)
Theorem connected_after_disconnect :
  let w := WsClient.run fresh_plain [CallConnect; CallDisconnect] in
  statuses (effects (WsClient.rt w)) = [CONNECTING]
  /\ statuses (effects (WsClient.rt (WsClient.run w [SockOpen 0])))
     = [CONNECTING; CONNECTED].
Proof. vm_compute. repeat split. Qed.



Lemma ready_state_detach (sid : nat) (b : bool) (r : Runtime) :
  ready_state sid (update_socket sid (with_handlers b) r) = ready_state sid r.
Proof.
  unfold ready_state, update_socket. cbn. rewrite list_lookup_alter_eq.
  by destruct (sockets r !! sid).
Qed.

Lemma cleanupWS_effects (w : Part001.World) :
  effects (Part001.rt (Part001.cleanupWS w))
  = effects (Part001.rt w)
    ++ match Part001.ws (Part001.this w) with
       | Some sid =>
           match ready_state sid (Part001.rt w) with
           | Some WS_CLOSED => []
           | _ => [Close sid]
           end
       | None => []
       end
  /\ timers (Part001.rt (Part001.cleanupWS w)) = timers (Part001.rt w).
Proof.
  unfold Part001.cleanupWS. destruct (Part001.ws (Part001.this w)) as [sid|];
    [|by rewrite app_nil_r].
  cbn. rewrite ready_state_detach.
  destruct (ready_state sid (Part001.rt w)) as [[]|]; cbn; by rewrite ?app_nil_r.
Qed.

Lemma quiet_timers_effects (w : Part001.World) :
  effects (Part001.rt (Part001.stopPinging (Part001.clearTimers w)))
    = effects (Part001.rt w)
  /\ sockets (Part001.rt (Part001.stopPinging (Part001.clearTimers w)))
    = sockets (Part001.rt w)
  /\ forall t, Part001.pongTimeout (Part001.this w) = Some t ->
       find_timer t (Part001.rt (Part001.stopPinging (Part001.clearTimers w))) = None.
Proof.
  open_world w. unfold_methods; cbn.
  destruct rT, pT, poT; cbn; repeat split; try done;
    intros t [= <-]; apply find_filtered.
Qed.

Lemma all_pong_none_pending (cb : Callback) (r : Runtime) :
  cb <> PongExpired ->
  Forall (fun x => callback x = PongExpired) (timers r) -> pending cb r = [].
Proof.
  intros Hc H. apply filter_none. eapply Forall_impl; [exact H|].
  cbn. congruence.
Qed.

Lemma plain_disconnect_sockets (w : WsClient.World) (sid : nat) :
  attached <$> sockets (WsClient.rt (WsClient.disconnect w)) !! sid
  = attached <$> sockets (WsClient.rt w) !! sid.
Proof.
  unfold WsClient.disconnect. cbn.
  destruct (WsClient.ws_open _); [|done].
  destruct (WsClient.ws (WsClient.this w)) as [k|]; [|done]. cbn.
  destruct (decide (k = sid)) as [->|Hne].
  - rewrite list_lookup_alter_eq. destruct (sockets (WsClient.rt w) !! sid) as [s|]; [|done].
    cbn. f_equal. apply closing_keeps.
  - by rewrite list_lookup_alter_ne.
Qed.

(** C4, as the code has it.  part_001, in a reachable world: [disconnect]
    turns [autoReconnect] off and clears the four handles; no reconnect
    and no ping interval is pending afterwards, and the pong timeout whose
    handle was stored is gone; no socket is attached; the socket the
    instance held is closed unless it was closed already, and the owner,
    if it passed a status callback, is told DISCONNECTED; whatever events
    follow, short of a new [connect], only console output and
    DISCONNECTED notifications can come.  ws-client.ts, in any world:
    [disconnect] turns [autoReconnect] off and sets [manuallyClosed]; it
    cancels no timer, leaves every handler slot as it is and notifies
    nobody; it closes the socket if that is open; whatever events follow,
    short of a new [connect], no socket is created and no CONNECTING is
    notified. *)
Theorem disconnect_effects (w1 : WsClient.World) (w2 : Part001.World)
  (es : list Event) :
  reachable w2 -> CallConnect ∉ es ->
  (* part_001 *)
  Part001.this (Part001.disconnect w2)
  = Part001.set_ws None (Part001.set_pongTimeout None (Part001.set_pingTimer None
      (Part001.set_reconnectTimer None
         (Part001.set_autoReconnect false (Part001.this w2)))))
  /\ pending Reconnect (Part001.rt (Part001.disconnect w2)) = []
  /\ pending PingTick (Part001.rt (Part001.disconnect w2)) = []
  /\ (forall t, Part001.pongTimeout (Part001.this w2) = Some t ->
        find_timer t (Part001.rt (Part001.disconnect w2)) = None)
  /\ Forall (fun s => attached s = false) (sockets (Part001.rt (Part001.disconnect w2)))
  /\ effects (Part001.rt (Part001.disconnect w2))
     = effects (Part001.rt w2)
       ++ match Part001.ws (Part001.this w2) with
          | Some sid =>
              match ready_state sid (Part001.rt w2) with
              | Some WS_CLOSED => []
              | _ => [Close sid]
              end
          | None => []
          end
       ++ (if Part001.onStatusChange (Part001.this w2)
           then [StatusChange DISCONNECTED] else [])
  /\ (exists new,
        effects (Part001.rt (Part001.run (Part001.disconnect w2) es))
          = effects (Part001.rt (Part001.disconnect w2)) ++ new
        /\ Forall quiet new)
  (* ws-client.ts *)
  /\ WsClient.this (WsClient.disconnect w1)
     = WsClient.set_manuallyClosed true
         (WsClient.set_autoReconnect false (WsClient.this w1))
  /\ timers (WsClient.rt (WsClient.disconnect w1)) = timers (WsClient.rt w1)
  /\ (forall sid,
        attached <$> sockets (WsClient.rt (WsClient.disconnect w1)) !! sid
        = attached <$> sockets (WsClient.rt w1) !! sid)
  /\ effects (WsClient.rt (WsClient.disconnect w1))
     = effects (WsClient.rt w1)
       ++ match WsClient.ws (WsClient.this w1) with
          | Some sid => if is_open sid (WsClient.rt w1) then [Close sid] else []
          | None => []
          end
  /\ (exists new,
        effects (WsClient.rt (WsClient.run (WsClient.disconnect w1) es))
          = effects (WsClient.rt (WsClient.disconnect w1)) ++ new
        /\ Forall no_attempt new).
Proof.
  intros Hr Hn. pose proof (reachable_Inv _ Hr) as Hi.
  pose proof (Off_disconnect _ Hi) as Hoff.
  split; [apply disconnect_this|].
  split; [by apply all_pong_none_pending, Hoff|].
  split; [by apply all_pong_none_pending, Hoff|].
  repeat split.
  - intros t Ht. unfold Part001.disconnect.
    set (w := Part001.on_this (Part001.set_autoReconnect false) w2).
    destruct (quiet_timers_effects w) as (_ & _ & Hf).
    specialize (Hf t). unfold find_timer in *.
    assert (timers (Part001.rt (Part001.notifyStatusChange DISCONNECTED
              (Part001.cleanupWS (Part001.stopPinging (Part001.clearTimers w)))))
            = timers (Part001.rt (Part001.stopPinging (Part001.clearTimers w)))) as ->.
    { unfold Part001.notifyStatusChange.
      destruct (Part001.onStatusChange _); cbn; apply cleanupWS_effects. }
    apply Hf. by destruct w2.
  - apply Hoff.
  - unfold Part001.disconnect.
    set (w := Part001.on_this (Part001.set_autoReconnect false) w2).
    destruct (quiet_timers_effects w) as (He & Hs & _).
    destruct (cleanupWS_effects (Part001.stopPinging (Part001.clearTimers w))) as [Hc _].
    assert (Hthis : Part001.this (Part001.stopPinging (Part001.clearTimers w))
                    = Part001.set_pongTimeout None (Part001.set_pingTimer None
                        (Part001.set_reconnectTimer None (Part001.this w))))
      by (by rewrite stopPinging_this, clearTimers_this).
    rewrite Hthis in Hc. cbn in Hc.
    unfold ready_state in Hc. rewrite Hs in Hc. rewrite He in Hc.
    unfold Part001.notifyStatusChange. rewrite cleanupWS_this, Hthis. cbn.
    destruct (Part001.onStatusChange (Part001.this w2)); cbn; rewrite Hc;
      by rewrite ?app_nil_r, <- ?app_assoc.
  - destruct (Off_run es _ Hoff Hn) as (_ & new & E & Q). by exists new.
  - unfold WsClient.disconnect. cbn. destruct (WsClient.ws_open _); [|done].
    by destruct (WsClient.ws (WsClient.this w1)).
  - unfold WsClient.disconnect. cbn. destruct (WsClient.ws_open _); [|done].
    by destruct (WsClient.ws (WsClient.this w1)).
  - apply plain_disconnect_sockets.
  - unfold WsClient.disconnect, WsClient.ws_open. cbn.
    destruct (WsClient.ws (WsClient.this w1)) as [sid|]; cbn; [|by rewrite app_nil_r].
    destruct (is_open sid (WsClient.rt w1)); cbn; by rewrite ?app_nil_r.
  - apply closed_run; [|done]. unfold WsClient.disconnect. cbn.
    destruct (WsClient.ws_open _); [|done].
    by destruct (WsClient.ws (WsClient.this w1)).
Qed.

Lemma disconnect_effects_online :
  effects (Part001.rt (Part001.disconnect online))
  = effects (Part001.rt online) ++ [Close 0; StatusChange DISCONNECTED]
  /\ pending PingTick (Part001.rt (Part001.disconnect online)) = []
  /\ effects (WsClient.rt (WsClient.disconnect online_plain))
     = effects (WsClient.rt online_plain) ++ [Close 0]
  /\ exists new,
       effects (Part001.rt (Part001.run (Part001.disconnect online)
                              [SockClose 0 1000 "bye"; Wait 5000; Fire 1]))
         = effects (Part001.rt (Part001.disconnect online)) ++ new
       /\ Forall quiet new.
Proof.
  assert (Hr : reachable online).
  { exists (Some observed), accept_all, true, [CallConnect; SockOpen 0]. reflexivity. }
  assert (Hn : CallConnect ∉ [SockClose 0 1000 "bye"; Wait 5000; Fire 1]).
  { intros H. repeat (apply elem_of_cons in H as [H|H]; [discriminate H|]).
    by apply elem_of_nil in H. }
  destruct (disconnect_effects online_plain online _ Hr Hn)
    as (_ & _ & Hp & _ & _ & He & Hq & _ & _ & _ & Hv & _).
  split; [exact He|]. split; [exact Hp|]. split; [exact Hv|exact Hq].
Defined.

(** C4, as the claim has it, fails in ws-client.ts: [disconnect] on a
    connected instance notifies nothing and leaves the handlers on the
    socket, on an instance that is still connecting it has no effect at
    all, and on an instance that waits for a reconnect it leaves the
    reconnect timer pending.  In part_001 the pong timeout that a later
    ping has overwritten survives [disconnect] as well. *)
Lemma plain_disconnect_is_passive :
  statuses (effects (WsClient.rt (WsClient.disconnect online_plain)))
    = [CONNECTING; CONNECTED]
  /\ effects (WsClient.rt (WsClient.disconnect (WsClient.run fresh_plain [CallConnect])))
     = effects (WsClient.rt (WsClient.run fresh_plain [CallConnect]))
  /\ attached <$> sockets (WsClient.rt (WsClient.disconnect online_plain)) = [true]
  /\ pending Reconnect
       (WsClient.rt (WsClient.disconnect
          (WsClient.run fresh_plain [CallConnect; SockClose 0 1006 "abnormal"])))
     = [{| tid := 1; callback := Reconnect; due := 3000; every := None |}]
  /\ pending PongExpired
       (Part001.rt (Part001.disconnect
          (Part001.run fresh [CallConnect; Wait 100; SockOpen 0; Wait 5000;
                              Fire 1; Wait 5000; Fire 1])))
     = [{| tid := 2; callback := PongExpired; due := 15100; every := None |}].
Proof. vm_compute. repeat split. Qed.

(** * Further properties of the code *)

(** ** Logs, runtimes and lists *)

Lemma grows_refl P es : grows P es es.
Proof. exists []. by rewrite app_nil_r. Qed.

Lemma grows_trans P a b c : grows P a b -> grows P b c -> grows P a c.
Proof.
  intros (n1 & -> & H1) (n2 & -> & H2). exists (n1 ++ n2).
  split; [by rewrite app_assoc|by apply Forall_app].
Qed.

Lemma grows_app P es new : Forall P new -> grows P es (es ++ new).
Proof. intros H. by exists new. Qed.

Lemma grows_eq P es es' : es' = es -> grows P es es'.
Proof. intros ->. apply grows_refl. Qed.

Lemma calm_refl r : calm r r.
Proof. by split. Qed.

Lemma calm_trans a b c : calm a b -> calm b c -> calm a c.
Proof. intros [] []. split; congruence. Qed.

Lemma calm_clearTimeout t r : calm r (clearTimeout t r).
Proof. by split. Qed.

Lemma calm_setTimeout cb d r : calm r (setTimeout cb d r).2.
Proof. by split. Qed.

Lemma calm_setInterval cb d r : calm r (setInterval cb d r).2.
Proof. by split. Qed.


Lemma grows_weaken (P Q : Effect -> Prop) a b :
  (forall e, P e -> Q e) -> grows P a b -> grows Q a b.
Proof.
  intros H (n & -> & Hn). exists n. split; [done|].
  eapply Forall_impl; eauto.
Qed.

Lemma concat_replicate_end {A} (n : nat) (l : list A) :
  concat (replicate (S n) l) = concat (replicate n l) ++ l.
Proof. by rewrite replicate_S_end, concat_app; cbn; rewrite app_nil_r. Qed.

Lemma filter_all {A} (P : A -> Prop) `{forall x, Decision (P x)} (l : list A) :
  Forall P l -> filter P l = l.
Proof.
  induction 1 as [|x l Hx _ IH]; [done|].
  by rewrite filter_cons, decide_True, IH.
Qed.


(** ** part_001 *)

Section Part001More.

Import Part001.

Lemma run_app w es1 es2 : run w (es1 ++ es2) = run (run w es1) es2.
Proof. apply fold_left_app. Qed.

(** *** What the methods do to the runtime and to the fields *)

Lemma clearTimers_calm w : calm (rt w) (rt (clearTimers w)).
Proof. unfold clearTimers. destruct (reconnectTimer _); by split. Qed.

Lemma clearPongTimeout_calm w : calm (rt w) (rt (clearPongTimeout w)).
Proof. unfold clearPongTimeout. destruct (pongTimeout _); by split. Qed.

Lemma stopPinging_calm w : calm (rt w) (rt (stopPinging w)).
Proof.
  unfold stopPinging. eapply calm_trans; [|apply clearPongTimeout_calm].
  destruct (pingTimer _); by split.
Qed.

Lemma startPinging_calm w : calm (rt w) (rt (startPinging w)).
Proof.
  unfold startPinging. eapply calm_trans; [apply stopPinging_calm|].
  by split.
Qed.

Lemma scheduleReconnect_calm w : calm (rt w) (rt (scheduleReconnect w)).
Proof. unfold scheduleReconnect. destruct (reconnectTimer _); by split. Qed.

Lemma clearPongTimeout_this w :
  this (clearPongTimeout w) = set_pongTimeout None (this w).
Proof. open_world w. unfold_methods; cbn. by destruct poT. Qed.

Lemma startPinging_this w :
  this (startPinging w)
  = set_pingTimer (Some (next_timer (rt w))) (set_pongTimeout None (this w)).
Proof. open_world w. unfold_methods; cbn. by destruct pT, poT. Qed.

Lemma scheduleReconnect_this w :
  this (scheduleReconnect w)
  = match reconnectTimer (this w) with
    | Some _ => this w
    | None => set_reconnectTimer (Some (next_timer (rt w))) (this w)
    end.
Proof. open_world w. unfold_methods; cbn. by destruct rT. Qed.

Lemma console_this l t w : this (console l t w) = this w.
Proof. done. Qed.

Lemma notify_effects st w :
  effects (rt (notifyStatusChange st w)) = effects (rt w) ++ notified st w.
Proof.
  unfold notifyStatusChange, notified.
  destruct (onStatusChange _); cbn; by rewrite ?app_nil_r.
Qed.

(** ... and nothing else of the runtime. *)
Lemma notify_rest st w :
  sockets (rt (notifyStatusChange st w)) = sockets (rt w)
  /\ timers (rt (notifyStatusChange st w)) = timers (rt w)
  /\ next_timer (rt (notifyStatusChange st w)) = next_timer (rt w)
  /\ now (rt (notifyStatusChange st w)) = now (rt w)
  /\ url_ok (rt (notifyStatusChange st w)) = url_ok (rt w)
  /\ has_terminate (rt (notifyStatusChange st w)) = has_terminate (rt w).
Proof. unfold notifyStatusChange. by destruct (onStatusChange _). Qed.

Lemma cleanupWS_rest w :
  length (sockets (rt (cleanupWS w))) = length (sockets (rt w))
  /\ next_timer (rt (cleanupWS w)) = next_timer (rt w)
  /\ now (rt (cleanupWS w)) = now (rt w)
  /\ url_ok (rt (cleanupWS w)) = url_ok (rt w)
  /\ has_terminate (rt (cleanupWS w)) = has_terminate (rt w).
Proof.
  unfold cleanupWS. destruct (ws _) as [sid|]; [|done]. cbn.
  rewrite ready_state_detach.
  destruct (ready_state sid (rt w)) as [[]|]; cbn; by rewrite !length_alter.
Qed.

Lemma closed_by_cleanup_calm w w' :
  ws (this w') = ws (this w) -> sockets (rt w') = sockets (rt w) ->
  closed_by_cleanup w' = closed_by_cleanup w.
Proof. unfold closed_by_cleanup, ready_state. by intros -> ->. Qed.

(** What [connect] does to the outside: the socket it held is closed
    unless it is closed already, CONNECTING is notified, and either a new
    socket for [host] is created or the failure is logged. *)
Lemma connect_effects w :
  effects (rt (connect w))
  = effects (rt w) ++ closed_by_cleanup w ++ notified CONNECTING w
    ++ (if url_ok (rt w) (host (this w))
        then [NewSocket (length (sockets (rt w))) (host (this w)); Console Log "tmzhix"]
        else [Console Error "Connection attempt failed:"]).
Proof.
  unfold connect.
  set (w1 := clearTimers w). set (w2 := cleanupWS w1).
  set (w3 := notifyStatusChange CONNECTING w2).
  pose proof (clearTimers_calm w) as C1. fold w1 in C1.
  assert (T3 : this w3 = set_ws None (set_reconnectTimer None (this w))).
  { unfold w3, w2, w1. by rewrite notify_this, cleanupWS_this, clearTimers_this. }
  assert (E3 : effects (rt w3)
               = effects (rt w) ++ closed_by_cleanup w ++ notified CONNECTING w).
  { unfold w3. rewrite notify_effects. unfold w2.
    destruct (cleanupWS_effects w1) as [-> _]. fold (closed_by_cleanup w1).
    rewrite (closed_by_cleanup_calm w w1), (calm_effects _ _ C1), <- app_assoc.
    - f_equal. f_equal. unfold notified. rewrite cleanupWS_this. unfold w1.
      by rewrite clearTimers_this.
    - unfold w1. by rewrite clearTimers_this.
    - apply C1. }
  destruct (notify_rest CONNECTING w2) as (_ & _ & _ & _ & O3 & _). fold w3 in O3.
  destruct (cleanupWS_rest w1) as (L2 & _ & _ & O2 & _). fold w2 in L2, O2.
  destruct (notify_rest CONNECTING w2) as (S3 & _). fold w3 in S3.
  rewrite O3, O2, (calm_url_ok _ _ C1), T3. cbn [host set_ws set_reconnectTimer].
  destruct (url_ok (rt w) (host (this w))).
  - cbn. rewrite E3, <- !app_assoc, S3, L2, (calm_sockets _ _ C1). done.
  - rewrite (calm_effects _ _ (scheduleReconnect_calm _)). cbn.
    rewrite E3, <- !app_assoc. done.
Qed.

Lemma clearTimers_next w : next_timer (rt (clearTimers w)) = next_timer (rt w).
Proof. unfold clearTimers. by destruct (reconnectTimer _). Qed.

Lemma stopPinging_next w : next_timer (rt (stopPinging w)) = next_timer (rt w).
Proof. open_world w. unfold_methods; cbn. by destruct pT, poT. Qed.

Lemma cleanupWS_sockets w :
  sockets (rt (cleanupWS w))
  = match ws (this w) with
    | Some sid => alter (fun s => closing (with_handlers false s)) sid (sockets (rt w))
    | None => sockets (rt w)
    end.
Proof.
  unfold cleanupWS. destruct (ws _) as [sid|]; [|done]. cbn.
  rewrite ready_state_detach. unfold ready_state.
  assert (Hc : alter closing sid (alter (with_handlers false) sid (sockets (rt w)))
               = alter (fun s => closing (with_handlers false s)) sid (sockets (rt w))).
  { apply list_alter_alter_eq. }
  destruct (sockets (rt w) !! sid) as [s|] eqn:E; cbn; [|done].
  destruct (readyState s) eqn:R; cbn; try done.
  apply list_alter_ext; [|done]. intros s' E'. rewrite E in E'. injection E' as <-.
  unfold closing. cbn. by rewrite R.
Qed.

(** [connect] when the socket constructor accepts [host]. *)
Lemma connect_ok w :
  url_ok (rt w) (host (this w)) = true ->
  this (connect w) = set_ws (Some (length (sockets (rt w)))) (set_reconnectTimer None (this w))
  /\ sockets (rt (connect w))
     = sockets (rt (cleanupWS w))
       ++ [{| url := host (this w); readyState := WS_CONNECTING; onopen := true;
              onmessage := true; onclose := true; onerror := true |}]
  /\ timers (rt (connect w)) = timers (rt (clearTimers w))
  /\ next_timer (rt (connect w)) = next_timer (rt w)
  /\ now (rt (connect w)) = now (rt w).
Proof.
  intros Hok. unfold connect.
  set (w1 := clearTimers w). set (w2 := cleanupWS w1).
  set (w3 := notifyStatusChange CONNECTING w2).
  pose proof (clearTimers_calm w) as C1. fold w1 in C1.
  assert (T3 : this w3 = set_ws None (set_reconnectTimer None (this w))).
  { unfold w3, w2, w1. by rewrite notify_this, cleanupWS_this, clearTimers_this. }
  destruct (notify_rest CONNECTING w2) as (S3 & M3 & N3 & W3 & O3 & _).
  fold w3 in S3, M3, N3, W3, O3.
  destruct (cleanupWS_rest w1) as (L2 & N2 & W2 & O2 & _). fold w2 in L2, N2, W2, O2.
  destruct (cleanupWS_effects w1) as [_ M2]. fold w2 in M2.
  assert (S2 : sockets (rt w2) = sockets (rt (cleanupWS w))).
  { unfold w2. rewrite !cleanupWS_sockets, (calm_sockets _ _ C1). unfold w1.
    by rewrite clearTimers_this. }
  rewrite O3, O2, (calm_url_ok _ _ C1), T3. cbn [host set_ws set_reconnectTimer].
  rewrite Hok. cbn.
  assert (L : length (sockets (rt w3)) = length (sockets (rt w)))
    by (by rewrite S3, L2, (calm_sockets _ _ C1)).
  rewrite L, M3, M2, N3, N2, W3, W2, (calm_now _ _ C1).
  replace (next_timer (rt w1)) with (next_timer (rt w)) by (symmetry; apply clearTimers_next).
  repeat split.
  rewrite alter_app_r_alt by lia. rewrite L, Nat.sub_diag, S3, S2. done.
Qed.

(** [handleClose] when it arms the reconnect timer. *)
Lemma handleClose_armed w :
  autoReconnect (this w) = true -> reconnectTimer (this w) = None ->
  this (handleClose w)
  = set_reconnectTimer (Some (next_timer (rt w)))
      (set_pongTimeout None (set_pingTimer None (this w)))
  /\ effects (rt (handleClose w))
     = effects (rt w) ++ [Console Log "close"] ++ notified DISCONNECTED w
       ++ [Console Warn "Connection closed"]
  /\ timers (rt (handleClose w))
     = timers (rt (stopPinging w))
       ++ [{| tid := next_timer (rt w); callback := Reconnect;
              due := now (rt w) + RECONNECT_DELAY; every := None |}]
  /\ next_timer (rt (handleClose w)) = S (next_timer (rt w))
  /\ sockets (rt (handleClose w)) = sockets (rt w)
  /\ now (rt (handleClose w)) = now (rt w)
  /\ url_ok (rt (handleClose w)) = url_ok (rt w).
Proof.
  unfold notified. open_world w. intros -> ->. unfold_methods; cbn.
  destruct pT, poT, ons; cbn; rewrite <- ?app_assoc; repeat split.
Qed.

Lemma keeps_refl w : keeps w w.
Proof. by split. Qed.

Lemma keeps_trans a b c : keeps a b -> keeps b c -> keeps a c.
Proof.
  intros [] []. split; try congruence; auto.
  intros Ha Ho Hr. apply k_manual1; auto. congruence.
Qed.

(** The methods that neither arm a reconnect nor touch [autoReconnect]. *)
Ltac keeps_small w :=
  open_world w; unfold_methods; cbn; repeat case_match; by split.

Lemma keeps_console l t w : keeps w (console l t w).
Proof. by split. Qed.

Lemma keeps_notify st w : keeps w (notifyStatusChange st w).
Proof. keeps_small w. Qed.

Lemma keeps_clearTimers w : keeps w (clearTimers w).
Proof. keeps_small w. Qed.

Lemma keeps_clearPongTimeout w : keeps w (clearPongTimeout w).
Proof. keeps_small w. Qed.

Lemma keeps_stopPinging w : keeps w (stopPinging w).
Proof. keeps_small w. Qed.

Lemma keeps_startPinging w : keeps w (startPinging w).
Proof. keeps_small w. Qed.

Lemma keeps_cleanupWS w : keeps w (cleanupWS w).
Proof. keeps_small w. Qed.

Lemma keeps_pingTick w : keeps w (pingTick w).
Proof. keeps_small w. Qed.

Lemma keeps_pongExpired w : keeps w (pongExpired w).
Proof. keeps_small w. Qed.

Lemma keeps_sendSafe p w : keeps w (sendSafe p w).
Proof. keeps_small w. Qed.

Lemma keeps_handleMessage d w : keeps w (handleMessage d w).
Proof. keeps_small w. Qed.

Lemma keeps_handleOpen w : keeps w (handleOpen w).
Proof.
  unfold handleOpen.
  set (w4 := console Log "1" _).
  assert (H : keeps w w4).
  { unfold w4. repeat (eapply keeps_trans; [|apply keeps_console || apply keeps_startPinging
                                               || apply keeps_notify]).
    apply keeps_refl. }
  destruct (onConnect (this w4)); [|done].
  eapply keeps_trans; [exact H|]. by split.
Qed.

Lemma keeps_handleClose w : keeps w (handleClose w).
Proof.
  unfold handleClose.
  set (w3 := stopPinging _).
  assert (H : keeps w w3).
  { unfold w3. repeat (eapply keeps_trans; [|apply keeps_console || apply keeps_stopPinging
                                               || apply keeps_notify]).
    apply keeps_refl. }
  destruct (autoReconnect (this w3)) eqn:E; [|done].
  eapply keeps_trans; [exact H|].
  eapply keeps_trans; [apply (keeps_console Warn "Connection closed")|].
  set (w4 := console _ _ w3).
  assert (E4 : autoReconnect (this w4) = true) by done. clearbody w4.
  pose proof (scheduleReconnect_calm w4) as [].
  pose proof (scheduleReconnect_this w4) as T.
  destruct (reconnectTimer (this w4)); split; rewrite ?T; cbn; try done; congruence.
Qed.

Lemma keeps_connect w : keeps w (connect w).
Proof.
  unfold connect.
  set (w3 := notifyStatusChange CONNECTING _).
  assert (H : keeps w w3).
  { unfold w3. repeat (eapply keeps_trans; [|apply keeps_cleanupWS || apply keeps_clearTimers
                                               || apply keeps_notify]).
    apply keeps_refl. }
  assert (Hr : reconnectTimer (this w3) = None).
  { unfold w3. by rewrite notify_this, cleanupWS_this, clearTimers_this. }
  eapply keeps_trans; [exact H|]. clearbody w3. clear H.
  destruct (url_ok (rt w3) (host (this w3))) eqn:Hok.
  - destruct w3 as [c r]. by split.
  - destruct w3 as [c r]. cbn in *. unfold scheduleReconnect. cbn. rewrite Hr.
    split; cbn; try done. congruence.
Qed.

Lemma keeps_disconnect w : keeps w (disconnect w).
Proof.
  unfold disconnect.
  repeat (eapply keeps_trans; [|apply keeps_cleanupWS || apply keeps_clearTimers
                                || apply keeps_notify || apply keeps_stopPinging]).
  by split.
Qed.

(** A socket event and the run of a timer leave the environment alone. *)
Lemma sock_event_env sid rt r b :
  sock_open sid rt = Some (r, b) \/ sock_message sid rt = Some (r, b)
  \/ sock_closed sid rt = Some (r, b) \/ sock_error sid rt = Some (r, b) ->
  url_ok r = url_ok rt /\ has_terminate r = has_terminate rt.
Proof.
  unfold sock_open, sock_message, sock_closed, sock_error.
  destruct (sockets rt !! sid) as [s|]; [|by intros [|[|[|]]]].
  destruct (readyState s); intros [H|[H|[H|H]]]; by simplify_eq.
Qed.

Lemma fire_env t rt cb r :
  fire t rt = Some (cb, r) -> url_ok r = url_ok rt /\ has_terminate r = has_terminate rt.
Proof.
  unfold fire. destruct (find_timer t rt) as [x|]; [|done].
  destruct (due x <=? now rt); [|done]. by intros [= <- <-].
Qed.

Lemma keeps_env w r :
  url_ok r = url_ok (rt w) -> has_terminate r = has_terminate (rt w) ->
  keeps w {| this := this w; rt := r |}.
Proof. by split. Qed.

Lemma keeps_dispatch o (handler : World -> World) w :
  (forall r b, o = Some (r, b) ->
     url_ok r = url_ok (rt w) /\ has_terminate r = has_terminate (rt w)) ->
  (forall w', keeps w' (handler w')) ->
  keeps w (dispatch o handler w).
Proof.
  intros Ho Hh. destruct o as [[r b]|]; [|apply keeps_refl].
  destruct (Ho r b eq_refl) as [H1 H2]. cbn.
  destruct b; [|by apply keeps_env].
  eapply keeps_trans; [by apply keeps_env|apply Hh].
Qed.

Lemma keeps_step w e : keeps w (step w e).
Proof.
  destruct e as [| |msg|msg|sid|sid d|sid c rs|sid m|op err|t|dt]; cbn [step].
  - apply keeps_connect.
  - apply keeps_disconnect.
  - apply keeps_sendSafe.
  - apply keeps_sendSafe.
  - apply keeps_dispatch; [|apply keeps_handleOpen].
    intros r b H. eapply sock_event_env; eauto.
  - apply keeps_dispatch; [|apply keeps_handleMessage].
    intros r b H. eapply sock_event_env; eauto.
  - apply keeps_dispatch; [|apply keeps_handleClose].
    intros r b H. eapply sock_event_env; eauto 6.
  - apply keeps_dispatch; [|apply keeps_console].
    intros r b H. eapply sock_event_env; eauto 6.
  - apply keeps_refl.
  - destruct (fire t (rt w)) as [[cb r]|] eqn:E; [|apply keeps_refl].
    destruct (fire_env _ _ _ _ E) as [H1 H2].
    eapply keeps_trans; [by apply keeps_env|].
    destruct cb; cbn [run_callback].
    + apply keeps_pingTick.
    + apply keeps_pongExpired.
    + unfold reconnectFired. eapply keeps_trans; [|apply keeps_connect].
      split; cbn; auto.
  - destruct w as [c r]. unfold on_rt, upd, advance. cbn.
    destruct (0 <=? dt); by split.
Qed.

Lemma keeps_run es : forall w, keeps w (run w es).
Proof.
  induction es as [|e es IH]; intros w; [apply keeps_refl|].
  eapply keeps_trans; [apply keeps_step|apply IH].
Qed.

(** *** What a turn does to the outside *)

Lemma handleOpen_effects w :
  effects (rt (handleOpen w))
  = effects (rt w) ++ [Console Log "Connected to Polymarket WS"]
    ++ notified CONNECTED w ++ [Console Log "1"]
    ++ (if onConnect (this w) then [OnConnect] else []).
Proof.
  unfold notified. open_world w. unfold_methods; cbn.
  destruct pT, poT, ons, onc; cbn; by rewrite <- ?app_assoc.
Qed.

Lemma handleClose_effects w :
  effects (rt (handleClose w))
  = effects (rt w) ++ [Console Log "close"] ++ notified DISCONNECTED w
    ++ (if autoReconnect (this w) then [Console Warn "Connection closed"] else []).
Proof.
  unfold notified. open_world w. unfold_methods; cbn.
  destruct pT, poT, ons, arc, rT; cbn; by rewrite <- ?app_assoc, ?app_nil_r.
Qed.

Lemma disconnect_log w :
  effects (rt (disconnect w))
  = effects (rt w) ++ closed_by_cleanup w ++ notified DISCONNECTED w.
Proof.
  unfold disconnect.
  set (w0 := on_this (set_autoReconnect false) w).
  set (w2 := stopPinging (clearTimers w0)).
  assert (C : calm (rt w) (rt w2)).
  { unfold w2. eapply calm_trans; [|apply stopPinging_calm].
    apply (clearTimers_calm w0). }
  assert (T : this w2 = set_pongTimeout None (set_pingTimer None
                (set_reconnectTimer None (set_autoReconnect false (this w))))).
  { unfold w2. by rewrite stopPinging_this, clearTimers_this. }
  rewrite notify_effects. destruct (cleanupWS_effects w2) as [-> _].
  fold (closed_by_cleanup w2).
  rewrite (closed_by_cleanup_calm w w2), (calm_effects _ _ C), <- app_assoc;
    [|by rewrite T|apply C].
  unfold notified. by rewrite cleanupWS_this, T.
Qed.

Lemma pingTick_effects w :
  effects (rt (pingTick w))
  = effects (rt w)
    ++ match ws (this w) with
       | Some sid => if is_open sid (rt w) then [Send sid "ping"] else []
       | None => []
       end.
Proof.
  unfold pingTick. destruct (ws (this w)) as [sid|]; [|by rewrite app_nil_r].
  destruct (is_open sid (rt w)); [done|by rewrite app_nil_r].
Qed.

Lemma pongExpired_effects w :
  effects (rt (pongExpired w))
  = effects (rt w) ++ [Console Warn "WebSocket Pong timeout. Terminating connection..."]
    ++ match ws (this w) with
       | Some sid => (if has_terminate (rt w) then [Terminate sid] else []) ++ [Close sid]
       | None => []
       end.
Proof.
  unfold pongExpired. cbn. destruct (ws (this w)) as [sid|]; [|done].
  destruct w as [c r]. cbn. destruct (has_terminate r); cbn; by rewrite <- ?app_assoc.
Qed.

Lemma sendSafe_effects p w :
  effects (rt (sendSafe p w))
  = effects (rt w)
    ++ match ws (this w) with
       | Some sid =>
           if is_open sid (rt w) then [Send sid (JSON_stringify p)]
           else [Console Error "Cannot send message: WebSocket not open."]
       | None => [Console Error "Cannot send message: WebSocket not open."]
       end.
Proof.
  unfold sendSafe, ws_open. destruct (ws (this w)) as [sid|]; [|done].
  by destruct (is_open sid (rt w)).
Qed.

Lemma handleMessage_grows P d w :
  (forall m, onCustomMessage (this w) = true -> P (OnMessage m)) ->
  P (Console Error "Failed to parse message:") ->
  grows P (effects (rt w)) (effects (rt (handleMessage d w))).
Proof.
  intros Hm Hc. unfold handleMessage.
  destruct d as [s|]; [|apply grows_refl].
  destruct (0 <? String.length s)%nat; [|apply grows_refl].
  destruct (String.eqb s "pong").
  { apply grows_eq. apply clearPongTimeout_calm. }
  destruct (JSON_parse s) as [m|]; [|apply (grows_app _ _ [_]); by constructor].
  destruct (onCustomMessage (this w)) eqn:E; [|apply grows_refl].
  apply (grows_app _ _ [_]). constructor; auto.
Qed.

Lemma Forall_notified (P : Effect -> Prop) st w :
  (onStatusChange (this w) = true -> P (StatusChange st)) -> Forall P (notified st w).
Proof. unfold notified. destruct (onStatusChange _); repeat constructor; auto. Qed.

Lemma Forall_closed_by_cleanup (P : Effect -> Prop) w :
  (forall sid, ws (this w) = Some sid -> P (Close sid)) -> Forall P (closed_by_cleanup w).
Proof.
  unfold closed_by_cleanup. destruct (ws _) as [sid|]; [|constructor].
  destruct (ready_state _ _) as [[]|]; repeat constructor; auto.
Qed.

Lemma footprint_connect w : Forall (footprint w)
  (closed_by_cleanup w ++ notified CONNECTING w
   ++ (if url_ok (rt w) (host (this w))
       then [NewSocket (length (sockets (rt w))) (host (this w)); Console Log "tmzhix"]
       else [Console Error "Connection attempt failed:"])).
Proof.
  rewrite !Forall_app. split; [by apply Forall_closed_by_cleanup|].
  split; [by apply Forall_notified|].
  destruct (url_ok _ _); by repeat constructor.
Qed.

Lemma footprint_sendSafe w op msg :
  op = "subscribe" \/ op = "unsubscribe" ->
  Forall (footprint w)
    match ws (this w) with
    | Some sid =>
        if is_open sid (rt w)
        then [Send sid (JSON_stringify (JObj (spread [("action", JStr op)] msg)))]
        else [Console Error "Cannot send message: WebSocket not open."]
    | None => [Console Error "Cannot send message: WebSocket not open."]
    end.
Proof.
  intros Hop. destruct (ws (this w)) as [sid|] eqn:E; [|by repeat constructor].
  destruct (is_open sid (rt w)) eqn:Eo; [|by repeat constructor].
  constructor; [|constructor]. cbn. rewrite E, Eo. repeat split.
  right. by exists op, msg.
Qed.

(** The world a socket event or a timer leaves for the handler has the
    fields of [w] the footprint looks at. *)
Lemma footprint_same w w' e :
  ws (this w') = ws (this w) -> host (this w') = host (this w) ->
  onStatusChange (this w') = onStatusChange (this w) ->
  onConnect (this w') = onConnect (this w) ->
  onCustomMessage (this w') = onCustomMessage (this w) ->
  sockets (rt w') = sockets (rt w) ->
  footprint w' e -> footprint w e.
Proof.
  intros H1 H2 H3 H4 H5 Hs.
  destruct e; cbn; unfold is_open, ready_state; by rewrite ?H1, ?H2, ?H3, ?H4, ?H5, ?Hs.
Qed.

Lemma step_grows w e :
  grows (footprint w) (effects (rt w)) (effects (rt (step w e))).
Proof.
  destruct e as [| |msg|msg|sid|sid d|sid c rs|sid m|op err|t|dt]; cbn [step].
  - rewrite connect_effects. apply grows_app, footprint_connect.
  - rewrite disconnect_log. apply grows_app. rewrite Forall_app.
    split; [by apply Forall_closed_by_cleanup|by apply Forall_notified].
  - unfold subscribe. rewrite sendSafe_effects. apply grows_app, footprint_sendSafe. auto.
  - unfold unsubscribe. rewrite sendSafe_effects. apply grows_app, footprint_sendSafe. auto.
  - destruct (sock_open sid (rt w)) as [[r b]|] eqn:E; [|apply grows_refl].
    assert (Hs : effects r = effects (rt w)) by (eapply sock_event_effects; eauto).
    destruct b; cbn; [|by apply grows_eq].
    rewrite handleOpen_effects. cbn. rewrite Hs. apply grows_app.
    constructor; [done|]. rewrite Forall_app. split; [by apply Forall_notified|].
    constructor; [done|]. destruct (onConnect (this w)) eqn:Ec; by repeat constructor.
  - destruct (sock_message sid (rt w)) as [[r b]|] eqn:E; [|apply grows_refl].
    assert (Hs : effects r = effects (rt w)) by (eapply sock_event_effects; eauto).
    destruct b; cbn; [|by apply grows_eq].
    rewrite <- Hs. by apply handleMessage_grows.
  - destruct (sock_closed sid (rt w)) as [[r b]|] eqn:E; [|apply grows_refl].
    assert (Hs : effects r = effects (rt w)) by (eapply sock_event_effects; eauto 6).
    destruct b; cbn; [|by apply grows_eq].
    rewrite handleClose_effects. cbn. rewrite Hs. apply grows_app.
    constructor; [done|]. rewrite Forall_app. split; [by apply Forall_notified|].
    destruct (autoReconnect (this w)); by repeat constructor.
  - destruct (sock_error sid (rt w)) as [[r b]|] eqn:E; [|apply grows_refl].
    assert (Hs : effects r = effects (rt w)) by (eapply sock_event_effects; eauto 6).
    destruct b; cbn; [|by apply grows_eq].
    rewrite Hs. apply (grows_app _ _ [_]). by constructor.
  - apply grows_refl.
  - unfold fire. destruct (find_timer t (rt w)) as [x|] eqn:E; [|apply grows_refl].
    destruct (due x <=? now (rt w)); [|apply grows_refl].
    set (r := set_timers _ _ _).
    destruct (callback x); cbn [run_callback].
    + rewrite pingTick_effects. apply grows_app. cbn.
      destruct (ws (this w)) as [k|] eqn:Ew; [|constructor].
      change (is_open k r) with (is_open k (rt w)).
      destruct (is_open k (rt w)) eqn:Eo; [|constructor].
      constructor; [|constructor]. cbn. rewrite Ew, Eo. auto.
    + rewrite pongExpired_effects. apply grows_app. cbn.
      constructor; [done|]. destruct (ws (this w)) as [k|] eqn:Ew; [|constructor].
      destruct (has_terminate (rt w)); by repeat constructor.
    + unfold reconnectFired. rewrite connect_effects. apply grows_app.
      eapply Forall_impl; [apply footprint_connect|].
      intros e. by apply footprint_same.
  - destruct w as [c r]. unfold on_rt, upd, advance. cbn.
    destruct (0 <=? dt); apply grows_refl.
Qed.


(** *** The sockets and timers of the instance *)



Lemma sock_closed_inv sid r0 r b :
  sock_closed sid r0 = Some (r, b) ->
  exists s, sockets r0 !! sid = Some s /\ readyState s <> WS_CLOSED
            /\ b = onclose s /\ r = update_socket sid (with_ready WS_CLOSED) r0.
Proof.
  unfold sock_closed. destruct (sockets r0 !! sid) as [s|]; [|done].
  destruct (readyState s) eqn:E; intros [= <- <-]; exists s; by rewrite E.
Qed.

(** No ping interval is pending while the instance holds no handle of one. *)
Lemma unpinged_none_pending w :
  Inv w -> pingTimer (this w) = None -> pending PingTick (rt w) = [].
Proof.
  intros Hi Hp. apply filter_none.
  pose proof (inv_ping _ _ _ _ _ _ Hi) as H. rewrite Hp in H.
  eapply Forall_impl; [exact H|]. cbn. intros x Hx Hc. by specialize (Hx Hc).
Qed.

(** X7.  part_001, in every reachable world with [autoReconnect] on and
    a host the socket constructor accepts: a close event that reaches
    the instance, [RECONNECT_DELAY] ms and the run of the timer armed by
    it lead to a new connection attempt.  The log gains the close, the
    DISCONNECTED and CONNECTING notifications and the new socket for
    [host]; the instance holds the new socket, which is connecting with
    all four handlers set; the old socket has none left; and neither a
    reconnect nor a ping interval is pending. *)
Theorem part001_close_reconnects_after_delay (w : World) (sid : nat)
  (code : Z) (reason : string) (r : Runtime) :
  reachable w ->
  sock_closed sid (rt w) = Some (r, true) ->
  autoReconnect (this w) = true ->
  url_ok (rt w) (host (this w)) = true ->
  let w' := run w [SockClose sid code reason; Wait RECONNECT_DELAY;
                   Fire (next_timer (rt w))] in
  let n := length (sockets (rt w)) in
  effects (rt w')
  = effects (rt w) ++ [Console Log "close"] ++ notified DISCONNECTED w
    ++ [Console Warn "Connection closed"] ++ notified CONNECTING w
    ++ [NewSocket n (host (this w)); Console Log "tmzhix"]
  /\ now (rt w') = now (rt w) + 3000
  /\ ws (this w') = Some n
  /\ sockets (rt w') !! n
     = Some {| url := host (this w); readyState := WS_CONNECTING; onopen := true;
               onmessage := true; onclose := true; onerror := true |}
  /\ (attached <$> sockets (rt w') !! sid) = Some false
  /\ pending Reconnect (rt w') = []
  /\ pending PingTick (rt w') = [].
Proof.
  intros Hr Hs Ha Hok w' n.
  pose proof (reachable_Inv _ Hr) as Hi.
  assert (Hi' : Inv w') by (by apply Inv_run).
  pose proof (live_socket_unarmed _ _ _ Hi Hs) as HrT.
  destruct (sock_closed_inv _ _ _ _ Hs) as (s & Hl & Hne & Hoc & ->).
  assert (Hws : ws (this w) = Some sid).
  { eapply (inv_socket _ _ _ _ _ _ Hi); [exact Hl|]. by apply attached_onclose. }
  (* the close event *)
  set (r := update_socket sid (with_ready WS_CLOSED) (rt w)) in *.
  set (w0 := {| this := this w; rt := r |}).
  assert (E1 : step w (SockClose sid code reason) = handleClose w0).
  { cbn [step]. by rewrite Hs. }
  destruct (handleClose_armed w0 Ha HrT) as (T1 & L1 & M1 & N1 & S1 & W1 & O1).
  set (w1 := handleClose w0) in *.
  (* the delay *)
  set (w2 := step w1 (Wait RECONNECT_DELAY)).
  (* the timer *)
  set (tm := {| tid := next_timer (rt w); callback := Reconnect;
                due := now (rt w) + RECONNECT_DELAY; every := None |}).
  assert (Hf : Forall (fun y => (tid y < next_timer (rt w))%nat) (timers (rt (stopPinging w0)))).
  { assert (Hi0 : Inv w0) by (by eapply Inv_sock_closed).
    apply Inv_stopPinging in Hi0. pose proof (inv_fresh _ _ _ _ _ _ Hi0) as H.
    by rewrite stopPinging_next in H. }
  assert (E3 : fire (next_timer (rt w)) (rt w2)
               = Some (Reconnect,
                       set_timers (timers (rt (stopPinging w0))) (S (next_timer (rt w)))
                         (set_now (now (rt w) + 3000) (rt w1)))).
  { unfold fire, find_timer, w2. cbn. rewrite M1. cbn.
    erewrite find_fresh; [|reflexivity|exact Hf]. cbn.
    rewrite W1. cbn. rewrite Z.leb_refl. do 2 f_equal.
    unfold set_timers, set_now. cbn. rewrite N1. f_equal.
    rewrite filter_app, app_nil_r. cbn.
    rewrite decide_False by (intros H; by apply H). rewrite app_nil_r.
    apply filter_all.
    eapply Forall_impl; [exact Hf|]. cbn. lia. }
  set (r3 := set_timers _ _ _) in E3.
  set (w3 := on_this (set_reconnectTimer None) {| this := this w1; rt := r3 |}).
  assert (E : w' = connect w3).
  { unfold w'. cbn [run fold_left]. rewrite E1. fold w1. fold w2.
    cbn [step]. rewrite E3. reflexivity. }
  assert (T3 : this w3 = set_pongTimeout None (set_pingTimer None (this w))).
  { unfold w3. cbn. rewrite T1. cbn. revert HrT. clear.
    destruct (this w); cbn. intros ->. reflexivity. }
  assert (S3 : sockets (rt w3) = alter (with_ready WS_CLOSED) sid (sockets (rt w))).
  { unfold w3. cbn. by rewrite S1. }
  assert (O3 : url_ok (rt w3) (host (this w3)) = true).
  { rewrite T3. unfold w3. cbn. by rewrite O1. }
  assert (L3 : effects (rt w3)
               = effects (rt w) ++ [Console Log "close"] ++ notified DISCONNECTED w
                 ++ [Console Warn "Connection closed"]).
  { unfold w3. cbn. by rewrite L1. }
  assert (C3 : closed_by_cleanup w3 = []).
  { unfold closed_by_cleanup, ready_state. rewrite T3, S3. cbn. rewrite Hws.
    rewrite list_lookup_alter_eq, Hl. done. }
  destruct (connect_ok w3 O3) as (T4 & S4 & M4 & N4 & W4).
  assert (Len : length (sockets (rt (cleanupWS w3))) = n).
  { destruct (cleanupWS_rest w3) as (-> & _). rewrite S3. apply length_alter. }
  rewrite E. split; [|split; [|split; [|split; [|split; [|split]]]]].
  - rewrite connect_effects, O3, L3, C3, T3, S3, length_alter.
    unfold notified. rewrite T3. cbn.
    destruct (onStatusChange (this w)); cbn; by rewrite <- !app_assoc.
  - rewrite W4. reflexivity.
  - rewrite T4, S3, length_alter. done.
  - rewrite S4, T3. cbn. rewrite lookup_app_r by lia.
    by rewrite Len, Nat.sub_diag.
  - rewrite S4. apply lookup_lt_Some in Hl as Hlt.
    rewrite lookup_app_l by lia. rewrite cleanupWS_sockets, T3, S3.
    cbn [ws set_pongTimeout set_pingTimer]. rewrite Hws.
    rewrite !list_lookup_alter_eq, Hl. cbn. by destruct (readyState s).
  - rewrite E in Hi'. unfold Inv in Hi'. rewrite T4 in Hi'. cbn in Hi'.
    by eapply unarmed_none_pending.
  - rewrite E in Hi'. apply unpinged_none_pending; [done|]. by rewrite T4, T3.
Qed.

(** X9.  part_001, from a reachable world with a host the socket
    constructor accepts: after [disconnect], whatever events follow,
    calls of [connect] included, [autoReconnect] stays off and no
    reconnect is armed or pending. *)
Theorem part001_disconnect_ends_auto_reconnect (w : World) (es : list Event) :
  reachable w -> url_ok (rt w) (host (this w)) = true ->
  let w' := run (disconnect w) es in
  autoReconnect (this w') = false
  /\ reconnectTimer (this w') = None
  /\ pending Reconnect (rt w') = [].
Proof.
  intros Hr Hok w'. apply reachable_Inv in Hr.
  pose proof (keeps_disconnect w) as Kd.
  pose proof (keeps_run es (disconnect w)) as K. fold w' in K.
  assert (Ha : autoReconnect (this (disconnect w)) = false)
    by (by rewrite disconnect_this).
  assert (Ht : reconnectTimer (this w') = None).
  { apply (k_manual _ _ K); [done| |by rewrite disconnect_this].
    by rewrite (k_ok _ _ Kd), (k_host _ _ Kd). }
  split; [by apply (k_auto _ _ K)|]. split; [done|].
  assert (Hi : Inv w') by (by apply Inv_run, Inv_disconnect).
  unfold Inv in Hi. rewrite Ht in Hi. by eapply unarmed_none_pending.
Qed.

Lemma part001_disconnect_ends_auto_reconnect_again :
  let w' := run (disconnect online)
              [CallConnect; SockOpen 1; SockClose 1 1006 "abnormal"] in
  autoReconnect (this w') = false
  /\ reconnectTimer (this w') = None
  /\ pending Reconnect (rt w') = [].
Proof.
  apply (part001_disconnect_ends_auto_reconnect online).
  - exists (Some observed), accept_all, true, [CallConnect; SockOpen 0]. reflexivity.
  - reflexivity.
Defined.

(** X10.  part_001: a second [disconnect] right after the first only
    repeats the DISCONNECTED notification. *)
Theorem part001_disconnect_twice (w : World) :
  disconnect (disconnect w) = notifyStatusChange DISCONNECTED (disconnect w).
Proof.
  pose proof (disconnect_this w) as T.
  destruct (disconnect w) as [c r]. cbn in T. subst c.
  unfold disconnect. unfold_methods. cbn. by destruct (onStatusChange (this w)).
Qed.

(** X2.  part_001, in every reachable world: at most one ping interval
    is pending, it is the one [pingTimer] names, and after a close event
    that reaches the instance none is pending. *)
Theorem part001_one_ping_interval (w : World) :
  reachable w ->
  (length (pending PingTick (rt w)) <= 1)%nat
  /\ (forall x, x ∈ pending PingTick (rt w) -> pingTimer (this w) = Some (tid x))
  /\ (forall sid code reason r,
        sock_closed sid (rt w) = Some (r, true) ->
        pending PingTick (rt (step w (SockClose sid code reason))) = []).
Proof.
  intros Hr. apply reachable_Inv in Hr.
  pose proof (inv_ping _ _ _ _ _ _ Hr) as Hp. rewrite Forall_forall in Hp.
  assert (Hx : forall x, x ∈ pending PingTick (rt w) -> pingTimer (this w) = Some (tid x)).
  { intros x Hx. apply list_elem_of_filter in Hx as [Hc Hx]. auto. }
  split; [|split; [exact Hx|]].
  - destruct (pingTimer (this w)) as [t|] eqn:E.
    + apply (same_tid_short _ t).
      * apply NoDup_tid_filter, Hr.
      * apply Forall_forall. intros x Hin. specialize (Hx x Hin). congruence.
    + destruct (pending PingTick (rt w)) as [|x l]; cbn; [lia|].
      assert (Hin : x ∈ x :: l) by left. discriminate (Hx x Hin).
  - intros sid code reason r Hs.
    apply unpinged_none_pending; [by apply Inv_step|].
    cbn [step]. rewrite Hs. cbn.
    set (w0 := {| this := this w; rt := r |}).
    pose proof (keeps_handleClose w0) as _.
    unfold handleClose. set (w3 := stopPinging _).
    assert (H3 : pingTimer (this w3) = None) by (unfold w3; by rewrite stopPinging_this).
    destruct (autoReconnect (this w3)); [|done].
    rewrite scheduleReconnect_this. cbn. by destruct (reconnectTimer (this w3)).
Qed.

Lemma part001_one_ping_interval_online :
  (length (pending PingTick (rt online)) <= 1)%nat
  /\ pending PingTick (rt (step online (SockClose 0 1006 "abnormal"))) = [].
Proof.
  assert (Hr : reachable online).
  { exists (Some observed), accept_all, true, [CallConnect; SockOpen 0]. reflexivity. }
  destruct (part001_one_ping_interval online Hr) as (H1 & _ & H2).
  split; [exact H1|].
  apply (H2 0%nat 1006 "abnormal" (update_socket 0 (with_ready WS_CLOSED) (rt online))).
  vm_compute. reflexivity.
Defined.

(** X11.  part_001, [connect] while the instance holds a socket and the
    constructor accepts [host]: the instance holds a new socket, the old
    one is closed unless it was closed already and loses its handlers,
    CONNECTING is notified, the new socket is connecting with all four
    handlers set, and of the timers only a pending reconnect is
    cancelled: ping interval and pong timeout stay. *)
Theorem part001_connect_replaces_the_socket (w : World) (sid : nat) (s : Socket) :
  ws (this w) = Some sid -> sockets (rt w) !! sid = Some s ->
  url_ok (rt w) (host (this w)) = true ->
  let w' := connect w in
  let n := length (sockets (rt w)) in
  ws (this w') = Some n /\ n <> sid
  /\ effects (rt w')
     = effects (rt w)
       ++ (if decide (readyState s = WS_CLOSED) then [] else [Close sid])
       ++ notified CONNECTING w
       ++ [NewSocket n (host (this w)); Console Log "tmzhix"]
  /\ sockets (rt w') !! sid = Some (closing (with_handlers false s))
  /\ sockets (rt w') !! n
     = Some {| url := host (this w); readyState := WS_CONNECTING; onopen := true;
               onmessage := true; onclose := true; onerror := true |}
  /\ timers (rt w')
     = match reconnectTimer (this w) with
       | Some t => filter (fun x => tid x <> t) (timers (rt w))
       | None => timers (rt w)
       end.
Proof.
  intros Hws Hl Hok w' n. apply lookup_lt_Some in Hl as Hlt.
  destruct (connect_ok w Hok) as (T & S & M & _).
  assert (Len : length (sockets (rt (cleanupWS w))) = n) by apply cleanupWS_rest.
  split; [unfold w'; by rewrite T|]. split; [unfold n; lia|]. split; [|split; [|split]].
  - unfold w'. rewrite connect_effects, Hok. do 2 f_equal.
    unfold closed_by_cleanup, ready_state. rewrite Hws, Hl. cbn.
    by destruct (readyState s).
  - unfold w'. rewrite S, lookup_app_l by lia.
    by rewrite cleanupWS_sockets, Hws, list_lookup_alter_eq, Hl.
  - unfold w'. rewrite S, lookup_app_r by lia. by rewrite Len, Nat.sub_diag.
  - unfold w'. rewrite M. unfold clearTimers. by destruct (reconnectTimer (this w)).
Qed.

Lemma part001_connect_replaces_the_socket_online :
  ws (this (connect online)) = Some 1%nat
  /\ effects (rt (connect online))
     = effects (rt online)
       ++ [Close 0; StatusChange CONNECTING;
           NewSocket 1 "wss://ws-live-data.polymarket.com"; Console Log "tmzhix"]
  /\ timers (rt (connect online)) = timers (rt online).
Proof.
  pose proof (part001_connect_replaces_the_socket online 0
                {| url := DEFAULT_HOST; readyState := WS_OPEN; onopen := true;
                   onmessage := true; onclose := true; onerror := true |}) as H.
  vm_compute in H. destruct (H eq_refl eq_refl eq_refl) as (H1 & _ & H2 & _ & _ & H4).
  vm_compute. split; [exact H1|]. split; [exact H2|exact H4].
Defined.

(** *** A host the socket constructor rejects *)

Lemma retries_S t n :
  retries t (S n) = retries t n ++ [Wait RECONNECT_DELAY; Fire (t + n)].
Proof.
  unfold retries. rewrite seq_S, flat_map_app. reflexivity.
Qed.

(** The world of a client whose [host] the socket constructor rejects,
    after the first [connect] and [n] rounds of the reconnect timer. *)
Lemma rejected_host_world (c : Client) ok term n :
  ws c = None -> reconnectTimer c = None -> ok (host c) = false ->
  run {| this := c; rt := boot ok term |} (CallConnect :: retries 1 n)
  = {| this := set_reconnectTimer (Some (S n)) c;
       rt := {| now := 3000 * Z.of_nat n; sockets := [];
                timers := [{| tid := S n; callback := Reconnect;
                              due := 3000 * Z.of_nat n + 3000; every := None |}];
                next_timer := S (S n);
                effects := concat (replicate (S n) (failed_attempt c));
                url_ok := ok; has_terminate := term |} |}.
Proof.
  destruct c as [h p a oc om os w0 pt po rt0].
  intros Hw Hr Hok. cbn in Hw, Hr, Hok. subst w0 rt0.
  induction n as [|n IH].
  - cbn. unfold connect. cbn.
    unfold notifyStatusChange, failed_attempt. cbn.
    destruct os; cbn; rewrite Hok; reflexivity.
  - rewrite retries_S, app_comm_cons, run_app, IH. clear IH.
    rewrite (concat_replicate_end (S n)).
    remember (concat (replicate (S n) _)) as log eqn:Elog. clear Elog.
    cbn [run fold_left step]. unfold on_rt, upd, advance, RECONNECT_DELAY. cbn.
    unfold fire, find_timer. cbn. rewrite Nat.eqb_refl, Z.leb_refl.
    cbn. rewrite decide_False by (intros H; by apply H). cbn.
    unfold reconnectFired, connect. cbn.
    unfold notifyStatusChange, failed_attempt. cbn.
    replace (3000 * Z.of_nat (S n)) with (3000 * Z.of_nat n + 3000) by lia.
    destruct os; cbn; rewrite Hok; cbn;
      unfold RECONNECT_DELAY, set_timers, emit, set_now; cbn;
      rewrite <- ?app_assoc; reflexivity.
Qed.

(** X8.  part_001 with a host the socket constructor rejects: the first
    [connect] and every run of the reconnect timer fail alike and arm
    the next reconnect, whatever [autoReconnect] says.  After [n] rounds
    the log is [n + 1] failed attempts, no socket exists, and the one
    pending timer is the next reconnect, [RECONNECT_DELAY] ms ahead. *)
Theorem part001_rejected_host_retries_forever (args : option Args)
  (ok : string -> bool) (term : bool) (n : nat) :
  ok (host (constructor args)) = false ->
  let w := run (init args ok term) (CallConnect :: retries 1 n) in
  effects (rt w) = concat (replicate (S n) (failed_attempt (constructor args)))
  /\ sockets (rt w) = []
  /\ ws (this w) = None
  /\ autoReconnect (this w) = autoReconnect (constructor args)
  /\ timers (rt w) = [{| tid := S n; callback := Reconnect;
                         due := 3000 * Z.of_nat n + 3000; every := None |}]
  /\ now (rt w) = 3000 * Z.of_nat n.
Proof.
  intros Hok. cbn zeta. unfold init.
  rewrite rejected_host_world by done. done.
Qed.

(** *** A connection whose pings are answered *)

Lemma timer_delay_pos n : 1 <= timer_delay n.
Proof.
  destruct n as [z| | |]; cbn; try lia.
  destruct (1 <=? z) eqn:E; cbn; [|lia]. apply Z.leb_le in E.
  destruct (z <=? 2147483647); lia.
Qed.

Lemma beating_round c p n prev m log ok term d :
  pongTimeout c = None -> (2 <= m)%nat -> 0 <= p - prev -> 0 <= d ->
  run (beating c p n prev m log ok term)
      [Wait (p - prev); Fire 1; Wait d; SockMessage 0 (Text "pong")]
  = beating c p (n + (p - prev) + d) d (S m) (log ++ [Send 0 "ping"]) ok term.
Proof.
  destruct c as [h pi a oc om os w0 pt po rt0]. cbn. intros -> Hm Hp Hd.
  unfold beating, on_rt, upd, advance. cbn.
  apply Z.leb_le in Hp as ->. cbn.
  unfold fire, find_timer. cbn.
  replace (n - prev + p <=? n + (p - prev)) with true by (symmetry; apply Z.leb_le; lia).
  cbn. rewrite decide_False by (intros H; by apply H). cbn.
  unfold pingTick, is_open, ready_state. cbn.
  rewrite bool_decide_true by reflexivity. cbn.
  apply Z.leb_le in Hd as ->. cbn.
  unfold clearPongTimeout. cbn. unfold clearTimeout, set_timers. cbn.
  unfold upd, set_now. cbn.
  rewrite (decide_True (P := 1%nat <> m)) by lia.
  rewrite decide_False by (intros H; by apply H).
  do 5 f_equal. lia.
Qed.

Lemma beating_run c p ok term ds : forall n prev m log,
  pongTimeout c = None -> (2 <= m)%nat -> prev <= p ->
  Forall (fun d => 0 <= d <= p) ds ->
  run (beating c p n prev m log ok term) (heartbeat 0 1 p prev ds)
  = beating c p (n - prev + p * Z.of_nat (length ds) + default prev (last ds))
      (default prev (last ds)) (m + length ds)
      (log ++ replicate (length ds) (Send 0%nat "ping")) ok term.
Proof.
  induction ds as [|d ds IH]; intros n prev m log Hc Hm Hp Hds.
  - cbn. rewrite app_nil_r, Nat.add_0_r. f_equal. lia.
  - apply Forall_cons in Hds as [Hd Hds].
    cbn [heartbeat]. rewrite run_app, beating_round by (done || lia).
    rewrite IH by (done || lia).
    rewrite last_cons. cbn [length replicate].
    rewrite <- app_assoc. cbn [app].
    replace (default prev match last ds with Some y => Some y | None => Some d end)
      with (default d (last ds)) by (by destruct (last ds)).
    f_equal; lia.
Qed.

Lemma first_connection_world c ok term :
  ws c = None -> pingTimer c = None -> pongTimeout c = None ->
  reconnectTimer c = None -> ok (host c) = true ->
  run {| this := c; rt := boot ok term |} [CallConnect; SockOpen 0]
  = beating c (timer_delay (pingInterval c)) 0 0 2 (first_connection c) ok term.
Proof.
  destruct c as [h pi a oc om os w0 pt po rt0]. cbn.
  intros -> -> -> -> Hok.
  unfold beating, first_connection, connect. cbn.
  unfold notifyStatusChange. cbn.
  destruct os; cbn; rewrite Hok; cbn;
    unfold handleOpen, notifyStatusChange; cbn;
    destruct oc; cbn; reflexivity.
Qed.

(** X6.  part_001, first connection with a host the socket constructor
    accepts: when every ping is answered before the next tick of the
    interval (and within [PONG_TIMEOUT]), then after any number of rounds
    the log is that of the first connection followed by one ping per
    round, the socket is still open and held, no pong timeout is pending
    or stored, and the only timer is the ping interval, due one period
    after its last tick. *)
Theorem part001_answered_pings_keep_the_connection (args : option Args)
  (ok : string -> bool) (term : bool) (ds : list Z) :
  let c := constructor args in
  let p := timer_delay (pingInterval c) in
  ok (host c) = true ->
  Forall (fun d => 0 <= d <= p /\ d < PONG_TIMEOUT) ds ->
  let w := run (init args ok term)
             ([CallConnect; SockOpen 0] ++ heartbeat 0 1 p 0 ds) in
  effects (rt w)
  = first_connection c ++ replicate (length ds) (Send 0%nat "ping")
  /\ ready_state 0 (rt w) = Some WS_OPEN
  /\ ws (this w) = Some 0%nat
  /\ pongTimeout (this w) = None
  /\ timers (rt w)
     = [{| tid := 1; callback := PingTick;
           due := p * Z.of_nat (length ds) + p; every := Some p |}].
Proof.
  intros c p Hok Hds w. subst w. unfold init.
  pose proof (timer_delay_pos (pingInterval c)) as Hp. fold p in Hp.
  rewrite run_app, first_connection_world by done. fold c p.
  rewrite beating_run; [|done|lia|lia|].
  - cbn. repeat split. do 2 f_equal. lia.
  - eapply Forall_impl; [exact Hds|]. cbn. tauto.
Qed.

(** *** The order of the status notifications *)

Lemma announced_nil : announced [].
Proof. intros [|x l1] l2 H; discriminate H. Qed.

Lemma announced_snoc l s :
  announced l -> (s = CONNECTED -> last l = Some CONNECTING) -> announced (l ++ [s]).
Proof.
  intros Hl Hs l1 l2 E.
  induction l2 as [|x l2' _] using rev_ind.
  - apply app_inj_tail in E as [-> ->]. auto.
  - change (l ++ [s] = l1 ++ (CONNECTED :: l2') ++ [x]) in E.
    rewrite app_assoc in E. apply app_inj_tail in E as [-> _]. by eapply Hl.
Qed.

Lemma statuses_app a b : statuses (a ++ b) = statuses a ++ statuses b.
Proof. apply omap_app. Qed.

Lemma statuses_notified st w :
  statuses (notified st w) = if onStatusChange (this w) then [st] else [].
Proof. unfold notified. by destruct (onStatusChange _). Qed.

Lemma statuses_closed_by_cleanup w : statuses (closed_by_cleanup w) = [].
Proof.
  unfold closed_by_cleanup. destruct (ws _); [|done].
  by destruct (ready_state _ _) as [[]|].
Qed.

Lemma statuses_handleOpen w :
  statuses (effects (rt (handleOpen w)))
  = statuses (effects (rt w)) ++ (if onStatusChange (this w) then [CONNECTED] else []).
Proof.
  rewrite handleOpen_effects, !statuses_app, statuses_notified.
  destruct (onStatusChange _), (onConnect _); cbn; by rewrite ?app_nil_r.
Qed.

Lemma statuses_handleClose w :
  statuses (effects (rt (handleClose w)))
  = statuses (effects (rt w))
    ++ (if onStatusChange (this w) then [DISCONNECTED] else []).
Proof.
  rewrite handleClose_effects, !statuses_app, statuses_notified.
  destruct (onStatusChange _), (autoReconnect _); cbn; by rewrite ?app_nil_r.
Qed.

Lemma statuses_disconnect w :
  statuses (effects (rt (disconnect w)))
  = statuses (effects (rt w))
    ++ (if onStatusChange (this w) then [DISCONNECTED] else []).
Proof.
  by rewrite disconnect_log, !statuses_app, statuses_closed_by_cleanup,
    statuses_notified.
Qed.

Lemma statuses_connect w :
  statuses (effects (rt (connect w)))
  = statuses (effects (rt w)) ++ (if onStatusChange (this w) then [CONNECTING] else []).
Proof.
  rewrite connect_effects, !statuses_app, statuses_closed_by_cleanup, statuses_notified.
  destruct (url_ok _ _), (onStatusChange _); cbn; by rewrite ?app_nil_r.
Qed.

Lemma statuses_sendSafe p w :
  statuses (effects (rt (sendSafe p w))) = statuses (effects (rt w)).
Proof.
  rewrite sendSafe_effects, statuses_app.
  destruct (ws _) as [k|]; [destruct (is_open _ _)|]; cbn; by rewrite app_nil_r.
Qed.

Lemma statuses_pingTick w :
  statuses (effects (rt (pingTick w))) = statuses (effects (rt w)).
Proof.
  rewrite pingTick_effects, statuses_app.
  destruct (ws _) as [k|]; [destruct (is_open _ _)|]; cbn; by rewrite app_nil_r.
Qed.

Lemma statuses_pongExpired w :
  statuses (effects (rt (pongExpired w))) = statuses (effects (rt w)).
Proof.
  rewrite pongExpired_effects, !statuses_app.
  destruct (ws _) as [k|]; [destruct (has_terminate _)|]; cbn; by rewrite app_nil_r.
Qed.

Lemma statuses_handleMessage d w :
  statuses (effects (rt (handleMessage d w))) = statuses (effects (rt w)).
Proof.
  destruct (handleMessage_grows
              (fun e => match e with StatusChange _ => False | _ => True end) d w)
    as (new & E & Hn); [done..|].
  assert (H : statuses new = []).
  { clear E. induction Hn as [|x l Hx _ IH]; [done|]. by destruct x. }
  by rewrite E, statuses_app, H, app_nil_r.
Qed.

Lemma same_socket_handleOpen w : same_socket w (handleOpen w).
Proof. open_world w. unfold_methods; cbn. by destruct pT, poT, ons, onc. Qed.

Lemma same_socket_handleClose w : same_socket w (handleClose w).
Proof. open_world w. unfold_methods; cbn. by destruct pT, poT, ons, arc, rT. Qed.

Lemma same_socket_handleMessage d w : same_socket w (handleMessage d w).
Proof.
  unfold same_socket, handleMessage. destruct d as [s|]; [|done].
  destruct (0 <? String.length s)%nat; [|done].
  destruct (String.eqb s "pong").
  { unfold clearPongTimeout. by destruct (pongTimeout (this w)). }
  destruct (JSON_parse s); [|done]. by destruct (onCustomMessage (this w)).
Qed.

Lemma same_socket_pingTick w : same_socket w (pingTick w).
Proof.
  unfold pingTick. destruct (ws (this w)) as [sid|] eqn:E; [|done].
  by destruct (is_open sid (rt w)).
Qed.

Lemma same_socket_sendSafe p w : same_socket w (sendSafe p w).
Proof.
  unfold sendSafe. destruct (ws_open w); [|done]. by destruct (ws (this w)).
Qed.

Lemma awaiting_same w w' :
  same_socket w w' -> onStatusChange (this w') = onStatusChange (this w) ->
  statuses (effects (rt w')) = statuses (effects (rt w)) ->
  awaiting w -> awaiting w'.
Proof.
  intros [Hw Hs] Ho He H. unfold awaiting, ready_state. rewrite Hw, Hs, Ho, He. exact H.
Qed.

(** A socket that is not connecting any more. *)
Lemma awaiting_settled w sid :
  ws (this w) = Some sid -> ready_state sid (rt w) <> Some WS_CONNECTING -> awaiting w.
Proof. intros Hw Hr _ k Hk. rewrite Hw in Hk. injection Hk as <-. done. Qed.

Lemma awaiting_none w : ws (this w) = None -> awaiting w.
Proof. intros Hw _ k Hk. by rewrite Hw in Hk. Qed.

Lemma awaiting_connecting w :
  (onStatusChange (this w) = true ->
   last (statuses (effects (rt w))) = Some CONNECTING) -> awaiting w.
Proof. intros H Ho _ _ _. auto. Qed.

Lemma last_snoc_status (l : list ConnectionStatus) s : last (l ++ [s]) = Some s.
Proof. apply last_snoc. Qed.

Lemma connect_announces w :
  announced (statuses (effects (rt w))) ->
  awaiting (connect w) /\ announced (statuses (effects (rt (connect w)))).
Proof.
  intros Ha. pose proof (k_ons _ _ (keeps_connect w)) as Ho.
  split.
  - apply awaiting_connecting. rewrite statuses_connect, Ho. intros ->. apply last_snoc.
  - rewrite statuses_connect. destruct (onStatusChange (this w)); [|by rewrite app_nil_r].
    by apply announced_snoc.
Qed.

Lemma ready_state_other sid k f r :
  sid <> k -> ready_state k (update_socket sid f r) = ready_state k r.
Proof. intros H. unfold ready_state. cbn. by rewrite list_lookup_alter_ne. Qed.

Lemma ready_state_set sid st r s :
  sockets r !! sid = Some s ->
  ready_state sid (update_socket sid (with_ready st) r) = Some st.
Proof. intros H. unfold ready_state. cbn. by rewrite list_lookup_alter_eq, H. Qed.

(** A socket event that finds no handler. *)
Lemma awaiting_unhandled w sid st s :
  sockets (rt w) !! sid = Some s -> st <> WS_CONNECTING ->
  awaiting w ->
  awaiting {| this := this w; rt := update_socket sid (with_ready st) (rt w) |}.
Proof.
  intros Hl Hst H Ho k Hk Hr. cbn in *.
  destruct (decide (sid = k)) as [->|Hne].
  - rewrite (ready_state_set _ _ _ _ Hl) in Hr. congruence.
  - rewrite ready_state_other in Hr by done. by eapply H.
Qed.

Lemma closing_not_connecting s : readyState (closing s) <> WS_CONNECTING.
Proof. unfold closing. by destruct (readyState s) eqn:E; cbn; rewrite ?E. Qed.

Lemma pongExpired_settles w sid :
  ws (this w) = Some sid ->
  ws (this (pongExpired w)) = Some sid
  /\ ready_state sid (rt (pongExpired w)) <> Some WS_CONNECTING.
Proof.
  intros Hw. unfold pongExpired. cbn. rewrite Hw. split; [by destruct (has_terminate _)|].
  unfold ready_state. destruct w as [c r]. cbn.
  destruct (has_terminate r); cbn; rewrite ?list_lookup_alter_eq;
    destruct (sockets r !! sid) as [s|]; cbn; try done;
    intros [= H]; by eapply closing_not_connecting.
Qed.

Lemma step_announces w e :
  Inv w -> awaiting w -> announced (statuses (effects (rt w))) ->
  awaiting (step w e) /\ announced (statuses (effects (rt (step w e)))).
Proof.
  intros Hi Hj Ha.
  assert (Same : forall w0 w', awaiting w0 ->
            statuses (effects (rt w0)) = statuses (effects (rt w)) ->
            same_socket w0 w' ->
            onStatusChange (this w') = onStatusChange (this w0) ->
            statuses (effects (rt w')) = statuses (effects (rt w0)) ->
            awaiting w' /\ announced (statuses (effects (rt w')))).
  { intros w0 w' H0 E0 H1 H2 H3. split; [by eapply awaiting_same|by rewrite H3, E0]. }
  assert (Eta : awaiting {| this := this w; rt := rt w |}) by (by destruct w).
  destruct e as [| |msg|msg|sid|sid d|sid c rs|sid m|op err|t|dt]; cbn [step].
  - by apply connect_announces.
  - split; [apply awaiting_none; by rewrite disconnect_this|].
    rewrite statuses_disconnect. destruct (onStatusChange _); [|by rewrite app_nil_r].
    by apply announced_snoc.
  - apply (Same w); [done|done|apply same_socket_sendSafe|apply keeps_sendSafe
                    |apply statuses_sendSafe].
  - apply (Same w); [done|done|apply same_socket_sendSafe|apply keeps_sendSafe
                    |apply statuses_sendSafe].
  - unfold sock_open. destruct (sockets (rt w) !! sid) as [s|] eqn:El; [|done].
    destruct (readyState s) eqn:Es; try done. cbn.
    set (w0 := {| this := this w; rt := update_socket sid (with_ready WS_OPEN) (rt w) |}).
    destruct (onopen s) eqn:Eo; cbn.
    + assert (Hw : ws (this w) = Some sid).
      { apply (inv_socket _ _ _ _ _ _ Hi _ _ El). unfold attached. by rewrite Eo. }
      destruct (same_socket_handleOpen w0) as [S1 S2].
      split.
      * apply (awaiting_settled _ sid); [by rewrite S1|].
        unfold ready_state. rewrite S2. cbn. rewrite list_lookup_alter_eq, El. done.
      * rewrite statuses_handleOpen.
        change (statuses (effects (rt w0))) with (statuses (effects (rt w))).
        change (onStatusChange (this w0)) with (onStatusChange (this w)).
        destruct (onStatusChange (this w)) eqn:Eons; [|by rewrite app_nil_r].
        apply announced_snoc; [done|]. intros _. apply (Hj Eons sid Hw).
        unfold ready_state. by rewrite El; cbn; rewrite Es.
    + split; [by apply (awaiting_unhandled _ _ _ s)|done].
  - unfold sock_message. destruct (sockets (rt w) !! sid) as [s|] eqn:El; [|done].
    set (w0 := {| this := this w; rt := rt w |}) in *.
    assert (awaiting (handleMessage d w0)
            /\ announced (statuses (effects (rt (handleMessage d w0))))).
    { apply (Same w0); [done|done|apply same_socket_handleMessage
                       |apply keeps_handleMessage|apply statuses_handleMessage]. }
    destruct (readyState s); try done; by destruct (onmessage s).
  - unfold sock_closed. destruct (sockets (rt w) !! sid) as [s|] eqn:El; [|done].
    set (w0 := {| this := this w; rt := update_socket sid (with_ready WS_CLOSED) (rt w) |}).
    assert (H0 : awaiting w0 /\ announced (statuses (effects (rt w0))))
      by (split; [by apply (awaiting_unhandled _ _ _ s)|done]).
    assert (onclose s = true ->
            awaiting (handleClose w0)
            /\ announced (statuses (effects (rt (handleClose w0))))).
    { intros Eo.
      assert (Hw : ws (this w) = Some sid).
      { apply (inv_socket _ _ _ _ _ _ Hi _ _ El). by apply attached_onclose. }
      destruct (same_socket_handleClose w0) as [S1 S2].
      split.
      - apply (awaiting_settled _ sid); [by rewrite S1|].
        unfold ready_state. rewrite S2. cbn. rewrite list_lookup_alter_eq, El. done.
      - rewrite statuses_handleClose.
        change (statuses (effects (rt w0))) with (statuses (effects (rt w))).
        destruct (onStatusChange (this w0)); [|by rewrite app_nil_r].
        by apply announced_snoc. }
    destruct (readyState s); try done; cbn;
      (destruct (onclose s); [by auto|exact H0]).
  - unfold sock_error. destruct (sockets (rt w) !! sid) as [s|] eqn:El; [|done].
    set (w0 := {| this := this w; rt := rt w |}) in *.
    assert (H1 : awaiting (handleError w0)
                 /\ announced (statuses (effects (rt (handleError w0))))).
    { apply (Same w0); [done|done|done|done|].
      unfold handleError, console, on_rt, upd. cbn. rewrite statuses_app.
      apply app_nil_r. }
    destruct (readyState s); try done; by destruct (onerror s).
  - done.
  - unfold fire. destruct (find_timer t (rt w)) as [x|] eqn:E; [|done].
    destruct (due x <=? now (rt w)); [|done].
    set (r := set_timers _ _ _). set (w0 := {| this := this w; rt := r |}).
    assert (Hj0 : awaiting w0) by exact Hj.
    destruct (callback x); cbn [run_callback].
    + apply (Same w0); [done|done|apply same_socket_pingTick|apply keeps_pingTick
                       |apply statuses_pingTick].
    + split; [|by rewrite statuses_pongExpired].
      destruct (ws (this w)) as [k|] eqn:Ew.
      * destruct (pongExpired_settles w0 k Ew) as [H1 H2].
        by apply (awaiting_settled _ k).
      * apply awaiting_none. unfold pongExpired. cbn. by rewrite Ew.
    + unfold reconnectFired. by apply connect_announces.
  - destruct w as [c r]. unfold on_rt, upd, advance. cbn. by destruct (0 <=? dt).
Qed.

Lemma run_announces es : forall w,
  Inv w -> awaiting w -> announced (statuses (effects (rt w))) ->
  announced (statuses (effects (rt (run w es)))).
Proof.
  induction es as [|e es IH]; intros w Hi Hj Ha; [done|].
  destruct (step_announces w e Hi Hj Ha) as [Hj' Ha'].
  apply IH; auto. by apply Inv_step.
Qed.

(** X13.  part_001, in every reachable world: in the sequence of
    statuses the owner was notified of, every CONNECTED comes directly
    after a CONNECTING. *)
Theorem part001_connected_follows_connecting (w : World) :
  reachable w -> announced (statuses (effects (rt w))).
Proof.
  intros (args & ok & term & es & ->).
  apply run_announces; [apply Inv_init| |apply announced_nil].
  by apply awaiting_none.
Qed.

(** *** Concrete runs *)

Lemma reachable_online : reachable online.
Proof. exists (Some observed), accept_all, true, [CallConnect; SockOpen 0]. reflexivity. Qed.

Lemma unanswered_ping_closes_online :
  let w' := run (pingTick online) [Wait 10000; Fire 2] in
  now (rt w') = 10000
  /\ effects (rt w')
     = effects (rt online)
       ++ [Send 0 "ping";
           Console Warn "WebSocket Pong timeout. Terminating connection...";
           Terminate 0; Close 0].
Proof.
  assert (Hw : ws (this online) = Some 0%nat) by (vm_compute; reflexivity).
  assert (Ho : is_open 0 (rt online) = true) by (vm_compute; reflexivity).
  pose proof (unanswered_ping_closes online 0 reachable_online Hw Ho) as H.
  vm_compute in H. vm_compute. exact H.
Defined.

Lemma part001_answered_pings_keep_the_connection_thrice :
  let w := run fresh ([CallConnect; SockOpen 0] ++ heartbeat 0 1 5000 0 [20; 500; 0]) in
  frames (effects (rt w)) = ["ping"; "ping"; "ping"]
  /\ ready_state 0 (rt w) = Some WS_OPEN
  /\ timers (rt w)
     = [{| tid := 1; callback := PingTick; due := 20000; every := Some 5000 |}].
Proof.
  assert (Hd : Forall (fun d => 0 <= d <= 5000 /\ d < PONG_TIMEOUT) [20; 500; 0])
    by (unfold PONG_TIMEOUT; repeat constructor; lia).
  assert (Ho : accept_all (host (constructor (Some observed))) = true)
    by (vm_compute; reflexivity).
  pose proof (part001_answered_pings_keep_the_connection (Some observed) accept_all
                true [20; 500; 0] Ho Hd) as H.
  vm_compute in H. destruct H as (_ & H2 & _ & _ & H3).
  vm_compute. split; [reflexivity|]. split; [exact H2|exact H3].
Defined.

Lemma part001_close_reconnects_after_delay_online :
  let w' := run online [SockClose 0 1006 "abnormal"; Wait 3000; Fire 2] in
  ws (this w') = Some 1%nat
  /\ now (rt w') = 3000
  /\ pending Reconnect (rt w') = []
  /\ pending PingTick (rt w') = [].
Proof.
  assert (Hs : sock_closed 0 (rt online)
               = Some (update_socket 0 (with_ready WS_CLOSED) (rt online), true))
    by (vm_compute; reflexivity).
  assert (Ha : autoReconnect (this online) = true) by (vm_compute; reflexivity).
  assert (Ho : url_ok (rt online) (host (this online)) = true)
    by (vm_compute; reflexivity).
  pose proof (part001_close_reconnects_after_delay online 0 1006 "abnormal" _
                reachable_online Hs Ha Ho) as H.
  vm_compute in H. destruct H as (_ & H1 & H2 & _ & _ & H3 & H4).
  vm_compute. split; [exact H2|]. split; [exact H1|]. split; [exact H3|exact H4].
Defined.

Lemma part001_rejected_host_retries_forever_twice :
  let args := {| arg_onConnect := false; arg_onMessage := false;
                 arg_onStatusChange := true; arg_host := None;
                 arg_pingInterval := None; arg_autoReconnect := Some false |} in
  let w := run (init (Some args) (fun _ => false) true)
             [CallConnect; Wait 3000; Fire 1; Wait 3000; Fire 2] in
  autoReconnect (this w) = false
  /\ statuses (effects (rt w)) = [CONNECTING; CONNECTING; CONNECTING]
  /\ sockets (rt w) = []
  /\ timers (rt w) = [{| tid := 3; callback := Reconnect; due := 9000; every := None |}].
Proof.
  pose proof (part001_rejected_host_retries_forever
                (Some {| arg_onConnect := false; arg_onMessage := false;
                         arg_onStatusChange := true; arg_host := None;
                         arg_pingInterval := None; arg_autoReconnect := Some false |})
                (fun _ => false) true 2 eq_refl) as H.
  vm_compute in H. destruct H as (_ & H2 & _ & H3 & H4 & _).
  vm_compute. split; [exact H3|]. split; [reflexivity|]. split; [exact H2|exact H4].
Defined.

Lemma part001_connected_follows_connecting_reconnected :
  statuses (effects (rt (run fresh reconnected)))
  = [CONNECTING; CONNECTED; DISCONNECTED; CONNECTING; CONNECTED]
  /\ last [CONNECTING; CONNECTED; DISCONNECTED; CONNECTING] = Some CONNECTING.
Proof.
  split; [vm_compute; reflexivity|].
  apply (part001_connected_follows_connecting (run fresh reconnected)) with (l2 := []).
  - exists (Some observed), accept_all, true, reconnected. reflexivity.
  - vm_compute. reflexivity.
Defined.

End Part001More.

(** ** ws-client.ts *)

Section WsClientMore.

Import WsClient.

Lemma v_keeps_refl w : v_keeps w w.
Proof. by split. Qed.

Lemma v_keeps_trans a b c : v_keeps a b -> v_keeps b c -> v_keeps a c.
Proof.
  intros [] []. split; try congruence; auto.
  intros Ha. rewrite vk_timers1, vk_timers0; auto.
Qed.

Ltac v_keeps_cases :=
  unfold_v; cbn; repeat case_match; simplify_eq; split; cbn; intros; simplify_eq; auto; congruence.

Lemma v_keeps_step w e : v_keeps w (step w e).
Proof.
  v_world w.
  destruct e as [| |msg|msg|sid|sid d|sid c rs|sid m|op err|t|dt]; cbn [step].
  - v_keeps_cases.
  - v_keeps_cases.
  - v_keeps_cases.
  - v_keeps_cases.
  - unfold dispatch, sock_open. v_keeps_cases.
  - unfold dispatch, sock_message. v_keeps_cases.
  - unfold dispatch, sock_closed. v_keeps_cases.
  - unfold dispatch, sock_error. v_keeps_cases.
  - v_keeps_cases.
  - unfold fire, run_callback. v_keeps_cases.
  - unfold on_rt, upd, advance. cbn. destruct (0 <=? dt); by split.
Qed.

Lemma v_keeps_run es : forall w, v_keeps w (run w es).
Proof.
  induction es as [|e es IH]; intros w; [apply v_keeps_refl|].
  eapply v_keeps_trans; [apply v_keeps_step|apply IH].
Qed.

(** X15.  ws-client.ts, any world: after [disconnect], whatever events
    follow, calls of [connect] included, [autoReconnect] stays off and no
    timer is created. *)
Theorem plain_disconnect_ends_auto_reconnect (w : World) (es : list Event) :
  let w' := run (disconnect w) es in
  autoReconnect (this w') = false
  /\ next_timer (rt w') = next_timer (rt w).
Proof.
  intros w'. pose proof (v_keeps_run es (disconnect w)) as K. fold w' in K.
  assert (Ha : autoReconnect (this (disconnect w)) = false).
  { unfold disconnect. cbn. destruct (ws_open _); [|done]. by destruct (ws _). }
  assert (Hn : next_timer (rt (disconnect w)) = next_timer (rt w)).
  { unfold disconnect. cbn. destruct (ws_open _); [|done]. by destruct (ws _). }
  split; [by apply (vk_auto _ _ K)|]. by rewrite (vk_timers _ _ K).
Qed.

Lemma wired_with_ready r s : wired s -> wired (with_ready r s).
Proof. by intros []. Qed.

Lemma wired_closing s : wired s -> wired (closing s).
Proof. unfold closing. destruct (readyState s); auto using wired_with_ready. Qed.

Lemma wired_update sid (f : Socket -> Socket) r :
  (forall s, wired s -> wired (f s)) ->
  Forall wired (sockets r) -> Forall wired (sockets (update_socket sid f r)).
Proof. intros Hf H. cbn. apply Forall_alter; auto. Qed.

Lemma wired_sock_event sid rt r b :
  sock_open sid rt = Some (r, b) \/ sock_message sid rt = Some (r, b)
  \/ sock_closed sid rt = Some (r, b) \/ sock_error sid rt = Some (r, b) ->
  Forall wired (sockets rt) -> Forall wired (sockets r) /\ b = true.
Proof.
  intros H Hw.
  assert (Hu : forall st, Forall wired (sockets (update_socket sid (with_ready st) rt)))
    by (intros st; apply wired_update; auto using wired_with_ready).
  unfold sock_open, sock_message, sock_closed, sock_error in H.
  destruct (sockets rt !! sid) as [s|] eqn:E; [|by destruct H as [|[|[|]]]].
  rewrite Forall_lookup in Hw. destruct (Hw _ _ E) as (? & ? & ? & ?).
  rewrite <- Forall_lookup in Hw.
  destruct (readyState s); destruct H as [H|[H|[H|H]]]; simplify_eq; auto.
Qed.

Lemma wired_connect w :
  Forall wired (sockets (rt w)) -> Forall wired (sockets (rt (connect w))).
Proof.
  v_world w. intros H. unfold_v; cbn.
  destruct wsh as [sid|]; cbn; [destruct (is_open sid _)|]; cbn; try done;
    destruct ons; cbn; destruct (ok hst); cbn; try done;
    (rewrite alter_app_r_alt by lia; rewrite Nat.sub_diag;
     apply Forall_app; split; [done|]; by repeat constructor).
Qed.

Lemma wired_handler (h : World -> World) :
  (forall w, sockets (rt (h w)) = sockets (rt w)) ->
  forall w, Forall wired (sockets (rt w)) -> Forall wired (sockets (rt (h w))).
Proof. intros H w. by rewrite H. Qed.

Lemma wired_step w e :
  Forall wired (sockets (rt w)) -> Forall wired (sockets (rt (step w e))).
Proof.
  intros H.
  destruct e as [| |msg|msg|sid|sid d|sid c rs|sid m|op err|t|dt]; cbn [step].
  - by apply wired_connect.
  - v_world w. unfold_v; cbn. destruct wsh as [k|]; cbn; [|done].
    destruct (is_open k _); cbn; [|done]. apply Forall_alter; auto using wired_closing.
  - v_world w. unfold_v; cbn. destruct wsh as [k|]; cbn; [|done].
    by destruct (is_open k _).
  - v_world w. unfold_v; cbn. destruct wsh as [k|]; cbn; [|done].
    by destruct (is_open k _).
  - destruct (sock_open sid (rt w)) as [[r b]|] eqn:E; [|done].
    destruct (wired_sock_event sid (rt w) r b) as [Hr ->]; auto. cbn.
    destruct w as [[hst arc onc onm ons wsh rc mc] r0]. unfold_v; cbn.
    by destruct ons, onc.
  - destruct (sock_message sid (rt w)) as [[r b]|] eqn:E; [|done].
    destruct (wired_sock_event sid (rt w) r b) as [Hr ->]; auto. cbn.
    destruct w as [[hst arc onc onm ons wsh rc mc] r0]. unfold_v; cbn.
    destruct d as [s|]; [|done]. destruct (truthy_string s); cbn; [|done].
    destruct (onm && includes "payload" s); [|done]. by destruct (JSON.JSON_parse s).
  - destruct (sock_closed sid (rt w)) as [[r b]|] eqn:E; [|done].
    destruct (wired_sock_event sid (rt w) r b) as [Hr ->]; auto 6. cbn.
    destruct w as [[hst arc onc onm ons wsh rc mc] r0]. unfold_v; cbn.
    by destruct ons, arc, mc.
  - destruct (sock_error sid (rt w)) as [[r b]|] eqn:E; [|done].
    by destruct (wired_sock_event sid (rt w) r b) as [Hr ->]; auto 6.
  - v_world w. unfold_v; cbn. destruct err; [|done].
    destruct wsh as [k|]; cbn; [|done]. apply Forall_alter; auto using wired_closing.
  - unfold fire. destruct (find_timer t (rt w)) as [x|]; [|done].
    destruct (due x <=? now (rt w)); [|done].
    destruct (callback x); cbn [run_callback]; try done.
    unfold reconnectFired. cbn. destruct (manuallyClosed _); [done|].
    by apply wired_connect.
  - destruct w as [c r]. unfold on_rt, upd, advance. cbn. by destruct (0 <=? dt).
Qed.

Lemma wired_reachable w : reachable_plain w -> Forall wired (sockets (rt w)).
Proof.
  intros (args & ok & term & es & ->).
  assert (H : Forall wired (sockets (rt (init args ok term)))) by constructor.
  revert H. generalize (init args ok term).
  induction es as [|e es IH]; intros w H; [done|].
  apply IH. by apply wired_step.
Qed.

(** X14.  ws-client.ts, in every reachable world: every socket the
    instance ever created still has all four handlers set, so the open
    event of any socket that is connecting, held or not, is notified as
    CONNECTED and passed to [onConnect]. *)
Theorem plain_every_socket_stays_wired (w : World) :
  reachable_plain w ->
  Forall wired (sockets (rt w))
  /\ (forall sid r b, sock_open sid (rt w) = Some (r, b) ->
        effects (rt (step w (SockOpen sid)))
        = effects (rt w)
          ++ (if onStatusChange (this w) then [StatusChange CONNECTED] else [])
          ++ (if onConnect (this w) then [OnConnect] else [])).
Proof.
  intros Hr. pose proof (wired_reachable _ Hr) as Hw. split; [exact Hw|].
  intros sid r b E. cbn [step]. rewrite E.
  destruct (wired_sock_event sid (rt w) r b) as [_ ->]; auto. cbn.
  assert (Hs : effects r = effects (rt w)) by (eapply sock_event_effects; eauto).
  destruct w as [[hst arc onc onm ons wsh rc mc] r0]. unfold_v; cbn in *.
  destruct ons, onc; cbn; rewrite Hs; by rewrite <- ?app_assoc, ?app_nil_r.
Qed.

Lemma plain_every_socket_stays_wired_twice :
  let w := run fresh_plain [CallConnect; CallConnect] in
  ws (this w) = Some 1%nat
  /\ effects (rt (step w (SockOpen 0)))
     = effects (rt w) ++ [StatusChange CONNECTED; OnConnect].
Proof.
  split; [reflexivity|].
  assert (Hr : reachable_plain (run fresh_plain [CallConnect; CallConnect])).
  { exists (Some observed_plain), accept_all, true, [CallConnect; CallConnect].
    reflexivity. }
  destruct (plain_every_socket_stays_wired _ Hr) as [_ H].
  eapply (H 0%nat). vm_compute. reflexivity.
Defined.

Lemma envelope_subscribe msg :
  envelope (JSON_stringify (JObj (spread [("action", JStr "subscribe")] msg))).
Proof. exists "subscribe", msg. auto. Qed.

Lemma envelope_unsubscribe msg :
  envelope (JSON_stringify (JObj (spread [("action", JStr "unsubscribe")] msg))).
Proof. exists "unsubscribe", msg. auto. Qed.

Ltac plain_effect :=
  cbn; auto using envelope_subscribe, envelope_unsubscribe;
  try (split; [|split]; auto using envelope_subscribe, envelope_unsubscribe; congruence).

Ltac plain_grows :=
  first [ apply grows_refl
        | cbn; rewrite <- ?app_assoc; cbn; apply grows_app;
          repeat (constructor; [plain_effect|]); constructor ].

Lemma plain_send_grows w frame l t :
  envelope frame ->
  grows (plain_footprint w) (effects (rt w))
    (effects (rt (if negb (ws_open w) then console l t w
                  else match ws (this w) with
                       | Some sid => on_rt (sock_send sid frame) w
                       | None => w
                       end))).
Proof.
  intros He. unfold ws_open. destruct (ws (this w)) as [sid|] eqn:Ew; cbn.
  - destruct (is_open sid (rt w)) eqn:Eo; cbn; apply (grows_app _ _ [_]);
      repeat constructor; cbn; auto.
  - apply (grows_app _ _ [_]). by repeat constructor.
Qed.

Lemma plain_step_grows w e :
  grows (plain_footprint w) (effects (rt w)) (effects (rt (step w e))).
Proof.
  destruct e as [| |msg|msg|sid|sid d|sid c rs|sid m|op err|t|dt]; cbn [step].
  3: { apply plain_send_grows, envelope_subscribe. }
  3: { apply plain_send_grows, envelope_unsubscribe. }
  all: v_world w.
  - unfold_v; cbn. repeat case_match; plain_grows.
  - unfold_v; cbn. repeat case_match; plain_grows.
  - unfold dispatch, sock_open. unfold_v; cbn. repeat case_match; simplify_eq; plain_grows.
  - unfold dispatch, sock_message. unfold_v; cbn.
    repeat case_match; simplify_eq;
      repeat match goal with
             | H : _ && _ = true |- _ => apply andb_prop in H as [-> _]
             end;
      plain_grows.
  - unfold dispatch, sock_closed. unfold_v; cbn. repeat case_match; simplify_eq; plain_grows.
  - unfold dispatch, sock_error. unfold_v; cbn. repeat case_match; simplify_eq; plain_grows.
  - unfold_v; cbn. repeat case_match; plain_grows.
  - unfold fire, run_callback. unfold_v; cbn. repeat case_match; simplify_eq; plain_grows.
  - unfold on_rt, upd, advance. cbn. destruct (0 <=? dt); plain_grows.
Qed.

Lemma bare_step w e :
  bare w ->
  bare (step w e)
  /\ onStatusChange (this (step w e)) = onStatusChange (this w)
  /\ throws (effects (rt (step w e)))
     = throws (effects (rt w))
       ++ match e with CallConnect => ["new WebSocket"] | _ => [] end
  /\ statuses (effects (rt (step w e)))
     = statuses (effects (rt w))
       ++ match e with
          | CallConnect => if onStatusChange (this w) then [CONNECTING] else []
          | _ => []
          end.
Proof.
  unfold bare, throws, statuses. v_world w. intros (-> & -> & -> & Hok).
  destruct e as [| |msg|msg|sid|sid d|sid c rs|sid m|op err|t|dt]; cbn [step].
  - unfold_v; cbn. destruct ons; cbn; rewrite Hok; cbn; rewrite !omap_app; cbn;
      rewrite ?app_nil_r, <- ?app_assoc; auto.
  - unfold_v; cbn. by rewrite !app_nil_r.
  - unfold_v; cbn. rewrite !omap_app. cbn. by rewrite !app_nil_r.
  - unfold_v; cbn. rewrite !omap_app. cbn. by rewrite !app_nil_r.
  - cbn. by rewrite !app_nil_r.
  - cbn. by rewrite !app_nil_r.
  - cbn. by rewrite !app_nil_r.
  - cbn. by rewrite !app_nil_r.
  - unfold_v; cbn. destruct err; cbn; rewrite ?omap_app; cbn; by rewrite !app_nil_r.
  - cbn. by rewrite !app_nil_r.
  - unfold on_rt, upd, advance. cbn. destruct (0 <=? dt); cbn; by rewrite !app_nil_r.
Qed.

Lemma bare_run es : forall w,
  bare w ->
  bare (run w es)
  /\ throws (effects (rt (run w es)))
     = throws (effects (rt w)) ++ replicate (connect_calls es) "new WebSocket"
  /\ statuses (effects (rt (run w es)))
     = statuses (effects (rt w))
       ++ (if onStatusChange (this w)
           then replicate (connect_calls es) CONNECTING else []).
Proof.
  induction es as [|e es IH]; intros w Hb.
  - cbn. rewrite app_nil_r. split; [done|]. split; [done|].
    destruct (onStatusChange _); by rewrite app_nil_r.
  - destruct (bare_step w e Hb) as (Hb' & Ho & Ht & Hs).
    destruct (IH _ Hb') as (Hb'' & Ht' & Hs').
    change (run w (e :: es)) with (run (step w e) es).
    split; [done|]. rewrite Ht', Hs', Ht, Hs, Ho, <- !app_assoc.
    destruct e; cbn; try done.
    split; [done|]. by destruct (onStatusChange (this w)).
Qed.

(** X17.  ws-client.ts with a host the socket constructor rejects:
    every [connect] of the owner notifies CONNECTING and throws, nothing
    else does, and no socket and no timer ever exists: the client never
    retries by itself. *)
Theorem plain_rejected_host_is_never_retried (args : option Args)
  (ok : string -> bool) (term : bool) (es : list Event) :
  ok (host (constructor args)) = false ->
  let w := run (init args ok term) es in
  throws (effects (rt w)) = replicate (connect_calls es) "new WebSocket"
  /\ statuses (effects (rt w))
     = (if onStatusChange (constructor args)
        then replicate (connect_calls es) CONNECTING else [])
  /\ sockets (rt w) = [] /\ timers (rt w) = [] /\ ws (this w) = None.
Proof.
  intros Hok w.
  destruct (bare_run es (init args ok term)) as ((H1 & H2 & H3 & _) & Ht & Hs); [done|].
  done.
Qed.

(** X16.  ws-client.ts, any world and any event: what the turn adds to
    the log stays within [plain_footprint]; in particular the instance
    sends nothing but envelopes, and only to the open socket it holds. *)
Theorem plain_turn_footprint (w : World) (e : Event) :
  exists new,
    effects (rt (step w e)) = effects (rt w) ++ new
    /\ Forall (plain_footprint w) new.
Proof. exact (plain_step_grows w e). Qed.

Lemma plain_rejected_host_is_never_retried_twice :
  let w := run (init (Some observed_plain) (fun _ => false) true)
             [CallConnect; Wait 3000; CallSubscribe []; CallConnect] in
  throws (effects (rt w)) = ["new WebSocket"; "new WebSocket"]
  /\ statuses (effects (rt w)) = [CONNECTING; CONNECTING]
  /\ sockets (rt w) = [] /\ timers (rt w) = [].
Proof.
  pose proof (plain_rejected_host_is_never_retried (Some observed_plain)
                (fun _ => false) true
                [CallConnect; Wait 3000; CallSubscribe []; CallConnect] eq_refl) as H.
  vm_compute in H. destruct H as (H1 & H2 & H3 & H4 & _).
  vm_compute. split; [exact H1|]. split; [exact H2|]. split; [exact H3|exact H4].
Defined.

End WsClientMore.

(** ** part_000 and auto-copy-trading.ts *)

Section ProxyPatchFacts.
Import ProxyPatch.

(** X18.  part_000: the proxy url is the value of the first variable of
    [proxy_variables] that is set to a nonempty string, and it is truthy
    exactly when one of them is. *)
Theorem proxy_url_is_the_first_one_set (env : Env) :
  proxyUrl env
  = match List.find (fun k => truthy_opt (env k)) proxy_variables with
    | Some k => env k
    | None => env "SOCKS_PROXY"
    end
  /\ truthy_opt (proxyUrl env)
     = existsb (fun k => truthy_opt (env k)) proxy_variables.
Proof.
  unfold proxyUrl, or_else, proxy_variables. cbn.
  destruct (truthy_opt (env "POLY_WS_PROXY")) eqn:E1; cbn; rewrite ?E1; [done|].
  destruct (truthy_opt (env "WSS_PROXY")) eqn:E2; cbn; rewrite ?E2; [done|].
  destruct (truthy_opt (env "WS_PROXY")) eqn:E3; cbn; rewrite ?E3; [done|].
  destruct (truthy_opt (env "HTTPS_PROXY")) eqn:E4; cbn; rewrite ?E4; [done|].
  destruct (truthy_opt (env "HTTP_PROXY")) eqn:E5; cbn; rewrite ?E5; [done|].
  destruct (truthy_opt (env "SOCKS_PROXY")) eqn:E6; cbn; by rewrite ?E6.
Qed.

Lemma or_else_false a b : truthy_opt a = false -> or_else a b = b.
Proof. unfold or_else. by intros ->. Qed.

Lemma or_else_true a b : truthy_opt a = true -> or_else a b = a.
Proof. unfold or_else. by intros ->. Qed.

Lemma socks_is_not_http p :
  startsWith p "socks" = true ->
  startsWith p "http://" = false /\ startsWith p "https://" = false.
Proof.
  unfold startsWith. destruct p as [|a p]; [done|]. cbn [String.prefix].
  destruct (ascii_dec "s" a) as [<-|]; [|done]. intros _. by vm_compute.
Qed.

(** X19.  part_000: a proxy url of a SOCKS scheme other than socks5://
    and socks:// gets the HTTPS proxy agent, and, when none of the HTTP
    proxy variables is set, the SOCKS warning for [fetch]. *)
Theorem other_socks_schemes_get_the_https_agent (env : Env) (p : string) :
  startsWith p "socks" = true ->
  startsWith p "socks5://" = false -> startsWith p "socks://" = false ->
  agent_for p = HttpsProxyAgent p
  /\ (truthy_opt (env "POLY_HTTP_PROXY") = false ->
      truthy_opt (env "HTTPS_PROXY") = false ->
      truthy_opt (env "HTTP_PROXY") = false ->
      fetch_branch env p = WarnSocks).
Proof.
  intros Hs H5 H0. split; [unfold agent_for; by rewrite H5, H0|].
  intros E1 E2 E3. destruct (socks_is_not_http p Hs) as [N1 N2].
  unfold fetch_branch, fetchProxyUrl. rewrite N1, N2. cbn [orb].
  rewrite (or_else_false _ _ E1), (or_else_false None) by done.
  rewrite (or_else_false _ _ E2).
  destruct (env "HTTP_PROXY") as [u|]; cbn in *; by rewrite ?E3, Hs.
Qed.

Lemma other_socks_schemes_get_the_https_agent_socks4 :
  let p := "socks4://127.0.0.1:1080" in
  agent_for p = HttpsProxyAgent p /\ fetch_branch (fun _ => None) p = WarnSocks.
Proof.
  destruct (other_socks_schemes_get_the_https_agent (fun _ => None)
              "socks4://127.0.0.1:1080") as [H1 H2]; try reflexivity.
  split; [exact H1|]. by apply H2.
Defined.

(** X20.  part_000: when none of the WebSocket variables and no
    POLY_HTTP_PROXY is set, a nonempty HTTPS_PROXY is the proxy url and
    is also the url of the [fetch] dispatcher, whatever its scheme. *)
Theorem general_proxy_variable_reaches_fetch (env : Env) (p : string) :
  truthy_opt (env "POLY_WS_PROXY") = false -> truthy_opt (env "WSS_PROXY") = false ->
  truthy_opt (env "WS_PROXY") = false -> truthy_opt (env "POLY_HTTP_PROXY") = false ->
  env "HTTPS_PROXY" = Some p -> truthy_string p = true ->
  proxyUrl env = Some p /\ fetch_branch env p = UseDispatcher p.
Proof.
  intros E1 E2 E3 E0 E4 Hp.
  assert (E4' : truthy_opt (env "HTTPS_PROXY") = true) by (by rewrite E4).
  assert (Hp' : truthy_opt (Some p) = true) by done.
  unfold proxyUrl, fetch_branch, fetchProxyUrl.
  rewrite (or_else_false (env "POLY_WS_PROXY")), (or_else_false (env "WSS_PROXY")),
    (or_else_false (env "WS_PROXY")), !(or_else_true (env "HTTPS_PROXY")) by done.
  split; [done|].
  rewrite (or_else_false (env "POLY_HTTP_PROXY")) by done.
  destruct (startsWith p "http://" || startsWith p "https://").
  - rewrite !(or_else_true (Some p)) by done. by rewrite Hp.
  - rewrite (or_else_false None), (or_else_true (env "HTTPS_PROXY")) by done.
    by rewrite E4, Hp.
Qed.

Lemma general_proxy_variable_reaches_fetch_socks5 :
  let env := fun k => if String.eqb k "HTTPS_PROXY"
                      then Some "socks5://127.0.0.1:7891" else None in
  proxyUrl env = Some "socks5://127.0.0.1:7891"
  /\ fetch_branch env "socks5://127.0.0.1:7891"
     = UseDispatcher "socks5://127.0.0.1:7891"
  /\ agent_for "socks5://127.0.0.1:7891" = SocksProxyAgent "socks5://127.0.0.1:7891".
Proof.
  destruct (general_proxy_variable_reaches_fetch
              (fun k => if String.eqb k "HTTPS_PROXY"
                        then Some "socks5://127.0.0.1:7891" else None)
              "socks5://127.0.0.1:7891") as [H1 H2]; try reflexivity.
  split; [exact H1|]. split; [exact H2|reflexivity].
Defined.

Lemma patched_string_address patch h :
  agent (PatchedWebSocket patch (AddrString h) None)
  = if startsWith h "wss://" then Some patch else None.
Proof.
  unfold PatchedWebSocket, isWss, has_agent, startsWith. cbn.
  by destruct (String.prefix "wss://" h).
Qed.
End ProxyPatchFacts.

Section CopyTradingFacts.
Import CopyTrading.

(** X22.  auto-copy-trading.ts, for times that are exact as numbers and
    a start time that is not in the future: the elapsed seconds are the
    whole seconds of the difference,
    hours, minutes and seconds add up to them, minutes and seconds are
    below 60, and [timeStr] shows seconds only below one minute, minutes
    and seconds below one hour and all three parts from then on. *)
Theorem elapsed_time_parts (now startTime : Z) :
  0 <= startTime -> startTime <= now -> now < 2 ^ 53 ->
  let e := elapsed now startTime in
  0 <= e /\ 1000 * e <= now - startTime < 1000 * e + 1000
  /\ 3600 * hours e + 60 * minutes e + seconds e = e
  /\ 0 <= minutes e < 60 /\ 0 <= seconds e < 60
  /\ timeStr e
     = (if e <? 60 then show e +:+ "s"
        else if e <? 3600 then show (e / 60) +:+ "m " +:+ show (e mod 60) +:+ "s"
        else runTime e).
Proof.
  intros _ Hle _ e. unfold elapsed in e.
  assert (He : 0 <= e) by (apply Z.div_pos; lia).
  pose proof (Z.div_mod (now - startTime) 1000 ltac:(lia)) as Hd.
  pose proof (Z.mod_pos_bound (now - startTime) 1000 ltac:(lia)) as Hm.
  fold e in Hd.
  unfold hours, minutes, seconds.
  rewrite !Z.rem_mod_nonneg by lia.
  pose proof (Z.div_mod e 3600 ltac:(lia)) as H1.
  pose proof (Z.mod_pos_bound e 3600 ltac:(lia)) as B1.
  pose proof (Z.div_mod (e mod 3600) 60 ltac:(lia)) as H2.
  pose proof (Z.mod_pos_bound (e mod 3600) 60 ltac:(lia)) as B2.
  assert (H3 : (e mod 3600) mod 60 = e mod 60).
  { apply Z.mod_mod_divide. exists 60. lia. }
  pose proof (Z.mod_pos_bound e 60 ltac:(lia)) as B3.
  assert (Hq : 0 <= e mod 3600 / 60 < 60).
  { split; [apply Z.div_pos; lia|]. apply Z.div_lt_upper_bound; lia. }
  split; [done|]. split; [lia|]. split; [lia|]. split; [done|]. split; [done|].
  unfold timeStr, runTime, hours, minutes, seconds.
  rewrite !Z.rem_mod_nonneg by lia.
  destruct (e <? 60) eqn:E60.
  - apply Z.ltb_lt in E60.
    rewrite (Z.div_small e 3600), (Z.mod_small e 3600), (Z.div_small e 60),
      (Z.mod_small e 60) by lia. done.
  - apply Z.ltb_ge in E60. destruct (e <? 3600) eqn:E36.
    + apply Z.ltb_lt in E36.
      rewrite (Z.div_small e 3600), (Z.mod_small e 3600) by lia. cbn.
      assert (0 < e / 60) by (apply Z.div_str_pos; lia).
      by destruct (0 <? e / 60) eqn:E; [|apply Z.ltb_ge in E; lia].
    + apply Z.ltb_ge in E36.
      assert (0 < e / 3600) by (apply Z.div_str_pos; lia).
      by destruct (0 <? e / 3600) eqn:E; [|apply Z.ltb_ge in E; lia].
Qed.

Lemma elapsed_time_parts_3725 :
  let e := elapsed 1700003725999 1700000000000 in
  e = 3725 /\ hours e = 1 /\ minutes e = 2 /\ seconds e = 5
  /\ timeStr e = "1h 2m 5s".
Proof.
  destruct (elapsed_time_parts 1700003725999 1700000000000) as (_ & _ & _ & _ & _ & H);
    [lia..|].
  repeat split; try reflexivity.
Defined.
End CopyTradingFacts.

(** ** The clients behind the proxy patch *)

Lemma part001_run_created es : forall w,
  grows (created_for (Part001.host (Part001.this w)))
    (effects (Part001.rt w)) (effects (Part001.rt (Part001.run w es))).
Proof.
  induction es as [|e es IH]; intros w; [apply grows_refl|].
  eapply grows_trans.
  - eapply grows_weaken; [|apply step_grows].
    intros x. destruct x; cbn; auto.
  - cbn [Part001.run fold_left]. rewrite <- (k_host _ _ (keeps_step w e)). apply IH.
Qed.

Lemma plain_run_created es : forall w,
  grows (created_for (WsClient.host (WsClient.this w)))
    (effects (WsClient.rt w)) (effects (WsClient.rt (WsClient.run w es))).
Proof.
  induction es as [|e es IH]; intros w; [apply grows_refl|].
  eapply grows_trans.
  - eapply grows_weaken; [|apply plain_step_grows].
    intros x. destruct x; cbn; auto.
  - cbn [WsClient.run fold_left]. rewrite <- (vk_host _ _ (v_keeps_step w e)). apply IH.
Qed.

Lemma created_in_log h sid h' es :
  grows (created_for h) [] es -> NewSocket sid h' ∈ es -> h' = h.
Proof.
  intros (new & -> & H) Hin. cbn in Hin. rewrite Forall_forall in H.
  exact (H _ Hin).
Qed.

(** X21.  Both drafts call the socket constructor with [host] alone.
    Every socket a client ever creates is therefore for the host its
    constructor stored, and through [PatchedWebSocket] it gets the
    agent of the patch exactly when that host starts with wss://: always
    for the default host, never for a ws:// host. *)
Theorem client_sockets_and_the_proxy_patch (patch : ProxyPatch.Agent)
  (ok : string -> bool) (term : bool) (es : list Event) (sid : nat) (h : string) :
  (forall args,
     NewSocket sid h
       ∈ effects (Part001.rt (Part001.run (Part001.init args ok term) es)) ->
     h = Part001.host (Part001.constructor args)
     /\ ProxyPatch.agent
          (ProxyPatch.PatchedWebSocket patch (ProxyPatch.AddrString h) None)
        = if ProxyPatch.startsWith h "wss://" then Some patch else None)
  /\ (forall args,
        NewSocket sid h
          ∈ effects (WsClient.rt (WsClient.run (WsClient.init args ok term) es)) ->
        h = WsClient.host (WsClient.constructor args)
        /\ ProxyPatch.agent
             (ProxyPatch.PatchedWebSocket patch (ProxyPatch.AddrString h) None)
           = if ProxyPatch.startsWith h "wss://" then Some patch else None)
  /\ ProxyPatch.startsWith Part001.DEFAULT_HOST "wss://" = true
  /\ ProxyPatch.startsWith WsClient.DEFAULT_HOST "wss://" = true.
Proof.
  split; [|split; [|by split]].
  - intros args Hin. split; [|apply patched_string_address].
    eapply created_in_log; [|exact Hin].
    apply (part001_run_created es (Part001.init args ok term)).
  - intros args Hin. split; [|apply patched_string_address].
    eapply created_in_log; [|exact Hin].
    apply (plain_run_created es (WsClient.init args ok term)).
Qed.

Lemma client_sockets_and_the_proxy_patch_default :
  let patch := ProxyPatch.agent_for "http://127.0.0.1:7890" in
  NewSocket 0 Part001.DEFAULT_HOST ∈ effects (Part001.rt online)
  /\ ProxyPatch.agent
       (ProxyPatch.PatchedWebSocket patch
          (ProxyPatch.AddrString Part001.DEFAULT_HOST) None)
     = Some (ProxyPatch.HttpsProxyAgent "http://127.0.0.1:7890").
Proof.
  assert (Hin : NewSocket 0 Part001.DEFAULT_HOST ∈ effects (Part001.rt online)).
  { apply list_elem_of_In. vm_compute. right. left. reflexivity. }
  split; [exact Hin|].
  destruct (client_sockets_and_the_proxy_patch
              (ProxyPatch.agent_for "http://127.0.0.1:7890") accept_all true
              [CallConnect; SockOpen 0] 0 Part001.DEFAULT_HOST) as [H _].
  destruct (H (Some observed) Hin) as [_ H']. rewrite H'. vm_compute. reflexivity.
Defined.
